(** * On-save syntax checking: a shallow embedding of [SyntaxCheckPlugin.py]

    The plugin maps the JSON diagnostics of a cargo/rustc run onto editor
    annotations (phantoms and highlighted regions).  This development
    embeds the target resolver, the output parser of [run_cargo], the
    span resolver and the recursive annotation walk
    [add_error_phantoms], and proves properties of them.

    Python values are modelled as follows: [bytes] as [string], [str] as
    the [string] of its UTF-8 encoding, unbounded [int] as [Z], [dict]s
    whose iteration order matters as association lists, [None]-or-value
    fields as [option], exceptions as the [Raise] constructor of
    [result].  [os.path] is the POSIX flavour. *)

From Stdlib Require Import String Ascii List ZArith Lia Bool Arith.
From Equations Require Import Equations.
Import ListNotations.
Set Warnings "-register-all".
Open Scope list_scope.
Open Scope string_scope.

(** ** Exceptions and results *)

Inductive exn : Type :=
| ValueError (msg : string)
| IndexError
| AttributeError
| KeyError (key : string)
| TypeError
| UnicodeDecodeError
| JSONDecodeError (doc : string).

Inductive result (A : Type) : Type :=
| Ok (a : A)
| Raise (e : exn).
Arguments Ok {A} a.
Arguments Raise {A} e.

Definition bind {A B : Type} (r : result A) (k : A -> result B) : result B :=
  match r with
  | Ok a => k a
  | Raise e => Raise e
  end.

Notation "x <- r ;; k" := (bind r (fun x => k))
  (at level 61, r at next level, right associativity).

(** ** Python string operations *)

Definition is_sep (c : ascii) : bool := (c =? "/")%char.

(** [s.startswith(p)] *)
Definition startswith (s p : string) : bool := String.prefix p s.

(** [needle in s] *)
Fixpoint contains (needle s : string) : bool :=
  String.prefix needle s ||
  match s with
  | EmptyString => false
  | String _ s' => contains needle s'
  end.

(** [c in s], for a character *)
Fixpoint occurs (c : ascii) (s : string) : bool :=
  match s with
  | EmptyString => false
  | String x s' => (x =? c)%char || occurs c s'
  end.

(** [s.endswith("/")] *)
Fixpoint endswith_sep (s : string) : bool :=
  match s with
  | EmptyString => false
  | String c EmptyString => is_sep c
  | String _ s' => endswith_sep s'
  end.

(** [x in (k1, k2, ...)] for strings *)
Definition str_in (x : string) (l : list string) : bool :=
  existsb (String.eqb x) l.

(** Python truthiness of a [None]-or-[str] value. *)
Definition truthy (o : option string) : bool :=
  match o with
  | None => false
  | Some s => negb (s =? EmptyString)
  end.

(** ** [bytes.decode('utf-8')]

    The strict decoder: a byte sequence is accepted when it is made of
    well-formed UTF-8 sequences only (no stray continuation byte, no
    truncated or overlong sequence, no surrogate, nothing above
    U+10FFFF).  A [str] being modelled by its UTF-8 encoding, an
    accepted sequence is returned as it is. *)

Definition in_range (lo hi : nat) (c : ascii) : bool :=
  (lo <=? nat_of_ascii c)%nat && (nat_of_ascii c <=? hi)%nat.

Definition is_byte (n : nat) (c : ascii) : bool := (nat_of_ascii c =? n)%nat.

Fixpoint utf8_valid (s : string) : bool :=
  match s with
  | EmptyString => true
  | String b0 s1 =>
      if in_range 0 127 b0 then utf8_valid s1
      else if in_range 194 223 b0 then
        match s1 with
        | String b1 s2 => in_range 128 191 b1 && utf8_valid s2
        | _ => false
        end
      else if in_range 224 239 b0 then
        match s1 with
        | String b1 (String b2 s3) =>
            (if is_byte 224 b0 then in_range 160 191 b1
             else if is_byte 237 b0 then in_range 128 159 b1
             else in_range 128 191 b1)
            && in_range 128 191 b2 && utf8_valid s3
        | _ => false
        end
      else if in_range 240 244 b0 then
        match s1 with
        | String b1 (String b2 (String b3 s4)) =>
            (if is_byte 240 b0 then in_range 144 191 b1
             else if is_byte 244 b0 then in_range 128 143 b1
             else in_range 128 191 b1)
            && in_range 128 191 b2 && in_range 128 191 b3 && utf8_valid s4
        | _ => false
        end
      else false
  end.

Definition decode_utf8 (bytes : string) : result string :=
  if utf8_valid bytes then Ok bytes else Raise UnicodeDecodeError.

(** ** [str.format] with keyword arguments that are strings

    The template is read from left to right.  Doubled braces stand for
    themselves, a single closing brace or an opening brace at the very
    end is an error, and a replacement field that holds a plain keyword
    name is replaced by the value of that keyword, or raises [KeyError].
    An empty field and a field that is a short number ask for a
    positional argument, and there is none.  What the formatter does
    from any other field on (a field with an index, an attribute, a
    conversion, a format specification or a nested field, a field that
    begins with a digit or with a character that is not ASCII, a field
    cut short by the end of the template) is the interpreter's business:
    it is handed to [interp] with the text that follows the opening
    brace of that field. *)

Definition is_markup (c : ascii) : bool :=
  (c =? "{")%char || (c =? "[")%char || (c =? ".")%char || (c =? ":")%char || (c =? "!")%char.

(** The first character of a field name that is looked up as a keyword:
    it is ASCII and not a decimal digit. *)
Definition is_name_start (c : ascii) : bool :=
  in_range 0 127 c && negb (in_range 48 57 c).

(** A field that is a number of at most nine decimal digits: an index
    into the positional arguments, of which there are none. *)
Fixpoint all_digits (s : string) : bool :=
  match s with
  | EmptyString => true
  | String c s' => in_range 48 57 c && all_digits s'
  end.

Definition is_index (f : string) : bool :=
  all_digits f && (String.length f <=? 9)%nat.

(** [kwargs.get(key)] *)
Fixpoint kwargs_get (kwargs : list (string * string)) (key : string) : option string :=
  match kwargs with
  | [] => None
  | (k, v) :: rest => if k =? key then Some v else kwargs_get rest key
  end.

Section Format.

Variable interp : string -> result string.
Variable kwargs : list (string * string).

(** [field] is [None] in literal text, and holds the characters read so
    far of the replacement field otherwise. *)
Fixpoint format_from (field : option string) (s : string) : result string :=
  match s with
  | EmptyString =>
      match field with
      | None => Ok EmptyString
      | Some f => interp f
      end
  | String c rest =>
      match field with
      | None =>
          if (c =? "{")%char then
            match rest with
            | EmptyString => Raise (ValueError "Single '{' encountered in format string")
            | String c' rest' =>
                if (c' =? "{")%char then r <- format_from None rest' ;; Ok (String c r)
                else format_from (Some EmptyString) rest
            end
          else if (c =? "}")%char then
            match rest with
            | EmptyString => Raise (ValueError "Single '}' encountered in format string")
            | String c' rest' =>
                if (c' =? "}")%char then r <- format_from None rest' ;; Ok (String c r)
                else Raise (ValueError "Single '}' encountered in format string")
            end
          else r <- format_from None rest ;; Ok (String c r)
      | Some f =>
          if (c =? "}")%char then
            match f with
            | EmptyString => Raise IndexError
            | String c0 _ =>
                if is_name_start c0 then
                  match kwargs_get kwargs f with
                  | Some v => r <- format_from None rest ;; Ok (v ++ r)
                  | None => Raise (KeyError f)
                  end
                else if is_index f then Raise IndexError
                else interp (f ++ s)
            end
          else if is_markup c then interp (f ++ s)
          else format_from (Some (f ++ String c EmptyString)) rest
      end
  end.

(** [template.format(cls=..., level=..., msg=..., extra=...)] *)
Definition format (template : string) : result string := format_from None template.

End Format.

(** ** [os.path] (posixpath) *)

Fixpoint has_sep (s : string) : bool :=
  match s with
  | EmptyString => false
  | String c s' => is_sep c || has_sep s'
  end.

(** [p[:p.rfind('/') + 1]] *)
Fixpoint head_upto_sep (p : string) : string :=
  match p with
  | EmptyString => EmptyString
  | String c p' =>
      if has_sep p' then String c (head_upto_sep p')
      else if is_sep c then String c EmptyString
      else EmptyString
  end.

(** [s.rstrip('/')] *)
Fixpoint rstrip_sep (s : string) : string :=
  match s with
  | EmptyString => EmptyString
  | String c s' =>
      match rstrip_sep s' with
      | EmptyString => if is_sep c then EmptyString else String c EmptyString
      | r => String c r
      end
  end.

(** [s == '/' * len(s)] *)
Fixpoint all_sep (s : string) : bool :=
  match s with
  | EmptyString => true
  | String c s' => is_sep c && all_sep s'
  end.

(** [os.path.dirname] *)
Definition dirname (p : string) : string :=
  let head := head_upto_sep p in
  if negb (head =? EmptyString) && negb (all_sep head) then rstrip_sep head else head.

(** [os.path.join(a, b)] *)
Definition join (a b : string) : string :=
  if startswith b "/" then b
  else if (a =? EmptyString) || endswith_sep a then a ++ b
  else a ++ "/" ++ b.

(** ** Target resolver *)

(** A target of [cargo metadata]:
    [{'kind': [...], 'name': ..., 'src_path': ...}]. *)
Record Target : Type := mkTarget {
  kind : list string;
  name : string;
  src_path : string
}.

(** A target invocation: [(target_src_path, command_line_args)]. *)
Definition Invocation : Type := (string * string)%type.

Definition _target_to_args (target : Target) : result (option Invocation) :=
  match kind target with
  | [] => Raise IndexError
  | k :: _ =>
      if str_in k ["lib"; "rlib"; "dylib"; "staticlib"; "proc-macro"] then
        Ok (Some (src_path target, "--lib"))
      else if str_in k ["bin"; "test"; "example"; "bench"] then
        Ok (Some (src_path target, "--" ++ k ++ " " ++ name target))
      else if str_in k ["custom-build"] then
        Ok None
      else Raise (ValueError k)
  end.

Fixpoint _targets_exact_match (targets : list Target) (file_name : string)
  : result (option (list Invocation)) :=
  match targets with
  | [] => Ok None
  | target :: rest =>
      if src_path target =? file_name then
        args <- _target_to_args target ;;
        match args with
        | Some a => Ok (Some [a])
        | None => _targets_exact_match rest file_name
        end
      else _targets_exact_match rest file_name
  end.

(** The local variables of [_targets_longest_matches]. *)
Record Matches : Type := mkMatches {
  m_result : list Invocation;
  found : bool;
  found_lib : bool;
  found_bin : bool
}.

(** The [for target in targets] loop at one directory level. *)
Fixpoint scan_level (path_match : string) (targets : list Target) (m : Matches)
  : result Matches :=
  match targets with
  | [] => Ok m
  | target :: rest =>
      if dirname (src_path target) =? path_match then
        target_args <- _target_to_args target ;;
        match target_args with
        | Some a =>
            scan_level path_match rest
              {| m_result := (m_result m ++ [a])%list;
                 found := true;
                 found_bin := if startswith (snd a) "--bin" then true else found_bin m;
                 found_lib := if startswith (snd a) "--lib" then true else found_lib m |}
        | None => scan_level path_match rest m
        end
      else scan_level path_match rest m
  end.

Lemma rstrip_sep_length (s : string) : String.length (rstrip_sep s) <= String.length s.
Proof.
  induction s as [|c s IH]; simpl; [lia|].
  destruct (rstrip_sep s); [destruct (is_sep c)|]; simpl in *; lia.
Qed.

Lemma head_upto_sep_length (p : string) :
  String.length (head_upto_sep p) <= String.length p.
Proof.
  induction p as [|c p IH]; simpl; [lia|].
  destruct (has_sep p); [|destruct (is_sep c)]; simpl; lia.
Qed.

Lemma head_upto_sep_full (p : string) :
  String.length (head_upto_sep p) = String.length p -> head_upto_sep p = p.
Proof.
  induction p as [|c p IH]; simpl; [reflexivity|].
  destruct (has_sep p).
  - simpl. intros H. f_equal. apply IH. lia.
  - destruct (is_sep c); simpl; intros H.
    + destruct p; [reflexivity|simpl in H; lia].
    + lia.
Qed.

Lemma rstrip_sep_full (s : string) :
  String.length (rstrip_sep s) = String.length s -> rstrip_sep s = s.
Proof.
  induction s as [|c s IH]; simpl; [reflexivity|].
  pose proof (rstrip_sep_length s) as Hle.
  destruct (rstrip_sep s) eqn:E.
  - destruct (is_sep c); simpl; intros H; [lia|].
    destruct s; [reflexivity|simpl in *; lia].
  - simpl. intros H. f_equal. apply IH. simpl. lia.
Qed.

Lemma dirname_shrinks (p : string) :
  dirname p <> p -> String.length (dirname p) < String.length p.
Proof.
  unfold dirname. intros Hne.
  pose proof (head_upto_sep_length p) as H1.
  pose proof (rstrip_sep_length (head_upto_sep p)) as H2.
  destruct (negb (head_upto_sep p =? EmptyString) && negb (all_sep (head_upto_sep p))).
  - destruct (Nat.eq_dec (String.length (rstrip_sep (head_upto_sep p))) (String.length p)) as [E|E]; [|lia].
    exfalso. apply Hne.
    assert (String.length (head_upto_sep p) = String.length p) as E1 by lia.
    rewrite rstrip_sep_full by lia. now apply head_upto_sep_full.
  - destruct (Nat.eq_dec (String.length (head_upto_sep p)) (String.length p)) as [E|E]; [|lia].
    exfalso. apply Hne. now apply head_upto_sep_full.
Qed.

(** The [while not found] loop: scan the level, then move to the parent
    directory until the root (a fixed point of [dirname]) is reached. *)
Equations? walk_up (targets : list Target) (path_match : string) (m : Matches)
  : result Matches by wf (String.length path_match) lt :=
  walk_up targets path_match m with found m => {
    | true := Ok m
    | false with scan_level path_match targets m => {
        | Raise e := Raise e
        | Ok m' with string_dec (dirname path_match) path_match => {
            | left _ := Ok m'
            | right Hne := walk_up targets (dirname path_match) m' } } }.
Proof. now apply dirname_shrinks. Qed.

Definition _targets_longest_matches (targets : list Target) (file_name : string)
  : result (list Invocation) :=
  m <- walk_up targets (dirname file_name)
         {| m_result := []; found := false; found_lib := false; found_bin := false |} ;;
  if found_bin m && found_lib m then
    Ok (filter (fun x => negb (startswith (snd x) "--bin")) (m_result m))
  else Ok (m_result m).

(** ** Settings and manual target configuration *)

(** One entry of the [projects] setting:
    [{'root': ..., 'targets': {file: args, ..., '_default': args}}]. *)
Record Project : Type := mkProject {
  root : option string;
  targets : option (list (string * string))
}.

Record Settings : Type := mkSettings {
  rust_syntax_checking : option bool;
  rust_syntax_checking_include_tests : option bool;
  rust_syntax_hide_warnings : option bool;
  rust_syntax_error_color : option string;
  rust_syntax_warning_color : option string;
  projects : option (list Project)
}.

(** [d.get(key, default)] *)
Definition get {A : Type} (o : option A) (default : A) : A :=
  match o with
  | Some v => v
  | None => default
  end.

Fixpoint dict_get (d : list (string * string)) (key default : string) : string :=
  match d with
  | [] => default
  | (k, v) :: d' => if k =? key then v else dict_get d' key default
  end.

(** The [for tfile, tcmd in targets.items()] loop. *)
Fixpoint manual_target (src_root file_name : string) (items : list (string * string))
  : option Invocation :=
  match items with
  | [] => None
  | (tfile, tcmd) :: rest =>
      if file_name =? join src_root tfile then Some (tfile, tcmd)
      else manual_target src_root file_name rest
  end.

(** The [for project in ...values()] loop of [_targets_manual_config]. *)
Fixpoint manual_projects (ps : list Project) (file_name : string)
  : option (list Invocation) :=
  match ps with
  | [] => None
  | project :: rest =>
      let src_root := join (get (root project) EmptyString) "src" in
      if negb (startswith file_name src_root) then manual_projects rest file_name
      else
        let targets := get (targets project) [] in
        match manual_target src_root file_name targets with
        | Some inv => Some [inv]
        | None =>
            let target := dict_get targets "_default" EmptyString in
            if negb (target =? EmptyString) then Some [(EmptyString, target)]
            else manual_projects rest file_name
        end
  end.

Definition _targets_manual_config (settings : Settings) (file_name : string)
  : option (list Invocation) :=
  manual_projects (get (projects settings) []) file_name.

(** ** Diagnostic records (the JSON wire format of rustc) *)

Inductive Span : Type := mkSpan {
  file_name : string;
  line_start : Z;
  line_end : Z;
  column_start : Z;
  column_end : Z;
  is_primary : bool;
  label : option string;
  suggested_replacement : option string;
  (** [span['expansion']['span']], or [None] *)
  expansion : option Span
}.

Record Code : Type := mkCode {
  code_id : string;
  explanation : option string
}.

Inductive Info : Type := mkInfo {
  level : string;
  message : string;
  code : option Code;
  spans : list Span;
  children : list Info;
  rendered : option string
}.

(** The nested helper of [add_error_phantoms]: follow the chain of macro
    expansions to the site where the macro was invoked. *)
Fixpoint find_span_r (span : Span) : option Span :=
  if contains "macros>" (file_name span) then
    match expansion span with
    | Some e => find_span_r e
    | None => None
    end
  else Some span.

(** The resolution step at the head of the span loop. *)
Definition resolve_span (span : Span) : option Span :=
  if contains "macros>" (file_name span) then find_span_r span else Some span.

(** [find_span_r] instrumented with the number of recursive calls (hops
    along [expansion]) it makes; the result is the one of [find_span_r]. *)
Fixpoint find_span_r_hops (span : Span) : nat * option Span :=
  if contains "macros>" (file_name span) then
    match expansion span with
    | Some e => let (n, r) := find_span_r_hops e in (S n, r)
    | None => (0, None)
    end
  else (0, Some span).

(** ** The editor, as seen by the plugin *)

(** A view is identified by [view.id()]; [==] on views compares ids. *)
Definition View : Type := Z.

(** [sublime.Region(a, b)] *)
Record Region : Type := mkRegion {
  region_a : Z;
  region_b : Z
}.

Definition region_begin (r : Region) : Z := Z.min (region_a r) (region_b r).
Definition region_end (r : Region) : Z := Z.max (region_a r) (region_b r).

(** The external collaborators: the file system, the window, the text
    buffers of the open views, the cargo process and the interpreter.
    [cargo n cmd] is the bytes written by the [n]-th process spawned in
    the run, and its return code.  [format_field n text kwargs] is what
    [str.format] makes of a template from a replacement field on that is
    not a plain keyword name, in the call that follows [n] phantoms;
    [text] is the template after the opening brace of that field. *)
Record Editor : Type := mkEditor {
  realpath : string -> string;
  find_open_file : string -> option View;
  text_point : View -> Z -> Z -> Z;
  rowcol : View -> Z -> Z * Z;
  size : View -> Z;
  cargo : nat -> string -> string * Z;
  format_field : nat -> string -> list (string * string) -> result string
}.

(** What [print] and [pprint] write to the console. *)
Inductive Printed : Type :=
| Running (cmd : string)
| FailedToRun (cmd : string)
| Output (output : string)
| SilentPath (path : string)
| SilentMessage (lvl msg : string)
| PPrint (info : Info).

(** One call of [view.add_phantom('rust-syntax-phantom', region, content,
    LAYOUT_BELOW, click_handler)]. *)
Record Phantom : Type := mkPhantom {
  ph_view : View;
  ph_region : Region;
  ph_content : string
}.

(** The mutable state of one check run: the flag [self.this_view_found],
    the dictionary [regions_by_view] (view id to scope to regions, in
    insertion order), the dictionary [parent_info] that a top-level call
    and all its recursive calls share ([None] is the empty dictionary),
    and the effects on the outside: phantoms added, console output and
    cargo commands spawned. *)
Record Run : Type := mkRun {
  this_view_found : bool;
  regions_by_view : list (View * list (string * list Region));
  parent_info : option (View * Region);
  phantoms : list Phantom;
  console : list Printed;
  spawned : list string
}.

(** The outcome of a statement: it completes or it raises; the effects
    made before a raise persist. *)
Inductive Outcome : Type :=
| Done (st : Run)
| Raised (e : exn) (st : Run).

Definition and_then (o : Outcome) (k : Run -> Outcome) : Outcome :=
  match o with
  | Done st => k st
  | Raised e st => Raised e st
  end.

Definition final (o : Outcome) : Run :=
  match o with
  | Done st => st
  | Raised _ st => st
  end.

Definition print (p : Printed) (st : Run) : Run :=
  mkRun (this_view_found st) (regions_by_view st) (parent_info st)
        (phantoms st) (console st ++ [p])%list (spawned st).

(** [s.replace(c, by)] for a one-character [c] *)
Fixpoint replace (c : ascii) (by_ : string) (s : string) : string :=
  match s with
  | EmptyString => EmptyString
  | String x s' => if (x =? c)%char then by_ ++ replace c by_ s'
                   else String x (replace c by_ s')
  end.

(** [html.escape(s, quote=False)] *)
Definition html_escape (s : string) : string :=
  replace ">" "&gt;" (replace "<" "&lt;" (replace "&" "&amp;" s)).

(** [html.escape(message, quote=False).replace('\n', '<br>').replace(' ', '&nbsp;')] *)
Definition render (message : string) : string :=
  replace " " "&nbsp;" (replace "010" "<br>" (html_escape message)).

Definition newline : string := String "010" EmptyString.

Definition dq : string := String "034" EmptyString.

(** The text of [msg_template] before and after the [%s] that receives
    the colour. *)
Definition template_head : string :=
  newline ++
  "            <body id=" ++ dq ++ "rust-message" ++ dq ++ ">" ++ newline ++
  "                <style>" ++ newline ++
  "                    span {{" ++ newline ++
  "                        font-family: monospace;" ++ newline ++
  "                    }}" ++ newline ++
  "                    .rust-error {{" ++ newline ++
  "                        color: ".

Definition template_tail : string :=
  ";" ++ newline ++
  "                    }}" ++ newline ++
  "                    .rust-additional {{" ++ newline ++
  "                        color: var(--yellowish);" ++ newline ++
  "                    }}" ++ newline ++
  "                    a {{" ++ newline ++
  "                        text-decoration: inherit;" ++ newline ++
  "                        padding: 0.35rem 0.5rem 0.45rem 0.5rem;" ++ newline ++
  "                        position: relative;" ++ newline ++
  "                        font-weight: bold;" ++ newline ++
  "                    }}" ++ newline ++
  "                </style>" ++ newline ++
  "                <span class=" ++ dq ++ "{cls}" ++ dq ++ ">{level}: {msg} {extra}<a href="
    ++ dq ++ "hide" ++ dq ++ ">" ++ String "195" (String "151" "</a></span>") ++ newline ++
  "            </body>".

(** [msg_template]: the template text with [base_color] put in by [%]. *)
Definition msg_template (base_color : string) : string :=
  template_head ++ base_color ++ template_tail.

(** [d.setdefault(scope, []).append(region)] *)
Fixpoint setdefault_append (scope : string) (region : Region)
  (d : list (string * list Region)) : list (string * list Region) :=
  match d with
  | [] => [(scope, [region])]
  | (k, rs) :: d' =>
      if k =? scope then (k, (rs ++ [region])%list) :: d'
      else (k, rs) :: setdefault_append scope region d'
  end.

(** [if vid not in regions_by_view: regions_by_view[vid] = {...}] followed
    by [regions_by_view[vid]['regions'].setdefault(scope, []).append(region)] *)
Fixpoint add_region (vid : View) (scope : string) (region : Region)
  (d : list (View * list (string * list Region)))
  : list (View * list (string * list Region)) :=
  match d with
  | [] => [(vid, [(scope, [region])])]
  | (k, regions) :: d' =>
      if (k =? vid)%Z then (k, setdefault_append scope region regions) :: d'
      else (k, regions) :: add_region vid scope region d'
  end.

(** ** The annotation walk *)

Section Aggregator.

Variable ed : Editor.
Variable settings : Settings.
(** The view that triggered the check. *)
Variable view_of_interest : View.
(** The top-level source file of the cargo target being checked. *)
Variable target_src_path : string.

Definition hide_warnings : bool := get (rust_syntax_hide_warnings settings) false.

(** [base_color], chosen by the level of the record. *)
Definition base_color (info : Info) : string :=
  if level info =? "error" then get (rust_syntax_error_color settings) "var(--redish)"
  else get (rust_syntax_warning_color settings) "var(--yellowish)".

(** The nested function [add_message] of [add_error_phantoms], closed
    over [info].  [message] is [None] when the caller passes a missing
    [info['rendered']]: [html.escape] then raises.  [msg_template.format]
    raises on a template it cannot read.  In both cases the flag and the
    highlight region have been recorded, and no phantom is added. *)
Definition add_message (info : Info) (view : View) (region : Region)
  (message : option string) (extra : string) (st : Run) : Outcome :=
  let is_error := level info =? "error" in
  let flag := if (view =? view_of_interest)%Z then true else this_view_found st in
  let scope := if is_error then "invalid" else "info" in
  let regions := add_region view scope region (regions_by_view st) in
  let start := rowcol ed view (region_begin region) in
  let end_ := rowcol ed view (region_end region) in
  let region' :=
    if negb (fst start =? fst end_)%Z
    then mkRegion (text_point ed view (fst end_) 0) (region_end region)
    else region in
  let cls := if level info =? "error" then "rust-error" else "rust-additional" in
  let st1 := mkRun flag regions (parent_info st) (phantoms st) (console st) (spawned st) in
  match message with
  | None => Raised AttributeError st1
  | Some m =>
      let kwargs := [("cls", cls); ("level", level info); ("msg", render m); ("extra", extra)] in
      match format (fun text => format_field ed (List.length (phantoms st)) text kwargs)
                   kwargs (msg_template (base_color info)) with
      | Raise e => Raised e st1
      | Ok content =>
          Done (mkRun flag regions (parent_info st)
                  (phantoms st ++ [mkPhantom view region' content])%list
                  (console st) (spawned st))
      end
  end.

Definition error_index_link (c : string) : string :=
  " <a href=" ++ String "034" "https://doc.rust-lang.org/error-index.html#" ++ c
  ++ String "034" ">?</a>".

Definition add_primary_message (info : Info) (view : View) (region : Region)
  (message : string) (st : Run) : Outcome :=
  let st1 := mkRun (this_view_found st) (regions_by_view st) (Some (view, region))
               (phantoms st) (console st) (spawned st) in
  let extra :=
    match code info with
    | Some c => if truthy (explanation c) then error_index_link (code_id c) else EmptyString
    | None => EmptyString
    end in
  add_message info view region (Some message) extra st1.

Definition report_silent_message (info : Info) (path message : string) (st : Run) : Run :=
  print (SilentMessage (level info) message) (print (SilentPath path) st).

(** The branch [if len(info['spans']) == 0]. *)
Definition spanless (info : Info) (st : Run) : Outcome :=
  match parent_info st with
  | Some (view, region) => add_primary_message info view region (message info) st
  | None =>
      let imsg := message info in
      if negb (startswith imsg "aborting due to" || startswith imsg "cannot continue") then
        match find_open_file ed (realpath ed target_src_path) with
        | Some view =>
            add_primary_message info view (mkRegion (size ed view) (size ed view)) imsg st
        | None => Done (report_silent_message info target_src_path imsg st)
        end
      else Done st
  end.

(** [sublime.Region(view.text_point(line_start - 1, column_start - 1),
                    view.text_point(line_end - 1, column_end - 1))] *)
Definition span_region (view : View) (span : Span) : Region :=
  mkRegion (text_point ed view (line_start span - 1) (column_start span - 1))
           (text_point ed view (line_end span - 1) (column_end span - 1)).

(** The body of the span loop once the span is resolved: [is_primary]
    was read from the span as given, before resolution. *)
Definition anchor_span (info : Info) (is_primary : bool) (span : Span) (st : Run)
  : Outcome :=
  match find_open_file ed (realpath ed (file_name span)) with
  | Some view =>
      let region := span_region view span in
      and_then
        (if truthy (label span) then add_message info view region (label span) EmptyString st
         else if negb is_primary then
           Raised (ValueError "Unexpected span with no label") (print (PPrint info) st)
         else Done st)
        (fun st1 =>
      and_then
        (if is_primary then add_primary_message info view region (message info) st1
         else Done st1)
        (fun st2 =>
         if truthy (suggested_replacement span)
         then add_message info view region (rendered info) EmptyString st2
         else Done st2))
  | None =>
      let st1 :=
        if is_primary then report_silent_message info (file_name span) (message info) st
        else st in
      Done (if truthy (label span)
            then report_silent_message info (file_name span) (get (label span) EmptyString) st1
            else st1)
  end.

(** One iteration of [for span in info['spans']]: an unresolved span is
    skipped by [continue]. *)
Definition process_span (info : Info) (span0 : Span) (st : Run) : Outcome :=
  match resolve_span span0 with
  | None => Done st
  | Some span => anchor_span info (is_primary span0) span st
  end.

Fixpoint process_spans (info : Info) (l : list Span) (st : Run) : Outcome :=
  match l with
  | [] => Done st
  | span :: rest => and_then (process_span info span st) (process_spans info rest)
  end.

(** The severity filter at the head of [add_error_phantoms]. *)
Definition filtered (info : Info) (st : Run) : bool :=
  negb (level info =? "error") && hide_warnings &&
  match parent_info st with None => true | Some _ => false end.

Fixpoint add_error_phantoms (info : Info) (st : Run) : Outcome :=
  if filtered info st then Done st
  else
    and_then (match spans info with
              | [] => spanless info st
              | _ :: _ => Done st
              end) (fun st1 =>
    and_then (process_spans info (spans info) st1) (fun st2 =>
    (fix recurse (cs : list Info) (st : Run) : Outcome :=
       match cs with
       | [] => Done st
       | child :: cs' => and_then (add_error_phantoms child st) (recurse cs')
       end) (children info) st2)).

(** [for child in info['children']: self.add_error_phantoms(..., child, ...)] *)
Fixpoint recurse_children (cs : list Info) (st : Run) : Outcome :=
  match cs with
  | [] => Done st
  | child :: cs' => and_then (add_error_phantoms child st) (recurse_children cs')
  end.

End Aggregator.

(** ** The diagnostic fetcher *)

(** [output.split('\n')] *)
Fixpoint split (output : string) : list string :=
  match output with
  | EmptyString => [EmptyString]
  | String c rest =>
      if (c =? "010")%char then EmptyString :: split rest
      else match split rest with
           | [] => [String c EmptyString]
           | line :: lines => String c line :: lines
           end
  end.

(** The negation of the test [line == '' or line[0] != '{'] under which
    [run_cargo] skips a line. *)
Definition is_record_line (line : string) : bool :=
  match line with
  | EmptyString => false
  | String c _ => (c =? "{")%char
  end.

Section Fetcher.

(** The values [json.loads] returns, and [json.loads] itself ([None]
    when it raises [JSONDecodeError]). *)
Context {J : Type}.
Variable json_loads : string -> option J.
Variable ed : Editor.

(** The loop [for line in output.split('\n')] of [run_cargo]. *)
Fixpoint parse_lines (lines : list string) (acc : list J) : result (list J) :=
  match lines with
  | [] => Ok acc
  | line :: rest =>
      if negb (is_record_line line) then parse_lines rest acc
      else match json_loads line with
           | Some j => parse_lines rest (acc ++ [j])%list
           | None => Raise (JSONDecodeError line)
           end
  end.

Definition run_cargo (args : list string) (st : Run) : result (list J) * Run :=
  let cmd := String.concat " " ("cargo" :: args) in
  let st1 := print (Running cmd) st in
  let (output0, returncode) := cargo ed (List.length (spawned st1)) cmd in
  let st2 := mkRun (this_view_found st1) (regions_by_view st1) (parent_info st1)
               (phantoms st1) (console st1) (spawned st1 ++ [cmd])%list in
  match decode_utf8 output0 with
  | Raise e => (Raise e, st2)
  | Ok output =>
      match parse_lines (split output) [] with
      | Raise e => (Raise e, st2)
      | Ok records =>
          (Ok records,
           match records with
           | [] => if negb (returncode =? 0)%Z
                   then print (Output output) (print (FailedToRun cmd) st2)
                   else st2
           | _ :: _ => st2
           end)
      end
  end.

End Fetcher.

(** The argument list built by [get_rustc_messages] for one target. *)
Definition rustc_args (settings : Settings) (target_args : string) : list string :=
  (["rustc"; target_args; "--"; "-Zno-trans"; "-Zunstable-options"; "--error-format=json"]
   ++ (if get (rust_syntax_checking_include_tests settings) true
          && negb (contains "--test" target_args)
       then ["--test"] else []))%list.

(** ** The check run *)

Section CheckRun.

(** [json.loads] followed by the reading of the record in the wire
    format of rustc. *)
Variable json_loads : string -> option Info.
Variable ed : Editor.
Variable settings : Settings.
Variable view : View.

(** [parent_info] is a fresh [{}] at every top-level call. *)
Definition fresh_parent (st : Run) : Run :=
  mkRun (this_view_found st) (regions_by_view st) None
        (phantoms st) (console st) (spawned st).

(** [for info in infos: self.add_error_phantoms(view, info, settings,
    regions_by_view, target_src, {})] *)
Fixpoint add_infos (target_src : string) (infos : list Info) (st : Run) : Outcome :=
  match infos with
  | [] => Done st
  | info :: rest =>
      and_then (add_error_phantoms ed settings view target_src info (fresh_parent st))
               (add_infos target_src rest)
  end.

(** The loop [for target_src, infos in self.get_rustc_messages(...)] of
    [on_post_save_async]; the generator runs cargo for a target only
    when the loop asks for its next item. *)
Fixpoint check_targets (targets : list Invocation) (st : Run) : Outcome :=
  match targets with
  | [] => Done st
  | (target_src, target_args) :: rest =>
      match run_cargo json_loads ed (rustc_args settings target_args) st with
      | (Raise e, st1) => Raised e st1
      | (Ok infos, st1) =>
          and_then (add_infos target_src infos st1) (fun st2 =>
          if this_view_found st2 then Done st2 else check_targets rest st2)
      end
  end.

Definition initial_run : Run := mkRun false [] None [] [] [].

(** [draw_region_highlights]: the calls of [view.add_regions(key,
    regions, scope, ...)], as (view, key, regions, scope). *)
Definition draw_region_highlights
  (regions_by_view : list (View * list (string * list Region)))
  : list (View * string * list Region * string) :=
  flat_map (fun d =>
    map (fun sr => (fst d, "rust-" ++ fst sr, snd sr, fst sr)) (snd d)) regions_by_view.

(** The body of [on_post_save_async] once syntax checking is found
    enabled, given the targets [determine_targets] returned: the run
    and, when nothing was raised, the highlights drawn at its end. *)
Definition on_post_save_async (targets : list Invocation)
  : Outcome * list (View * string * list Region * string) :=
  match check_targets targets initial_run with
  | Done st => (Done st, draw_region_highlights (regions_by_view st))
  | Raised e st => (Raised e st, [])
  end.

End CheckRun.

(** ** A JSON decoder

    [json.loads] belongs to the Python library, not to the plugin: the
    theorems below hold for every decoder.  The decoder of this section
    makes the embedding executable on concrete cargo output.  It reads
    the JSON grammar with integer numbers (numbers with a fraction or an
    exponent keep their text), and UTF-8 encodes [\u] escapes of the
    basic plane. *)

Inductive json : Type :=
| JNull
| JBool (b : bool)
| JInt (n : Z)
| JFloat (text : string)
| JString (s : string)
| JArray (elements : list json)
| JObject (members : list (string * json)).

Definition is_ws (c : ascii) : bool :=
  (c =? " ")%char || (c =? "009")%char || (c =? "010")%char || (c =? "013")%char.

Fixpoint skip_ws (s : string) : string :=
  match s with
  | String c rest => if is_ws c then skip_ws rest else s
  | EmptyString => s
  end.

Definition digit_of (c : ascii) : option Z :=
  let n := Z.of_nat (nat_of_ascii c) in
  if (48 <=? n)%Z && (n <=? 57)%Z then Some (n - 48)%Z else None.

Definition hex_of (c : ascii) : option Z :=
  let n := Z.of_nat (nat_of_ascii c) in
  if (48 <=? n)%Z && (n <=? 57)%Z then Some (n - 48)%Z
  else if (65 <=? n)%Z && (n <=? 70)%Z then Some (n - 55)%Z
  else if (97 <=? n)%Z && (n <=? 102)%Z then Some (n - 87)%Z
  else None.

Definition byte (n : Z) : ascii := ascii_of_nat (Z.to_nat n).

(** The UTF-8 encoding of a code point below 65536. *)
Definition utf8 (n : Z) : string :=
  if (n <? 128)%Z then String (byte n) EmptyString
  else if (n <? 2048)%Z then
    String (byte (192 + n / 64)) (String (byte (128 + n mod 64)) EmptyString)
  else
    String (byte (224 + n / 4096))
      (String (byte (128 + (n / 64) mod 64)) (String (byte (128 + n mod 64)) EmptyString)).

(** The digits at the head of [s], their value continuing [acc], and the
    rest of [s]. *)
Fixpoint read_digits (s : string) (acc : Z) (any : bool) : Z * bool * string :=
  match s with
  | String c rest =>
      match digit_of c with
      | Some d => read_digits rest (10 * acc + d) true
      | None => (acc, any, s)
      end
  | EmptyString => (acc, any, s)
  end.

(** The characters a number may continue with after its integer part. *)
Fixpoint read_float_tail (s : string) : string * string :=
  match s with
  | String c rest =>
      if (match digit_of c with Some _ => true | None => false end)
         || str_in (String c EmptyString) ["."; "e"; "E"; "+"; "-"]
      then let (t, r) := read_float_tail rest in (String c t, r)
      else (EmptyString, s)
  | EmptyString => (EmptyString, s)
  end.

(** The body of a string literal, after its opening quote. *)
Fixpoint read_string (s : string) : option (string * string) :=
  match s with
  | EmptyString => None
  | String c rest =>
      if (c =? "034")%char then Some (EmptyString, rest)
      else if (c =? "092")%char then
        match rest with
        | String e rest' =>
            if (e =? "u")%char then
              match rest' with
              | String h1 (String h2 (String h3 (String h4 rest''))) =>
                  match hex_of h1, hex_of h2, hex_of h3, hex_of h4, read_string rest'' with
                  | Some a, Some b, Some c', Some d, Some (t, r) =>
                      Some (utf8 (4096 * a + 256 * b + 16 * c' + d) ++ t, r)
                  | _, _, _, _, _ => None
                  end
              | _ => None
              end
            else
              let plain (x : ascii) :=
                match read_string rest' with
                | Some (t, r) => Some (String x t, r)
                | None => None
                end in
              if (e =? "034")%char then plain "034"%char
              else if (e =? "092")%char then plain "092"%char
              else if (e =? "/")%char then plain "/"%char
              else if (e =? "b")%char then plain "008"%char
              else if (e =? "f")%char then plain "012"%char
              else if (e =? "n")%char then plain "010"%char
              else if (e =? "r")%char then plain "013"%char
              else if (e =? "t")%char then plain "009"%char
              else None
        | EmptyString => None
        end
      else if (nat_of_ascii c <? 32)%nat then None
      else match read_string rest with
           | Some (t, r) => Some (String c t, r)
           | None => None
           end
  end.

Inductive Mode : Type :=
| MValue
| MElements (acc : list json)
| MMembers (acc : list (string * json)).

(** A recursive-descent reader; [MElements] and [MMembers] read the rest
    of an array or object whose opening bracket has been consumed. *)
Fixpoint read_json (fuel : nat) (mode : Mode) (s : string) : option (json * string) :=
  match fuel with
  | O => None
  | S fuel' =>
      match mode with
      | MValue =>
          match skip_ws s with
          | String c rest =>
              if (c =? "{")%char then
                match skip_ws rest with
                | String c' rest' =>
                    if (c' =? "}")%char then Some (JObject [], rest')
                    else read_json fuel' (MMembers []) (String c' rest')
                | EmptyString => None
                end
              else if (c =? "[")%char then
                match skip_ws rest with
                | String c' rest' =>
                    if (c' =? "]")%char then Some (JArray [], rest')
                    else read_json fuel' (MElements []) (String c' rest')
                | EmptyString => None
                end
              else if (c =? "034")%char then
                match read_string rest with
                | Some (t, r) => Some (JString t, r)
                | None => None
                end
              else if startswith (String c rest) "null" then
                Some (JNull, substring 4 (String.length rest) (String c rest))
              else if startswith (String c rest) "true" then
                Some (JBool true, substring 4 (String.length rest) (String c rest))
              else if startswith (String c rest) "false" then
                Some (JBool false, substring 5 (String.length rest) (String c rest))
              else
                let neg := (c =? "-")%char in
                let '(n, any, r) := read_digits (if neg then rest else String c rest) 0%Z false in
                if negb any then None
                else
                  let (t, r') := read_float_tail r in
                  match t with
                  | EmptyString => Some (JInt (if neg then - n else n)%Z, r)
                  | _ => Some (JFloat (substring 0 (String.length (String c rest) - String.length r')
                                         (String c rest)), r')
                  end
          | EmptyString => None
          end
      | MElements acc =>
          match read_json fuel' MValue s with
          | Some (v, r) =>
              match skip_ws r with
              | String c rest =>
                  if (c =? ",")%char then read_json fuel' (MElements (acc ++ [v])%list) rest
                  else if (c =? "]")%char then Some (JArray (acc ++ [v])%list, rest)
                  else None
              | EmptyString => None
              end
          | None => None
          end
      | MMembers acc =>
          match skip_ws s with
          | String q rest =>
              if (q =? "034")%char then
                match read_string rest with
                | Some (key, r) =>
                    match skip_ws r with
                    | String colon r1 =>
                        if (colon =? ":")%char then
                          match read_json fuel' MValue r1 with
                          | Some (v, r2) =>
                              match skip_ws r2 with
                              | String c r3 =>
                                  if (c =? ",")%char
                                  then read_json fuel' (MMembers (acc ++ [(key, v)])%list) r3
                                  else if (c =? "}")%char
                                  then Some (JObject (acc ++ [(key, v)])%list, r3)
                                  else None
                              | EmptyString => None
                              end
                          | None => None
                          end
                        else None
                    | EmptyString => None
                    end
                | None => None
                end
              else None
          | EmptyString => None
          end
      end
  end.

(** The text is one JSON value, surrounded by white space only. *)
Definition loads_json (s : string) : option json :=
  match read_json (2 * String.length s + 2) MValue s with
  | Some (v, r) => match skip_ws r with EmptyString => Some v | _ => None end
  | None => None
  end.

(** [d[key]] on a decoded object: the last member with that key. *)
Fixpoint lookup (key : string) (members : list (string * json)) : option json :=
  match members with
  | [] => None
  | (k, v) :: rest =>
      match lookup key rest with
      | Some v' => Some v'
      | None => if k =? key then Some v else None
      end
  end.

Definition obind {A B : Type} (o : option A) (k : A -> option B) : option B :=
  match o with
  | Some a => k a
  | None => None
  end.

Notation "'let?' x := o 'in' k" := (obind o (fun x => k))
  (at level 10, x pattern, o at level 100, k at level 200).

Definition as_string (j : json) : option string :=
  match j with JString s => Some s | _ => None end.
Definition as_int (j : json) : option Z :=
  match j with JInt n => Some n | _ => None end.
Definition as_bool (j : json) : option bool :=
  match j with JBool b => Some b | _ => None end.
Definition as_array (j : json) : option (list json) :=
  match j with JArray l => Some l | _ => None end.
Definition as_object (j : json) : option (list (string * json)) :=
  match j with JObject m => Some m | _ => None end.
(** [null] or a string *)
Definition as_opt_string (j : json) : option (option string) :=
  match j with JNull => Some None | JString s => Some (Some s) | _ => None end.

Fixpoint all_some {A B : Type} (f : A -> option B) (l : list A) : option (list B) :=
  match l with
  | [] => Some []
  | x :: rest =>
      let? y := f x in
      let? ys := all_some f rest in
      Some (y :: ys)
  end.

(** A span in the wire format of rustc. *)
Fixpoint span_of_json (fuel : nat) (j : json) : option Span :=
  match fuel with
  | O => None
  | S fuel' =>
      let? m := as_object j in
      let? fn := obind (lookup "file_name" m) as_string in
      let? ls := obind (lookup "line_start" m) as_int in
      let? le := obind (lookup "line_end" m) as_int in
      let? cs := obind (lookup "column_start" m) as_int in
      let? ce := obind (lookup "column_end" m) as_int in
      let? p := obind (lookup "is_primary" m) as_bool in
      let? lab := obind (lookup "label" m) as_opt_string in
      let? sug := obind (lookup "suggested_replacement" m) as_opt_string in
      let? e := lookup "expansion" m in
      let? exp :=
        match e with
        | JNull => Some None
        | JObject em =>
            let? sj := lookup "span" em in
            let? sp := span_of_json fuel' sj in
            Some (Some sp)
        | _ => None
        end in
      Some (mkSpan fn ls le cs ce p lab sug exp)
  end.

(** A diagnostic record in the wire format of rustc. *)
Fixpoint info_of_json (fuel : nat) (j : json) : option Info :=
  match fuel with
  | O => None
  | S fuel' =>
      let? m := as_object j in
      let? lvl := obind (lookup "level" m) as_string in
      let? msg := obind (lookup "message" m) as_string in
      let? c := lookup "code" m in
      let? cd :=
        match c with
        | JNull => Some None
        | JObject cm =>
            let? id := obind (lookup "code" cm) as_string in
            let? ex := obind (lookup "explanation" cm) as_opt_string in
            Some (Some (mkCode id ex))
        | _ => None
        end in
      let? sps := obind (obind (lookup "spans" m) as_array)
                    (all_some (span_of_json (S fuel'))) in
      let? chs := obind (obind (lookup "children" m) as_array)
                    (all_some (info_of_json fuel')) in
      let? rd := obind (lookup "rendered" m) as_opt_string in
      Some (mkInfo lvl msg cd sps chs rd)
  end.

(** The decoder of diagnostic lines: [json.loads] and the reading of the
    record. *)
Definition loads_info (line : string) : option Info :=
  let? j := loads_json line in
  info_of_json (String.length line) j.

(** JSON text written with single quotes in place of double quotes. *)
Definition json_text (s : string) : string := replace "'" (String "034" EmptyString) s.

(** * Properties *)

(** ** Target resolver: nearest-directory match *)

(** The invocations of the targets whose source file lives exactly in
    directory [d], in target order ([custom-build] targets have none). *)
Definition invocations_at (targets : list Target) (d : string) : list Invocation :=
  flat_map (fun t =>
    if dirname (src_path t) =? d then
      match _target_to_args t with
      | Ok (Some a) => [a]
      | _ => []
      end
    else []) targets.

Definition is_bin (x : Invocation) : bool := startswith (snd x) "--bin".
Definition is_lib (x : Invocation) : bool := startswith (snd x) "--lib".

(** Library takes precedence over binary: when both kinds are present
    the binary invocations are dropped, all others kept. *)
Definition lib_over_bin (l : list Invocation) : list Invocation :=
  if existsb is_bin l && existsb is_lib l then filter (fun x => negb (is_bin x)) l else l.

(** The [n]-th directory level above the file: its own directory is
    level 0. *)
Definition ancestor (file_name : string) (n : nat) : string :=
  Nat.iter n dirname (dirname file_name).

(** The first kind of the target is one [_target_to_args] knows. *)
Definition known_kind (t : Target) : bool :=
  match _target_to_args t with
  | Ok _ => true
  | Raise _ => false
  end.

Definition no_matches : Matches := mkMatches [] false false false.

Definition matches_of (l : list Invocation) : Matches :=
  match l with
  | [] => no_matches
  | _ :: _ => mkMatches l true (existsb is_lib l) (existsb is_bin l)
  end.

Lemma walk_up_body (targets : list Target) (d : string) (m : Matches) :
  walk_up targets d m =
  if found m then Ok m
  else match scan_level d targets m with
       | Raise e => Raise e
       | Ok m' => if dirname d =? d then Ok m' else walk_up targets (dirname d) m'
       end.
Proof.
  apply (walk_up_elim (fun targets d m r =>
    r = if found m then Ok m
        else match scan_level d targets m with
             | Raise e => Raise e
             | Ok m' => if dirname d =? d then Ok m' else walk_up targets (dirname d) m'
             end)); clear; cbv zeta.
  - intros targets d m Hf. now rewrite Hf.
  - intros targets d m e Hs Hf. now rewrite Hf, Hs.
  - intros targets d e m m' _ Hs Hf. rewrite Hf, Hs.
    now rewrite (proj2 (String.eqb_eq _ _) e).
  - intros targets d Hne m m' _ _ Hs Hf. rewrite Hf, Hs.
    now rewrite (proj2 (String.eqb_neq _ _) Hne).
Qed.

Lemma scan_level_spec (d : string) (targets : list Target) (m : Matches) :
  Forall (fun t => known_kind t = true) targets ->
  scan_level d targets m =
  Ok (let l := invocations_at targets d in
      mkMatches (m_result m ++ l)
                (found m || negb (match l with [] => true | _ => false end))
                (found_lib m || existsb is_lib l)
                (found_bin m || existsb is_bin l)).
Proof.
  intros Hk. revert m. induction Hk as [|t ts Ht _ IH]; intros m; simpl.
  - rewrite app_nil_r, !orb_false_r. now destruct m.
  - unfold known_kind in Ht.
    destruct (dirname (src_path t) =? d); [|apply IH].
    destruct (_target_to_args t) as [[a|]|e]; try discriminate; simpl; [|apply IH].
    rewrite IH. simpl. rewrite <- app_assoc. simpl.
    unfold is_lib, is_bin.
    destruct (startswith (snd a) "--lib"), (startswith (snd a) "--bin"),
      (found m), (found_lib m), (found_bin m); simpl; rewrite ?orb_true_r; reflexivity.
Qed.

Lemma scan_level_none (d : string) (targets : list Target) :
  Forall (fun t => known_kind t = true) targets ->
  scan_level d targets no_matches = Ok (matches_of (invocations_at targets d)).
Proof.
  intros Hk. rewrite scan_level_spec by assumption. simpl.
  now destruct (invocations_at targets d).
Qed.

Lemma iter_dirname_fixed (d : string) (n : nat) :
  dirname d = d -> Nat.iter n dirname d = d.
Proof. intros E. induction n as [|n IH]; simpl; [reflexivity|]. now rewrite IH. Qed.

Lemma walk_up_spec (targets : list Target) :
  Forall (fun t => known_kind t = true) targets ->
  forall (k : nat) (d : string), String.length d < k ->
  ((forall n, invocations_at targets (Nat.iter n dirname d) = []) /\
   walk_up targets d no_matches = Ok no_matches) \/
  (exists n,
     (forall i, i < n -> invocations_at targets (Nat.iter i dirname d) = []) /\
     invocations_at targets (Nat.iter n dirname d) <> [] /\
     walk_up targets d no_matches = Ok (matches_of (invocations_at targets (Nat.iter n dirname d)))).
Proof.
  intros Hk. induction k as [|k IH]; intros d Hd; [lia|].
  rewrite walk_up_body. simpl found. cbv iota.
  rewrite scan_level_none by assumption.
  destruct (invocations_at targets d) as [|a l] eqn:El.
  - simpl matches_of. destruct (dirname d =? d) eqn:Ed.
    + left. split; [|reflexivity]. intros n.
      apply String.eqb_eq in Ed. now rewrite iter_dirname_fixed.
    + apply String.eqb_neq in Ed. pose proof (dirname_shrinks d Ed) as Hlt.
      destruct (IH (dirname d)) as [[Hall Hw]|[n [Hlo [Hn Hw]]]]; [lia| |].
      * left. split; [|exact Hw]. intros [|n]; [exact El|].
        rewrite Nat.iter_succ_r. apply Hall.
      * right. exists (S n). rewrite Nat.iter_succ_r. repeat split; try assumption.
        intros [|i] Hi; [exact El|]. rewrite Nat.iter_succ_r. apply Hlo. lia.
  - right. exists 0. simpl Nat.iter. rewrite El. repeat split.
    + intros i Hi. lia.
    + discriminate.
    + simpl matches_of.
      destruct (dirname d =? d); [reflexivity|].
      rewrite walk_up_body. reflexivity.
Qed.

(** C3, as the code has it: for targets of known kinds the
    nearest-directory resolver returns; it returns nothing when no
    directory level above the file holds a target, and otherwise the
    invocations of the first (deepest) level that holds any, and of that
    level only; when that level holds both a library and a binary
    invocation the binary ones are dropped and every other invocation of
    the level (library, test, example, bench) is returned, in target
    order. *)
Theorem C3_longest_matches_first_level (targets : list Target) (file_name : string) :
  Forall (fun t => known_kind t = true) targets ->
  exists r, _targets_longest_matches targets file_name = Ok r /\
    ((r = [] /\ forall n, invocations_at targets (ancestor file_name n) = []) \/
     (exists n,
        (forall i, i < n -> invocations_at targets (ancestor file_name i) = []) /\
        invocations_at targets (ancestor file_name n) <> [] /\
        r = lib_over_bin (invocations_at targets (ancestor file_name n)))).
Proof.
  intros Hk. unfold _targets_longest_matches, ancestor.
  destruct (walk_up_spec targets Hk (S (String.length (dirname file_name)))
              (dirname file_name) (Nat.lt_succ_diag_r _))
    as [[Hall Hw]|[n [Hlo [Hn Hw]]]]; fold no_matches; rewrite Hw; simpl bind.
  - exists []. split; [reflexivity|]. left. now split.
  - destruct (invocations_at targets (Nat.iter n dirname (dirname file_name)))
      as [|a l] eqn:El; [congruence|].
    exists (lib_over_bin (a :: l)). split.
    + unfold lib_over_bin, matches_of. cbn [found_bin found_lib m_result].
      now destruct (existsb is_bin (a :: l) && existsb is_lib (a :: l)).
    + right. exists n. rewrite El. repeat split; try assumption; discriminate.
Qed.

Lemma C3_longest_matches_first_level_witness :
  let targets := [mkTarget ["bin"] "main" "/p/src/main.rs";
                  mkTarget ["lib"] "helper" "/p/src/helper.rs";
                  mkTarget ["lib"] "outer" "/p/lib.rs"] in
  let file_name := "/p/src/other.rs" in
  Forall (fun t => known_kind t = true) targets /\
  exists r, _targets_longest_matches targets file_name = Ok r /\
    ((r = [] /\ forall n, invocations_at targets (ancestor file_name n) = []) \/
     (exists n,
        (forall i, i < n -> invocations_at targets (ancestor file_name i) = []) /\
        invocations_at targets (ancestor file_name n) <> [] /\
        r = lib_over_bin (invocations_at targets (ancestor file_name n)))).
Proof.
  intros targets file_name.
  assert (Forall (fun t => known_kind t = true) targets) as Hk by (repeat constructor).
  split; [exact Hk|].
  exact (C3_longest_matches_first_level targets file_name Hk).
Defined.

(** C3, as stated, fails: with a library, a binary and an example in the
    directory of the file, both a library and a binary invocation are
    found at that level, and the result is not made of library
    invocations only: the example invocation is returned too. *)
Lemma C3_counterexample :
  let targets := [mkTarget ["lib"] "mylib" "/p/src/lib.rs";
                  mkTarget ["bin"] "main" "/p/src/main.rs";
                  mkTarget ["example"] "demo" "/p/src/demo.rs"] in
  existsb is_lib (invocations_at targets (ancestor "/p/src/other.rs" 0)) = true /\
  existsb is_bin (invocations_at targets (ancestor "/p/src/other.rs" 0)) = true /\
  _targets_longest_matches targets "/p/src/other.rs"
  = Ok [("/p/src/lib.rs", "--lib"); ("/p/src/demo.rs", "--example demo")] /\
  forallb is_lib [("/p/src/lib.rs", "--lib"); ("/p/src/demo.rs", "--example demo")] = false.
Proof. repeat split. Qed.

(** The examples of the specification. *)
Example dirname_examples :
  map dirname ["/p/src/other.rs"; "/p/src"; "/p"; "/"; "a.rs"; EmptyString; "//x"; "/p/src/"]
  = ["/p/src"; "/p"; "/"; "/"; EmptyString; EmptyString; "//"; "/p/src"].
Proof. reflexivity. Qed.

Example exact_match_library :
  _targets_exact_match [mkTarget ["lib"] "mylib" "/p/src/lib.rs"] "/p/src/lib.rs"
  = Ok (Some [("/p/src/lib.rs", "--lib")]).
Proof. reflexivity. Qed.

Example longest_match_lib_over_bin :
  _targets_longest_matches
    [mkTarget ["bin"] "main" "/p/src/main.rs"; mkTarget ["lib"] "helper" "/p/src/helper.rs"]
    "/p/src/other.rs" = Ok [("/p/src/helper.rs", "--lib")].
Proof. reflexivity. Qed.

Example unknown_kind_raises :
  _targets_longest_matches [mkTarget ["cdylib"] "c" "/p/src/lib.rs"] "/p/src/lib.rs"
  = Raise (ValueError "cdylib").
Proof. reflexivity. Qed.

(** ** Target resolver: manual configuration *)

Lemma prefix_append (p s : string) : String.prefix p (p ++ s) = true.
Proof.
  induction p as [|c p IH]; simpl; [now destruct s|].
  destruct (ascii_dec c c) as [_|N]; [exact IH|now elim N].
Qed.

(** C10: a project of the manual configuration is matched by comparing
    the prefix of the file name with [join root "src"], a string with no
    trailing separator.  Every file name that merely begins with that
    string is taken to lie inside the source root: the project is not
    skipped, its targets are consulted, and when none of them names the
    file a non-empty [_default] entry is returned for it. *)
Theorem C10_manual_config_prefix
  (settings : Settings) (project : Project) (rest : list Project)
  (suffix default : string) :
  projects settings = Some (project :: rest) ->
  let src_root := join (get (root project) EmptyString) "src" in
  let file_name := src_root ++ suffix in
  manual_target src_root file_name (get (targets project) []) = None ->
  dict_get (get (targets project) []) "_default" EmptyString = default ->
  default <> EmptyString ->
  startswith file_name src_root = true /\
  endswith_sep src_root = false /\
  _targets_manual_config settings file_name = Some [(EmptyString, default)].
Proof.
  intros Hp src_root file_name Hnone Hdef Hne.
  assert (startswith file_name src_root = true) as Hs by apply prefix_append.
  split; [exact Hs|]. split.
  - unfold src_root, join. simpl startswith.
    assert (forall a, endswith_sep (a ++ "/src") = false) as Hsl.
    { induction a as [|c a IH]; [reflexivity|].
      simpl. rewrite IH. now destruct a. }
    destruct ((get (root project) EmptyString =? EmptyString) || endswith_sep (get (root project) EmptyString)) eqn:E.
    + assert (forall a, endswith_sep (a ++ "src") = false) as Hs2.
      { induction a as [|c a IH]; [reflexivity|].
        simpl. rewrite IH. now destruct a. }
      apply Hs2.
    + apply Hsl.
  - unfold _targets_manual_config. rewrite Hp. simpl get. simpl manual_projects.
    fold src_root. fold file_name. rewrite Hs. simpl negb. cbv iota.
    rewrite Hnone, Hdef.
    destruct (default =? EmptyString) eqn:E; [apply String.eqb_eq in E; contradiction|reflexivity].
Qed.

(** The file [/p/srcextra/f.rs] lies in a sibling of the source root
    [/p/src] of the project, and gets the project's [_default] target. *)
Lemma C10_manual_config_prefix_witness :
  let project := mkProject (Some "/p") (Some [("main.rs", "--bin main"); ("_default", "--lib")]) in
  let settings := mkSettings None None None None None (Some [project]) in
  join (get (root project) EmptyString) "src" ++ "extra/f.rs" = "/p/srcextra/f.rs" /\
  dirname "/p/srcextra/f.rs" = "/p/srcextra" /\
  startswith "/p/srcextra/f.rs" "/p/src" = true /\
  endswith_sep "/p/src" = false /\
  _targets_manual_config settings "/p/srcextra/f.rs" = Some [(EmptyString, "--lib")].
Proof.
  intros project settings.
  split; [reflexivity|]. split; [reflexivity|].
  apply (C10_manual_config_prefix settings project [] "extra/f.rs" "--lib");
    [reflexivity|reflexivity|reflexivity|discriminate].
Defined.

(** ** A concrete editor for the examples

    Views hold lines of 80 columns; the open files are given with their
    view ids; paths are their own real paths.  The examples never lead
    the formatter to a replacement field other than the four keywords of
    the template, so [format_field] is not consulted. *)

Fixpoint assoc_view (open : list (string * View)) (path : string) : option View :=
  match open with
  | [] => None
  | (p, v) :: rest => if p =? path then Some v else assoc_view rest path
  end.

Definition grid_editor (open : list (string * View)) (cargo : nat -> string -> string * Z)
  : Editor :=
  mkEditor (fun path => path) (assoc_view open)
           (fun _ row col => (row * 80 + col)%Z)
           (fun _ point => (point / 80, point mod 80)%Z)
           (fun _ => 800%Z)
           cargo
           (fun _ _ _ => Raise TypeError).

Definition silent_cargo : nat -> string -> string * Z := fun _ _ => (EmptyString, 0%Z).

Definition default_settings : Settings := mkSettings None None None None None None.

Definition hide_warnings_settings : Settings :=
  mkSettings None None (Some true) None None None.

(** ** Span resolver *)

(** [expansion_chain s n t]: [n] hops along [expansion], each from a
    span that is marked as macro expansion, lead from [s] to [t]. *)
Inductive expansion_chain : Span -> nat -> Span -> Prop :=
| chain_end (s : Span) : expansion_chain s 0 s
| chain_hop (s e t : Span) (n : nat) :
    contains "macros>" (file_name s) = true ->
    expansion s = Some e ->
    expansion_chain e n t ->
    expansion_chain s (S n) t.

(** Induction along [expansion]. *)
Lemma Span_expansion_ind (P : Span -> Prop) :
  (forall s, (forall e, expansion s = Some e -> P e) -> P s) ->
  forall s, P s.
Proof.
  intros H. fix IH 1. intros s. apply H.
  destruct s as [fn ls le cs ce p lab sug [e'|]]; simpl; intros e He.
  - injection He as <-. apply IH.
  - discriminate.
Qed.

Lemma find_span_r_unfold (s : Span) :
  find_span_r s =
  if contains "macros>" (file_name s) then
    match expansion s with
    | Some e => find_span_r e
    | None => None
    end
  else Some s.
Proof. now destruct s. Qed.

Lemma find_span_r_hops_unfold (s : Span) :
  find_span_r_hops s =
  if contains "macros>" (file_name s) then
    match expansion s with
    | Some e => let (n, r) := find_span_r_hops e in (S n, r)
    | None => (0, None)
    end
  else (0, Some s).
Proof. now destruct s. Qed.

Lemma find_span_r_hops_result (s : Span) : snd (find_span_r_hops s) = find_span_r s.
Proof.
  induction s as [s IH] using Span_expansion_ind.
  rewrite find_span_r_hops_unfold, find_span_r_unfold.
  destruct (contains "macros>" (file_name s)); [|reflexivity].
  destruct (expansion s) as [e|]; [|reflexivity].
  specialize (IH e eq_refl). now destruct (find_span_r_hops e).
Qed.

(** A resolved span is never marked as macro expansion. *)
Lemma find_span_r_real (s t : Span) :
  find_span_r s = Some t -> contains "macros>" (file_name t) = false.
Proof.
  induction s as [s IH] using Span_expansion_ind.
  rewrite find_span_r_unfold.
  destruct (contains "macros>" (file_name s)) eqn:E.
  - destruct (expansion s) as [e|]; [apply (IH e eq_refl)|discriminate].
  - intros [= <-]. exact E.
Qed.

Lemma chain_resolves (s t : Span) (n : nat) :
  expansion_chain s n t ->
  contains "macros>" (file_name t) = false ->
  find_span_r_hops s = (n, Some t).
Proof.
  induction 1 as [s|s e t n Hm He _ IH]; intros Ht; rewrite find_span_r_hops_unfold.
  - now rewrite Ht.
  - rewrite Hm, He, (IH Ht). reflexivity.
Qed.

Lemma chain_dead_end (s t : Span) (n : nat) :
  expansion_chain s n t ->
  contains "macros>" (file_name t) = true ->
  expansion t = None ->
  find_span_r_hops s = (n, None).
Proof.
  induction 1 as [s|s e t n Hm He _ IH]; intros Ht Hx; rewrite find_span_r_hops_unfold.
  - now rewrite Ht, Hx.
  - rewrite Hm, He, (IH Ht Hx). reflexivity.
Qed.

Lemma resolve_span_find (s : Span) : resolve_span s = find_span_r s.
Proof.
  unfold resolve_span. rewrite (find_span_r_unfold s).
  now destruct (contains "macros>" (file_name s)).
Qed.

(** C4, as the code has it: along an expansion chain of [n] hops that
    ends at a span with a real file, resolution makes exactly [n] hops
    and returns that span.  When the chain ends at a span that is still
    marked as macro expansion and has no expansion of its own,
    resolution makes [n] hops and is unresolved; the span loop then skips
    the span without any effect, nothing is printed, and the loop goes
    on with the sibling spans. *)
Theorem C4_expansion_chain_resolution (s t : Span) (n : nat) :
  expansion_chain s n t ->
  (contains "macros>" (file_name t) = false ->
   find_span_r_hops s = (n, Some t) /\ find_span_r s = Some t /\
   resolve_span s = Some t) /\
  (contains "macros>" (file_name t) = true -> expansion t = None ->
   find_span_r_hops s = (n, None) /\ find_span_r s = None /\
   resolve_span s = None /\
   forall ed settings view_of_interest info rest st,
     process_span ed settings view_of_interest info s st = Done st /\
     process_spans ed settings view_of_interest info (s :: rest) st
     = process_spans ed settings view_of_interest info rest st).
Proof.
  intros Hc. split.
  - intros Ht. pose proof (chain_resolves s t n Hc Ht) as Hh.
    pose proof (find_span_r_hops_result s) as Hr. rewrite Hh in Hr. simpl in Hr.
    rewrite resolve_span_find. now rewrite <- Hr.
  - intros Ht Hx. pose proof (chain_dead_end s t n Hc Ht Hx) as Hh.
    pose proof (find_span_r_hops_result s) as Hr. rewrite Hh in Hr. simpl in Hr.
    assert (resolve_span s = None) as Hn by (rewrite resolve_span_find; now rewrite <- Hr).
    repeat split; try now rewrite <- ?Hr.
    + unfold process_span. now rewrite Hn.
    + simpl. unfold process_span. now rewrite Hn.
Qed.

Definition macro_dead_end : Span :=
  mkSpan "<std macros>" 1 1 1 10 false (Some "inner") None None.

Definition macro_inner : Span :=
  mkSpan "<std macros>" 5 5 1 10 false None None
         (Some (mkSpan "/p/src/main.rs" 7 7 5 20 true (Some "here") None None)).

Definition macro_outer : Span :=
  mkSpan "<std macros>" 2 3 1 10 true (Some "in this macro") None (Some macro_inner).

Lemma C4_expansion_chain_resolution_witness :
  expansion_chain macro_outer 2 (mkSpan "/p/src/main.rs" 7 7 5 20 true (Some "here") None None) /\
  find_span_r_hops macro_outer
  = (2, Some (mkSpan "/p/src/main.rs" 7 7 5 20 true (Some "here") None None)) /\
  expansion_chain macro_dead_end 0 macro_dead_end /\
  find_span_r_hops macro_dead_end = (0, None).
Proof.
  assert (expansion_chain macro_outer 2
            (mkSpan "/p/src/main.rs" 7 7 5 20 true (Some "here") None None)) as Hc.
  { apply chain_hop with (e := macro_inner); [reflexivity|reflexivity|].
    eapply chain_hop; [reflexivity|reflexivity|apply chain_end]. }
  split; [exact Hc|]. split.
  - exact (proj1 (proj1 (C4_expansion_chain_resolution _ _ _ Hc) eq_refl)).
  - split; [apply chain_end|].
    exact (proj1 (proj2 (C4_expansion_chain_resolution _ _ _ (chain_end macro_dead_end))
                   eq_refl eq_refl)).
Defined.

(** C4, as stated, fails: a span marked as macro expansion whose chain
    ends without a real file is dropped, but no note is logged: the
    console is left as it was. *)
Lemma C4_counterexample :
  let ed := grid_editor [("/p/src/main.rs", 1%Z)] silent_cargo in
  let info := mkInfo "error" "mismatched types" None [macro_dead_end] [] None in
  resolve_span macro_dead_end = None /\
  process_span ed default_settings 1%Z info macro_dead_end initial_run
  = Done initial_run /\
  add_error_phantoms ed default_settings 1%Z "/p/src/main.rs" info initial_run
  = Done initial_run /\
  console initial_run = [].
Proof. repeat split. Qed.

(** C6: a span whose file is a real path resolves to itself, without
    any hop along [expansion], and the span loop anchors the span as it
    was given. *)
Theorem C6_real_path_identity (s : Span) :
  contains "macros>" (file_name s) = false ->
  resolve_span s = Some s /\
  find_span_r s = Some s /\
  find_span_r_hops s = (0, Some s) /\
  forall ed settings view_of_interest info st,
    process_span ed settings view_of_interest info s st
    = anchor_span ed settings view_of_interest info (is_primary s) s st.
Proof.
  intros H.
  assert (resolve_span s = Some s) as Hr by (unfold resolve_span; now rewrite H).
  repeat split.
  - exact Hr.
  - rewrite find_span_r_unfold. now rewrite H.
  - rewrite find_span_r_hops_unfold. now rewrite H.
  - intros. unfold process_span. now rewrite Hr.
Qed.

Lemma C6_real_path_identity_witness :
  let s := mkSpan "/p/src/main.rs" 5 5 1 10 true (Some "expected u32") None None in
  contains "macros>" (file_name s) = false /\
  resolve_span s = Some s /\ find_span_r_hops s = (0, Some s).
Proof.
  intros s. split; [reflexivity|].
  pose proof (C6_real_path_identity s eq_refl) as [H1 [_ [H3 _]]].
  split; assumption.
Defined.

(** ** Annotation of one span *)

(** Every region held by [regions_by_view]. *)
Definition recorded_regions (st : Run) : list Region :=
  flat_map (fun d => flat_map snd (snd d)) (regions_by_view st).

Lemma in_setdefault_append (scope : string) (r x : Region) (d : list (string * list Region)) :
  In x (flat_map snd (setdefault_append scope r d)) <-> x = r \/ In x (flat_map snd d).
Proof.
  induction d as [|[k rs] d IH]; simpl.
  - intuition.
  - destruct (k =? scope); simpl; rewrite !in_app_iff; [simpl|rewrite IH]; intuition.
Qed.

Lemma in_add_region (v : View) (scope : string) (r x : Region)
  (d : list (View * list (string * list Region))) :
  In x (flat_map (fun d => flat_map snd (snd d)) (add_region v scope r d)) <->
  x = r \/ In x (flat_map (fun d => flat_map snd (snd d)) d).
Proof.
  induction d as [|[k regions] d IH]; simpl.
  - intuition.
  - destruct (k =? v)%Z; simpl; rewrite !in_app_iff;
      [rewrite in_setdefault_append|rewrite IH]; intuition.
Qed.

(** ** The text of a phantom *)

(** The colour holds no brace. *)
Definition brace_free (s : string) : bool := negb (occurs "{" s) && negb (occurs "}" s).

(** The text that [msg_template.format] returns for a colour without
    braces: the style sheet with the colour, and the message line. *)
Definition html_head : string :=
  newline ++
  "            <body id=" ++ dq ++ "rust-message" ++ dq ++ ">" ++ newline ++
  "                <style>" ++ newline ++
  "                    span {" ++ newline ++
  "                        font-family: monospace;" ++ newline ++
  "                    }" ++ newline ++
  "                    .rust-error {" ++ newline ++
  "                        color: ".

Definition html_tail (cls level msg extra : string) : string :=
  ";" ++ newline ++
  "                    }" ++ newline ++
  "                    .rust-additional {" ++ newline ++
  "                        color: var(--yellowish);" ++ newline ++
  "                    }" ++ newline ++
  "                    a {" ++ newline ++
  "                        text-decoration: inherit;" ++ newline ++
  "                        padding: 0.35rem 0.5rem 0.45rem 0.5rem;" ++ newline ++
  "                        position: relative;" ++ newline ++
  "                        font-weight: bold;" ++ newline ++
  "                    }" ++ newline ++
  "                </style>" ++ newline ++
  "                <span class=" ++ dq ++ cls ++ dq ++ ">" ++ level ++ ": " ++ msg ++ " " ++ extra
    ++ "<a href=" ++ dq ++ "hide" ++ dq ++ ">" ++ String "195" (String "151" "</a></span>")
    ++ newline ++
  "            </body>".

Definition message_html (base_color cls level msg extra : string) : string :=
  html_head ++ base_color ++ html_tail cls level msg extra.

Section FormatFacts.

Variable interp : string -> result string.
Variable kwargs : list (string * string).

Lemma format_from_literal (a rest : string) :
  brace_free a = true ->
  format_from interp kwargs None (a ++ rest)
  = r <- format_from interp kwargs None rest ;; Ok (a ++ r).
Proof.
  unfold brace_free. induction a as [|c a IH]; intros H.
  - simpl. now destruct (format_from interp kwargs None rest).
  - simpl in H. rewrite !negb_orb in H.
    apply andb_true_iff in H as [H1 H2].
    apply andb_true_iff in H1 as [Hl Ha1]. apply andb_true_iff in H2 as [Hr Ha2].
    apply negb_true_iff in Hl, Hr.
    cbn [append format_from]. rewrite Hl, Hr.
    rewrite IH by (now rewrite Ha1, Ha2).
    now destruct (format_from interp kwargs None rest).
Qed.

Lemma format_template_head (rest : string) :
  format_from interp kwargs None (template_head ++ rest)
  = r <- format_from interp kwargs None rest ;;
    Ok (html_head ++ r).
Proof.
  unfold template_head, html_head. cbn.
  now destruct (format_from interp kwargs None rest).
Qed.

End FormatFacts.

Lemma format_template_tail (interp : string -> result string)
  (cls level msg extra : string) :
  format_from interp [("cls", cls); ("level", level); ("msg", msg); ("extra", extra)] None
    template_tail
  = Ok (html_tail cls level msg extra).
Proof. unfold template_tail, html_tail. cbn. reflexivity. Qed.

(** A colour without braces goes through the formatter untouched, and
    the four keywords of the template are replaced by their values. *)
Lemma format_plain (interp : string -> result string)
  (base_color cls level msg extra : string) :
  brace_free base_color = true ->
  format interp [("cls", cls); ("level", level); ("msg", msg); ("extra", extra)]
    (msg_template base_color)
  = Ok (message_html base_color cls level msg extra).
Proof.
  intros H. unfold format, msg_template, message_html.
  rewrite format_template_head, (format_from_literal _ _ _ _ H), format_template_tail.
  reflexivity.
Qed.

(** From here on the template is taken through [format_plain] and
    evaluated on concrete inputs only. *)
Global Opaque msg_template.

Section SpanAnnotation.

Variable ed : Editor.
Variable settings : Settings.
Variable view_of_interest : View.

(** Where [add_message] puts the phantom for a region: under its last
    line when it spans several. *)
Definition phantom_region (view : View) (region : Region) : Region :=
  let start := rowcol ed view (region_begin region) in
  let end_ := rowcol ed view (region_end region) in
  if negb (fst start =? fst end_)%Z
  then mkRegion (text_point ed view (fst end_) 0) (region_end region)
  else region.

(** The state once [add_message] has set the flag and recorded the
    highlight region, and the state once it has added the phantom. *)
Definition recorded (info : Info) (view : View) (region : Region) (st : Run) : Run :=
  mkRun (if (view =? view_of_interest)%Z then true else this_view_found st)
        (add_region view (if level info =? "error" then "invalid" else "info") region
           (regions_by_view st))
        (parent_info st) (phantoms st) (console st) (spawned st).

Definition with_phantom (p : Phantom) (st : Run) : Run :=
  mkRun (this_view_found st) (regions_by_view st) (parent_info st)
        (phantoms st ++ [p])%list (console st) (spawned st).

(** The phantom of a message of [info], for a colour without braces. *)
Definition message_phantom (info : Info) (view : View) (region : Region)
  (message extra : string) : Phantom :=
  mkPhantom view (phantom_region view region)
    (message_html (base_color settings info)
       (if level info =? "error" then "rust-error" else "rust-additional")
       (level info) (render message) extra).

(** The link [add_primary_message] appends for a code with an
    explanation. *)
Definition primary_extra (info : Info) : string :=
  match code info with
  | Some c => if truthy (explanation c) then error_index_link (code_id c) else EmptyString
  | None => EmptyString
  end.

(** The phantom of the message of [info] itself. *)
Definition primary_phantom (info : Info) (view : View) (region : Region) : Phantom :=
  message_phantom info view region (message info) (primary_extra info).

(** [add_message] either completes, with the region recorded and one
    phantom added for it, or raises with the region recorded and no
    phantom. *)
Lemma add_message_cases (info : Info) (view : View) (region : Region)
  (message : option string) (extra : string) (st : Run) :
  (exists content,
     add_message ed settings view_of_interest info view region message extra st
     = Done (with_phantom (mkPhantom view (phantom_region view region) content)
               (recorded info view region st))) \/
  (exists e,
     add_message ed settings view_of_interest info view region message extra st
     = Raised e (recorded info view region st)).
Proof.
  unfold add_message. cbv zeta. destruct message as [m|]; [|right; now eexists].
  destruct (format _ _ _) as [content|e]; [left|right]; now eexists.
Qed.

Lemma add_message_plain (info : Info) (view : View) (region : Region)
  (message extra : string) (st : Run) :
  brace_free (base_color settings info) = true ->
  add_message ed settings view_of_interest info view region (Some message) extra st
  = Done (with_phantom (message_phantom info view region message extra)
            (recorded info view region st)).
Proof.
  intros H. unfold add_message. cbv zeta. now rewrite format_plain.
Qed.

Lemma add_message_none (info : Info) (view : View) (region : Region)
  (extra : string) (st : Run) :
  add_message ed settings view_of_interest info view region None extra st
  = Raised AttributeError (recorded info view region st).
Proof. reflexivity. Qed.

Lemma add_message_effect (info : Info) (view : View) (region : Region)
  (message : option string) (extra : string) (st : Run) :
  let st' := final (add_message ed settings view_of_interest info view region message extra st) in
  parent_info st' = parent_info st /\
  console st' = console st /\
  spawned st' = spawned st /\
  forall x, In x (recorded_regions st') <-> x = region \/ In x (recorded_regions st).
Proof.
  destruct (add_message_cases info view region message extra st) as [[c ->]|[e ->]];
    simpl; repeat split; try apply in_add_region.
Qed.

Lemma add_primary_message_effect (info : Info) (view : View) (region : Region)
  (message : string) (st : Run) :
  let st' := final (add_primary_message ed settings view_of_interest info view region
                      message st) in
  parent_info st' = Some (view, region) /\
  console st' = console st /\
  spawned st' = spawned st /\
  forall x, In x (recorded_regions st') <-> x = region \/ In x (recorded_regions st).
Proof.
  unfold add_primary_message.
  match goal with |- context [add_message _ _ _ _ _ _ ?m ?e ?s] =>
    pose proof (add_message_effect info view region m e s) as He
  end.
  exact He.
Qed.

Lemma add_primary_message_plain (info : Info) (view : View) (region : Region) (st : Run) :
  brace_free (base_color settings info) = true ->
  add_primary_message ed settings view_of_interest info view region (message info) st
  = Done (with_phantom (primary_phantom info view region)
            (recorded info view region
               (mkRun (this_view_found st) (regions_by_view st) (Some (view, region))
                  (phantoms st) (console st) (spawned st)))).
Proof.
  intros H. unfold add_primary_message. now rewrite add_message_plain.
Qed.

(** The steps of the loop body for a span of an open file print
    nothing, unless the logic error is raised. *)
Lemma anchor_span_console (info : Info) (is_primary : bool) (span : Span)
  (view : View) (st : Run) :
  find_open_file ed (realpath ed (file_name span)) = Some view ->
  truthy (label span) = true \/ is_primary = true ->
  console (final (anchor_span ed settings view_of_interest info is_primary span st))
  = console st.
Proof.
  intros Hv Hl. unfold anchor_span. rewrite Hv.
  assert (forall (o : Outcome) (k : Run -> Outcome),
            console (final o) = console st ->
            (forall st1, console st1 = console st -> console (final (k st1)) = console st) ->
            console (final (and_then o k)) = console st) as Hthen.
  { intros [st1|e st1] k Ho Hk; simpl in *; auto. }
  apply Hthen.
  - destruct (truthy (label span)).
    + exact (proj1 (proj2 (add_message_effect info view (span_region ed view span)
                             (label span) EmptyString st))).
    + destruct Hl as [Hl| ->]; [discriminate|reflexivity].
  - intros st1 H1. apply Hthen.
    + destruct is_primary; [|exact H1].
      pose proof (proj1 (proj2 (add_primary_message_effect info view
                                  (span_region ed view span) (message info) st1))) as Hc.
      cbv zeta in Hc. now rewrite Hc.
    + intros st2 H2. destruct (truthy (suggested_replacement span)); [|exact H2].
      pose proof (proj1 (proj2 (add_message_effect info view (span_region ed view span)
                                  (rendered info) EmptyString st2))) as Hc.
      cbv zeta in Hc. now rewrite Hc.
Qed.

(** C1, as the code has it: for a span that resolves to a span of an
    open file, the logic error [ValueError 'Unexpected span with no
    label'] is raised, after the record has been printed and before
    anything else is done, if and only if the resolved span has no label
    and the span is not primary, whether or not it carries a suggested
    replacement.  When the colour configured for the level of the record
    holds no brace, no other [ValueError] leaves the loop body, and a
    span with a label, or primary, is processed to the end when its
    suggestion, if any, comes with the rendered text of the record. *)
Theorem C1_logic_error_iff (info : Info) (span0 span : Span) (view : View) (st : Run) :
  resolve_span span0 = Some span ->
  find_open_file ed (realpath ed (file_name span)) = Some view ->
  let o := process_span ed settings view_of_interest info span0 st in
  (o = Raised (ValueError "Unexpected span with no label") (print (PPrint info) st) <->
   truthy (label span) = false /\ is_primary span0 = false) /\
  (brace_free (base_color settings info) = true ->
   ((exists m st', o = Raised (ValueError m) st') <->
    truthy (label span) = false /\ is_primary span0 = false) /\
   (truthy (label span) = true \/ is_primary span0 = true ->
    truthy (suggested_replacement span) = false \/ rendered info <> None ->
    exists st', o = Done st')).
Proof.
  intros Hr Hv o.
  assert (truthy (label span) = false -> is_primary span0 = false ->
          o = Raised (ValueError "Unexpected span with no label") (print (PPrint info) st))
    as Hraise.
  { intros Hl Hp. subst o. unfold process_span, anchor_span. now rewrite Hr, Hv, Hl, Hp. }
  assert (truthy (label span) = true \/ is_primary span0 = true ->
          console (final o) = console st) as Hquiet.
  { intros H. subst o. unfold process_span. rewrite Hr.
    exact (anchor_span_console info (is_primary span0) span view st Hv H). }
  split.
  - split; [|intros [Hl Hp]; now apply Hraise].
    intros Ho.
    destruct (truthy (label span)) eqn:El, (is_primary span0) eqn:Ep; try (now split);
      exfalso; (assert (console (final o) = console st) as Hc by (apply Hquiet; auto));
      rewrite Ho in Hc; simpl in Hc;
      apply (f_equal (@List.length Printed)) in Hc; rewrite length_app in Hc; simpl in Hc; lia.
  - intros Hb.
    assert (truthy (label span) = true \/ is_primary span0 = true ->
            exists st2,
              (forall k, and_then
                 (and_then
                    (if truthy (label span)
                     then add_message ed settings view_of_interest info view
                            (span_region ed view span) (label span) EmptyString st
                     else if negb (is_primary span0)
                          then Raised (ValueError "Unexpected span with no label")
                                 (print (PPrint info) st)
                          else Done st)
                    (fun st1 =>
                       if is_primary span0
                       then add_primary_message ed settings view_of_interest info view
                              (span_region ed view span) (message info) st1
                       else Done st1)) k = k st2)) as Hsteps.
    { intros H.
      destruct (truthy (label span)) eqn:El.
      - destruct (label span) as [lab|]; [|discriminate].
        rewrite add_message_plain by exact Hb. cbn [and_then].
        destruct (is_primary span0).
        + rewrite add_primary_message_plain by exact Hb. eexists. intros k. reflexivity.
        + eexists. intros k. reflexivity.
      - destruct H as [H|H]; [discriminate|]. rewrite H. cbn [negb and_then].
        rewrite add_primary_message_plain by exact Hb. eexists. intros k. reflexivity. }
    assert (o = and_then
                  (and_then
                     (if truthy (label span)
                      then add_message ed settings view_of_interest info view
                             (span_region ed view span) (label span) EmptyString st
                      else if negb (is_primary span0)
                           then Raised (ValueError "Unexpected span with no label")
                                  (print (PPrint info) st)
                           else Done st)
                     (fun st1 =>
                        if is_primary span0
                        then add_primary_message ed settings view_of_interest info view
                               (span_region ed view span) (message info) st1
                        else Done st1))
                  (fun st2 =>
                     if truthy (suggested_replacement span)
                     then add_message ed settings view_of_interest info view
                            (span_region ed view span) (rendered info) EmptyString st2
                     else Done st2)) as Ho.
    { subst o. unfold process_span, anchor_span. rewrite Hr, Hv.
      destruct (if truthy (label span) then _ else _); reflexivity. }
    split.
    + split; [|intros [Hl Hp]; eexists _, _; now apply Hraise].
      intros [m [st' Hm]].
      destruct (truthy (label span)) eqn:El, (is_primary span0) eqn:Ep; try (now split);
        exfalso; (destruct Hsteps as [st2 Hk]; [auto|]); rewrite Ho, Hk in Hm;
        (destruct (truthy (suggested_replacement span)); [|discriminate]);
        (destruct (rendered info) as [r|];
         [rewrite add_message_plain in Hm by exact Hb|rewrite add_message_none in Hm]);
        discriminate.
    + intros H Hs. destruct (Hsteps H) as [st2 Hk]. rewrite Ho, Hk.
      destruct (truthy (suggested_replacement span)); [|now exists st2].
      destruct Hs as [Hs|Hs]; [discriminate|].
      destruct (rendered info) as [r|]; [|contradiction].
      rewrite add_message_plain by exact Hb. now eexists.
Qed.

Lemma anchor_span_regions (info : Info) (is_primary : bool) (span : Span)
  (view : View) (st : Run) :
  find_open_file ed (realpath ed (file_name span)) = Some view ->
  let region :=
    mkRegion (text_point ed view (line_start span - 1) (column_start span - 1))
             (text_point ed view (line_end span - 1) (column_end span - 1)) in
  let st' := final (anchor_span ed settings view_of_interest info is_primary span st) in
  (forall r, In r (recorded_regions st') -> r = region \/ In r (recorded_regions st)) /\
  (truthy (label span) = true \/ is_primary = true -> In region (recorded_regions st')) /\
  (is_primary = true ->
   truthy (label span) = false \/ brace_free (base_color settings info) = true ->
   parent_info st' = Some (view, region)).
Proof.
  intros Hv region st'. subst st'. unfold anchor_span. rewrite Hv.
  fold region. change (span_region ed view span) with region.
  (* the three steps of the body, one after the other *)
  set (step1 := if truthy (label span)
                then add_message ed settings view_of_interest info view region (label span) EmptyString st
                else if negb is_primary
                     then Raised (ValueError "Unexpected span with no label") (print (PPrint info) st)
                     else Done st).
  assert ((forall x, In x (recorded_regions (final step1)) <->
                     (truthy (label span) = true /\ x = region) \/ In x (recorded_regions st)) /\
          parent_info (final step1) = parent_info st /\
          (is_primary = true -> truthy (label span) = false -> step1 = Done st) /\
          (truthy (label span) = true -> brace_free (base_color settings info) = true ->
           exists st1, step1 = Done st1)) as [R1 [P1 [D1 D1']]].
  { subst step1. destruct (truthy (label span)) eqn:El.
    - destruct (add_message_effect info view region (label span) EmptyString st) as [Hp [_ [_ Hr]]].
      split; [intros x; rewrite Hr; intuition congruence|]. split; [exact Hp|].
      split; [discriminate|]. intros _ Hb.
      destruct (label span) as [lab|]; [|discriminate].
      rewrite add_message_plain by exact Hb. now eexists.
    - destruct is_primary; simpl.
      + split; [intuition congruence|]. split; [reflexivity|]. split; [reflexivity|discriminate].
      + split; [intuition congruence|]. split; [reflexivity|]. split; discriminate. }
  destruct step1 as [st1|e st1] eqn:E1; simpl and_then; simpl final in R1, P1.
  2:{ split; [|split].
      - intros r Hr. apply R1 in Hr. intuition.
      - intros [H|H]; [apply R1; now left|].
        destruct (truthy (label span)) eqn:El; [apply R1; now left|].
        specialize (D1 H eq_refl). discriminate.
      - intros H [Hl|Hb].
        + specialize (D1 H Hl). discriminate.
        + destruct (truthy (label span)) eqn:El.
          * destruct (D1' eq_refl Hb) as [? ?]; discriminate.
          * specialize (D1 H eq_refl). discriminate. }
  set (step2 := if is_primary
                then add_primary_message ed settings view_of_interest info view region
                       (message info) st1
                else Done st1).
  assert ((forall x, In x (recorded_regions (final step2)) <->
                     (is_primary = true /\ x = region) \/ In x (recorded_regions st1)) /\
          (is_primary = true -> parent_info (final step2) = Some (view, region)))
    as [R2 P2].
  { subst step2. destruct is_primary.
    - destruct (add_primary_message_effect info view region (message info) st1)
        as [Hp [_ [_ Hr]]].
      split; [|intros _; exact Hp].
      intros x. rewrite Hr. intuition congruence.
    - split; [simpl; intuition congruence|discriminate]. }
  destruct step2 as [st2|e st2] eqn:E2; simpl and_then; simpl final in R2, P2.
  2:{ split; [|split].
      - intros r Hr. apply R2 in Hr. destruct Hr as [[_ Hr]|Hr]; [now left|].
        apply R1 in Hr. intuition.
      - intros H. apply R2. destruct H as [H|H]; [right; apply R1; now left|now left].
      - intros H _. now apply P2. }
  set (step3 := if truthy (suggested_replacement span)
                then add_message ed settings view_of_interest info view region (rendered info) EmptyString st2
                else Done st2).
  assert ((forall x, In x (recorded_regions (final step3)) ->
                     x = region \/ In x (recorded_regions st2)) /\
          (forall x, In x (recorded_regions st2) -> In x (recorded_regions (final step3))) /\
          parent_info (final step3) = parent_info st2) as [R3 [R3' P3]].
  { subst step3. destruct (truthy (suggested_replacement span)).
    - destruct (add_message_effect info view region (rendered info) EmptyString st2) as [Hp [_ [_ Hr]]].
      split; [intros x; apply Hr|]. split; [intros x Hx; apply Hr; now right|exact Hp].
    - simpl. intuition. }
  split; [|split].
  - intros r Hr. apply R3 in Hr. destruct Hr as [Hr|Hr]; [now left|].
    apply R2 in Hr. destruct Hr as [[_ Hr]|Hr]; [now left|].
    apply R1 in Hr. intuition.
  - intros H. apply R3'. apply R2. destruct H as [H|H].
    + right. apply R1. now left.
    + now left.
  - intros H _. rewrite P3. now apply P2.
Qed.

(** The phantoms added from [st] to [st'] all sit on [view], at the
    place for [region]. *)
Definition phantoms_at (view : View) (region : Region) (st st' : Run) : Prop :=
  exists l, phantoms st' = (phantoms st ++ l)%list /\
    Forall (fun p => ph_view p = view /\ ph_region p = phantom_region view region) l.

Lemma phantoms_at_refl (view : View) (region : Region) (st : Run) :
  phantoms_at view region st st.
Proof. exists []. split; [now rewrite app_nil_r|constructor]. Qed.

Lemma phantoms_at_and_then (view : View) (region : Region) (st : Run)
  (o : Outcome) (k : Run -> Outcome) :
  phantoms_at view region st (final o) ->
  (forall st1, phantoms_at view region st1 (final (k st1))) ->
  phantoms_at view region st (final (and_then o k)).
Proof.
  intros Ho Hk. destruct o as [st1|e st1]; simpl in *; [|exact Ho].
  destruct Ho as [l1 [E1 F1]]. destruct (Hk st1) as [l2 [E2 F2]].
  exists (l1 ++ l2)%list. split; [now rewrite E2, E1, app_assoc|].
  apply Forall_app. now split.
Qed.

Lemma add_message_phantoms (info : Info) (view : View) (region : Region)
  (message : option string) (extra : string) (st : Run) :
  phantoms_at view region st
    (final (add_message ed settings view_of_interest info view region message extra st)).
Proof.
  destruct (add_message_cases info view region message extra st) as [[c ->]|[e ->]]; simpl.
  - eexists. split; [reflexivity|]. constructor; [|constructor]. now split.
  - exists []. split; [now rewrite app_nil_r|constructor].
Qed.

Lemma anchor_span_phantoms (info : Info) (is_primary : bool) (span : Span)
  (view : View) (st : Run) :
  find_open_file ed (realpath ed (file_name span)) = Some view ->
  phantoms_at view (span_region ed view span) st
    (final (anchor_span ed settings view_of_interest info is_primary span st)).
Proof.
  intros Hv. unfold anchor_span. rewrite Hv.
  apply phantoms_at_and_then.
  - destruct (truthy (label span)); [apply add_message_phantoms|].
    destruct (negb is_primary); simpl; exists []; (split; [now rewrite app_nil_r|constructor]).
  - intros st1. apply phantoms_at_and_then.
    + destruct is_primary; [|apply phantoms_at_refl].
      unfold add_primary_message.
      match goal with |- context [add_message _ _ _ _ _ _ ?m ?e ?s] =>
        destruct (add_message_phantoms info view (span_region ed view span) m e s)
          as [l [E F]]
      end.
      exists l. split; [exact E|exact F].
    + intros st2. destruct (truthy (suggested_replacement span));
        [apply add_message_phantoms|apply phantoms_at_refl].
Qed.

(** C5: every region recorded while a span of an open file is annotated
    is the region between [text_point (line_start - 1) (column_start - 1)]
    and [text_point (line_end - 1) (column_end - 1)]: each of the four
    fields is lowered by exactly one, on its own.  That region is
    recorded when the span has a label or is primary, and every phantom
    added for the span is placed for that region.  It is the anchor
    handed to the children when the span is primary and the message of
    its label, if it has one, could be formatted, as it can when the
    colour holds no brace. *)
Theorem C5_zero_based_region (info : Info) (is_primary : bool) (span : Span)
  (view : View) (st : Run) :
  find_open_file ed (realpath ed (file_name span)) = Some view ->
  let region :=
    mkRegion (text_point ed view (line_start span - 1) (column_start span - 1))
             (text_point ed view (line_end span - 1) (column_end span - 1)) in
  let st' := final (anchor_span ed settings view_of_interest info is_primary span st) in
  (forall r, In r (recorded_regions st') -> r = region \/ In r (recorded_regions st)) /\
  (truthy (label span) = true \/ is_primary = true -> In region (recorded_regions st')) /\
  (is_primary = true ->
   truthy (label span) = false \/ brace_free (base_color settings info) = true ->
   parent_info st' = Some (view, region)) /\
  phantoms_at view region st st'.
Proof.
  intros Hv region st'.
  destruct (anchor_span_regions info is_primary span view st Hv) as [HA [HB HC]].
  split; [exact HA|]. split; [exact HB|]. split; [exact HC|].
  exact (anchor_span_phantoms info is_primary span view st Hv).
Qed.

End SpanAnnotation.

Definition main_view : View := 1%Z.

Definition main_editor : Editor := grid_editor [("/p/src/main.rs", main_view)] silent_cargo.

Lemma C1_logic_error_iff_witness :
  let span := mkSpan "/p/src/main.rs" 3 3 9 14 false None None None in
  let labelled := mkSpan "/p/src/main.rs" 3 3 9 14 false (Some "expected u32") None None in
  let info := mkInfo "error" "mismatched types" None [span] [] None in
  resolve_span span = Some span /\
  find_open_file main_editor (realpath main_editor (file_name span)) = Some main_view /\
  brace_free (base_color default_settings info) = true /\
  process_span main_editor default_settings main_view info span initial_run
  = Raised (ValueError "Unexpected span with no label") (print (PPrint info) initial_run) /\
  exists st', process_span main_editor default_settings main_view info labelled initial_run
              = Done st'.
Proof.
  intros span labelled info.
  assert (brace_free (base_color default_settings info) = true) as Hb by reflexivity.
  split; [reflexivity|]. split; [reflexivity|]. split; [exact Hb|]. split.
  - exact (proj2 (proj1 (C1_logic_error_iff main_editor default_settings main_view
                           info span span main_view initial_run eq_refl eq_refl))
             (conj eq_refl eq_refl)).
  - exact (proj2 (proj2 (C1_logic_error_iff main_editor default_settings main_view
                           info labelled labelled main_view initial_run eq_refl eq_refl) Hb)
             (or_introl eq_refl) (or_introl eq_refl)).
Defined.

(** C1, as stated, fails: a span of an open file that carries a
    suggested replacement, but no label, and is not primary, raises the
    logic error. *)
Lemma C1_counterexample :
  let span := mkSpan "/p/src/main.rs" 3 3 9 14 false None (Some "x as usize") None in
  let info := mkInfo "help" "try casting" None [span] [] (Some "let y = x as usize;") in
  truthy (suggested_replacement span) = true /\
  find_open_file main_editor (realpath main_editor (file_name span)) = Some main_view /\
  process_span main_editor default_settings main_view info span initial_run
  = Raised (ValueError "Unexpected span with no label") (print (PPrint info) initial_run) /\
  add_error_phantoms main_editor default_settings main_view "/p/src/main.rs" info initial_run
  = Raised (ValueError "Unexpected span with no label") (print (PPrint info) initial_run).
Proof. repeat split. Qed.

(** A colour with a brace: the template cannot be read, and the message
    of a labelled primary span is lost after its region was recorded;
    the anchor is not set. *)
Definition braced_settings : Settings :=
  mkSettings None None None (Some "{red}") None None.

Lemma C5_zero_based_region_witness :
  let span := mkSpan "/p/src/main.rs" 5 5 1 10 true (Some "expected u32") None None in
  let info := mkInfo "error" "mismatched types" None [span] [] None in
  let st' := final (anchor_span main_editor default_settings main_view info true span
                      initial_run) in
  find_open_file main_editor (realpath main_editor (file_name span)) = Some main_view /\
  parent_info st' = Some (main_view, mkRegion 320 329) /\
  rowcol main_editor main_view 320 = (4, 0)%Z /\
  rowcol main_editor main_view 329 = (4, 9)%Z /\
  recorded_regions st' = [mkRegion 320 329; mkRegion 320 329] /\
  anchor_span main_editor braced_settings main_view info true span initial_run
  = Raised (KeyError "red")
      (mkRun true [(main_view, [("invalid", [mkRegion 320 329])])] None [] [] []).
Proof.
  intros span info st'.
  pose proof (C5_zero_based_region main_editor default_settings main_view info true span
                main_view initial_run eq_refl) as [_ [_ [Hp _]]].
  split; [reflexivity|]. split; [exact (Hp eq_refl (or_intror eq_refl))|].
  repeat split.
Defined.

(** ** The walk over a diagnostic tree *)

(** Induction over the tree of child records. *)
Lemma Info_children_ind (P : Info -> Prop) :
  (forall info, Forall P (children info) -> P info) ->
  forall info, P info.
Proof.
  intros H. fix IH 1. intros info. apply H.
  destruct info as [lvl m c sp cs rd]; simpl.
  induction cs as [|child cs IHcs]; constructor; [apply IH|exact IHcs].
Qed.

(** A property of the state that a statement establishes however it
    ends, and one it establishes when it completes. *)
Lemma final_and_then (P : Run -> Prop) (o : Outcome) (k : Run -> Outcome) :
  P (final o) -> (forall st, P st -> P (final (k st))) -> P (final (and_then o k)).
Proof. destruct o; simpl; auto. Qed.

Definition on_done (o : Outcome) (P : Run -> Prop) : Prop :=
  match o with
  | Done st => P st
  | Raised _ _ => True
  end.

Lemma on_done_and_then (P : Run -> Prop) (o : Outcome) (k : Run -> Outcome) :
  on_done o P -> (forall st, P st -> on_done (k st) P) -> on_done (and_then o k) P.
Proof. destruct o; simpl; auto. Qed.

Section TreeWalk.

Variable ed : Editor.
Variable settings : Settings.
Variable view_of_interest : View.
Variable target_src_path : string.

Local Abbreviation add_error_phantoms' :=
  (add_error_phantoms ed settings view_of_interest target_src_path).
Local Abbreviation recurse_children' :=
  (recurse_children ed settings view_of_interest target_src_path).
Local Abbreviation process_spans' := (process_spans ed settings view_of_interest).

(** The part of [add_error_phantoms] that deals with the record itself,
    before the recursion into its children. *)
Definition own_part (info : Info) (st : Run) : Outcome :=
  and_then (match spans info with
            | [] => spanless ed settings view_of_interest target_src_path info st
            | _ :: _ => Done st
            end)
           (process_spans' info (spans info)).

Lemma add_error_phantoms_unfold (info : Info) (st : Run) :
  add_error_phantoms' info st =
  if filtered settings info st then Done st
  else and_then (own_part info st) (recurse_children' (children info)).
Proof.
  destruct info as [lvl m c sp cs rd]. unfold own_part. cbn [add_error_phantoms spans children].
  destruct (filtered settings _ st); [reflexivity|].
  destruct (match sp with [] => _ | _ :: _ => _ end) as [st1|e st1]; [|reflexivity].
  cbn [and_then].
  destruct (process_spans' _ sp st1) as [st2|e st2]; [|reflexivity].
  cbn [and_then]. revert st2.
  induction cs as [|child cs IH]; intros st2; [reflexivity|].
  cbn [recurse_children].
  destruct (add_error_phantoms' child st2) as [st3|e st3]; [|reflexivity].
  cbn [and_then]. apply IH.
Qed.

(** [extends st st']: the walk never spawns a process and never forgets
    an anchor. *)
Definition extends (st st' : Run) : Prop :=
  spawned st' = spawned st /\
  (parent_info st <> None -> parent_info st' <> None).

Lemma extends_refl (st : Run) : extends st st.
Proof. split; auto. Qed.

Lemma extends_trans (st1 st2 st3 : Run) :
  extends st1 st2 -> extends st2 st3 -> extends st1 st3.
Proof. intros [A1 B1] [A2 B2]. split; [congruence|auto]. Qed.

Lemma extends_and_then (st : Run) (o : Outcome) (k : Run -> Outcome) :
  extends st (final o) -> (forall st1, extends st1 (final (k st1))) ->
  extends st (final (and_then o k)).
Proof.
  intros Ho Hk. destruct o as [st1|e st1]; simpl in *; [|exact Ho].
  eapply extends_trans; [exact Ho|apply Hk].
Qed.

(** The flag [this_view_found] tells whether a phantom was added to the
    view that triggered the check. *)
Definition flag_sound (st : Run) : Prop :=
  this_view_found st = existsb (fun p => (ph_view p =? view_of_interest)%Z) (phantoms st).

Lemma add_message_extends (info : Info) (view : View) (region : Region)
  (message : option string) (extra : string) (st : Run) :
  extends st (final (add_message ed settings view_of_interest info view region message extra st)).
Proof.
  destruct (add_message_effect ed settings view_of_interest info view region message extra st)
    as [Hp [_ [Hs _]]].
  split; [exact Hs|]. now rewrite Hp.
Qed.

Lemma add_message_flag (info : Info) (view : View) (region : Region)
  (message : option string) (extra : string) (st : Run) :
  flag_sound st ->
  on_done (add_message ed settings view_of_interest info view region message extra st)
          flag_sound.
Proof.
  unfold flag_sound. intros H.
  destruct (add_message_cases ed settings view_of_interest info view region message extra st)
    as [[c ->]|[e ->]]; [|exact I].
  simpl. rewrite existsb_app, <- H. simpl.
  destruct (view =? view_of_interest)%Z, (this_view_found st); reflexivity.
Qed.

Lemma add_primary_message_extends (info : Info) (view : View) (region : Region)
  (message : string) (st : Run) :
  extends st (final (add_primary_message ed settings view_of_interest info view region message st)).
Proof.
  destruct (add_primary_message_effect ed settings view_of_interest info view region message st)
    as [Hp [_ [Hs _]]].
  split; [exact Hs|]. intros _. rewrite Hp. discriminate.
Qed.

Lemma add_primary_message_flag (info : Info) (view : View) (region : Region)
  (message : string) (st : Run) :
  flag_sound st ->
  on_done (add_primary_message ed settings view_of_interest info view region message st)
          flag_sound.
Proof. intros H. unfold add_primary_message. now apply add_message_flag. Qed.

Lemma spanless_extends (info : Info) (st : Run) :
  extends st (final (spanless ed settings view_of_interest target_src_path info st)).
Proof.
  unfold spanless. destruct (parent_info st) as [[view region]|] eqn:E.
  - apply add_primary_message_extends.
  - destruct (negb _); [|apply extends_refl].
    destruct (find_open_file ed _); [apply add_primary_message_extends|].
    simpl. split; [reflexivity|]. intros H. now elim H.
Qed.

Lemma spanless_flag (info : Info) (st : Run) :
  flag_sound st ->
  on_done (spanless ed settings view_of_interest target_src_path info st) flag_sound.
Proof.
  intros H. unfold spanless. destruct (parent_info st) as [[view region]|].
  - now apply add_primary_message_flag.
  - destruct (negb _); [|exact H].
    destruct (find_open_file ed _); [now apply add_primary_message_flag|exact H].
Qed.

Lemma anchor_span_extends (info : Info) (is_primary : bool) (span : Span) (st : Run) :
  extends st (final (anchor_span ed settings view_of_interest info is_primary span st)).
Proof.
  unfold anchor_span. destruct (find_open_file ed _) as [view|].
  - apply extends_and_then.
    + destruct (truthy (label span)); [apply add_message_extends|].
      destruct (negb is_primary); simpl; [|apply extends_refl].
      split; [reflexivity|auto].
    + intros st1. apply extends_and_then.
      * destruct is_primary; [apply add_primary_message_extends|apply extends_refl].
      * intros st2. destruct (truthy (suggested_replacement span));
          [apply add_message_extends|apply extends_refl].
  - simpl. destruct is_primary, (truthy (label span)); split; simpl; auto.
Qed.

Lemma anchor_span_flag (info : Info) (is_primary : bool) (span : Span) (st : Run) :
  flag_sound st ->
  on_done (anchor_span ed settings view_of_interest info is_primary span st) flag_sound.
Proof.
  intros H. unfold anchor_span. destruct (find_open_file ed _) as [view|].
  - apply on_done_and_then.
    + destruct (truthy (label span)); [now apply add_message_flag|].
      destruct (negb is_primary); simpl; [exact I|exact H].
    + intros st1 H1. apply on_done_and_then.
      * destruct is_primary; [now apply add_primary_message_flag|exact H1].
      * intros st2 H2. destruct (truthy (suggested_replacement span));
          [now apply add_message_flag|exact H2].
  - simpl. destruct is_primary, (truthy (label span)); exact H.
Qed.

Lemma process_spans_extends (info : Info) (l : list Span) (st : Run) :
  extends st (final (process_spans' info l st)).
Proof.
  revert st. induction l as [|span rest IH]; intros st; [apply extends_refl|].
  simpl. apply extends_and_then; [|exact IH].
  unfold process_span. destruct (resolve_span span);
    [apply anchor_span_extends|apply extends_refl].
Qed.

Lemma process_spans_flag (info : Info) (l : list Span) (st : Run) :
  flag_sound st -> on_done (process_spans' info l st) flag_sound.
Proof.
  revert st. induction l as [|span rest IH]; intros st H; [exact H|].
  simpl. apply on_done_and_then; [|exact IH].
  unfold process_span. destruct (resolve_span span); [now apply anchor_span_flag|exact H].
Qed.

Lemma own_part_extends (info : Info) (st : Run) : extends st (final (own_part info st)).
Proof.
  unfold own_part. apply extends_and_then.
  - destruct (spans info); [apply spanless_extends|apply extends_refl].
  - intros st1. apply process_spans_extends.
Qed.

Lemma own_part_flag (info : Info) (st : Run) :
  flag_sound st -> on_done (own_part info st) flag_sound.
Proof.
  intros H. unfold own_part. apply on_done_and_then.
  - destruct (spans info); [now apply spanless_flag|exact H].
  - intros st1 H1. now apply process_spans_flag.
Qed.

Lemma recurse_children_extends (cs : list Info) :
  Forall (fun c => forall st, extends st (final (add_error_phantoms' c st))) cs ->
  forall st, extends st (final (recurse_children' cs st)).
Proof.
  induction 1 as [|c cs Hc _ IH]; intros st; [apply extends_refl|].
  simpl. apply extends_and_then; [apply Hc|exact IH].
Qed.

Lemma add_error_phantoms_extends (info : Info) (st : Run) :
  extends st (final (add_error_phantoms' info st)).
Proof.
  revert st. induction info as [info IH] using Info_children_ind. intros st.
  rewrite add_error_phantoms_unfold.
  destruct (filtered settings info st); [apply extends_refl|].
  apply extends_and_then; [apply own_part_extends|].
  now apply recurse_children_extends.
Qed.

Lemma recurse_children_flag (cs : list Info) :
  Forall (fun c => forall st, flag_sound st -> on_done (add_error_phantoms' c st) flag_sound) cs ->
  forall st, flag_sound st -> on_done (recurse_children' cs st) flag_sound.
Proof.
  induction 1 as [|c cs Hc _ IH]; intros st H; [exact H|].
  simpl. apply on_done_and_then; [now apply Hc|exact IH].
Qed.

Lemma add_error_phantoms_flag (info : Info) (st : Run) :
  flag_sound st -> on_done (add_error_phantoms' info st) flag_sound.
Proof.
  revert st. induction info as [info IH] using Info_children_ind. intros st H.
  rewrite add_error_phantoms_unfold.
  destruct (filtered settings info st); [exact H|].
  apply on_done_and_then; [now apply own_part_flag|].
  now apply recurse_children_flag.
Qed.

(** A record with no spans, all of whose descendants have none. *)
Fixpoint spanless_tree (info : Info) : bool :=
  match spans info with
  | [] => forallb spanless_tree (children info)
  | _ :: _ => false
  end.

(** The records of a tree in the order of the walk. *)
Fixpoint preorder (info : Info) : list Info :=
  info :: flat_map preorder (children info).

(** Neither colour of the settings holds a brace. *)
Definition plain_colours : bool :=
  brace_free (get (rust_syntax_error_color settings) "var(--redish)") &&
  brace_free (get (rust_syntax_warning_color settings) "var(--yellowish)").

(** The phantom that shows the message of [info] at the anchor. *)
Definition note_phantom (view : View) (region : Region) (info : Info) : Phantom :=
  primary_phantom ed settings info view region.

Lemma plain_base_color (info : Info) :
  plain_colours = true -> brace_free (base_color settings info) = true.
Proof.
  unfold plain_colours, base_color. intros H. apply andb_true_iff in H as [He Hw].
  now destruct (level info =? "error").
Qed.

Lemma spanless_tree_unfold (info : Info) :
  spanless_tree info =
  match spans info with
  | [] => forallb spanless_tree (children info)
  | _ :: _ => false
  end.
Proof. now destruct info. Qed.

Lemma preorder_unfold (info : Info) :
  preorder info = info :: flat_map preorder (children info).
Proof. now destruct info. Qed.

Lemma filtered_anchored (info : Info) (st : Run) :
  parent_info st <> None -> filtered settings info st = false.
Proof.
  intros H. unfold filtered. destruct (parent_info st); [|now elim H].
  apply andb_false_r.
Qed.

Lemma add_primary_message_shown (info : Info) (view : View) (region : Region) (st : Run) :
  brace_free (base_color settings info) = true ->
  exists st',
    add_primary_message ed settings view_of_interest info view region (message info) st
    = Done st' /\
    parent_info st' = Some (view, region) /\
    phantoms st' = (phantoms st ++ [note_phantom view region info])%list.
Proof.
  intros Hb. rewrite (add_primary_message_plain ed settings view_of_interest info view region
                        st Hb).
  eexists. split; [reflexivity|]. split; reflexivity.
Qed.

Lemma recurse_children_shown (cs : list Info) (view : View) (region : Region) :
  Forall (fun c => forall st,
            parent_info st = Some (view, region) -> spanless_tree c = true ->
            exists st', add_error_phantoms' c st = Done st' /\
              parent_info st' = Some (view, region) /\
              phantoms st' = (phantoms st ++ map (note_phantom view region) (preorder c))%list)
         cs ->
  forallb spanless_tree cs = true ->
  forall st, parent_info st = Some (view, region) ->
  exists st', recurse_children' cs st = Done st' /\
    parent_info st' = Some (view, region) /\
    phantoms st' = (phantoms st ++ map (note_phantom view region) (flat_map preorder cs))%list.
Proof.
  induction 1 as [|c cs Hc _ IHcs]; intros Hall st Hp.
  - exists st. simpl. now rewrite app_nil_r.
  - simpl in Hall. apply andb_true_iff in Hall as [Hc1 Hall].
    destruct (Hc st Hp Hc1) as [st1 [E1 [Hp1 Hs1]]].
    destruct (IHcs Hall st1 Hp1) as [st2 [E2 [Hp2 Hs2]]].
    exists st2. simpl. rewrite E1. simpl. split; [exact E2|]. split; [exact Hp2|].
    rewrite Hs2, Hs1, map_app, app_assoc. reflexivity.
Qed.

(** Under an anchor, and with colours without braces, a tree of records
    without spans is shown at the anchor, record by record. *)
Lemma spanless_tree_shown (info : Info) (view : View) (region : Region) :
  plain_colours = true ->
  forall st,
    parent_info st = Some (view, region) ->
    spanless_tree info = true ->
    exists st',
      add_error_phantoms' info st = Done st' /\
      parent_info st' = Some (view, region) /\
      phantoms st' = (phantoms st ++ map (note_phantom view region) (preorder info))%list.
Proof.
  intros Hc. induction info as [info IH] using Info_children_ind. intros st Hp Ht.
  rewrite spanless_tree_unfold in Ht. rewrite preorder_unfold.
  rewrite add_error_phantoms_unfold, filtered_anchored by (rewrite Hp; discriminate).
  unfold own_part. destruct (spans info) as [|sp sps]; [|discriminate].
  unfold spanless. rewrite Hp.
  destruct (add_primary_message_shown info view region st (plain_base_color info Hc))
    as [st1 [H1 [Hp1 Hs1]]].
  rewrite H1. cbn [and_then process_spans].
  destruct (recurse_children_shown (children info) view region IH Ht st1 Hp1)
    as [st2 [E2 [Hp2 Hs2]]].
  exists st2. split; [exact E2|]. split; [exact Hp2|].
  rewrite Hs2, Hs1. simpl. now rewrite <- app_assoc.
Qed.

(** With warnings hidden, a top-level record that is not an error has
    no effect at all, with or without children. *)
Lemma top_level_warning_hidden (info : Info) (st : Run) :
  hide_warnings settings = true ->
  (level info =? "error") = false -> parent_info st = None ->
  add_error_phantoms' info st = Done st.
Proof.
  intros Hh Hl Hp. rewrite add_error_phantoms_unfold.
  unfold filtered. now rewrite Hl, Hh, Hp.
Qed.

(** With warnings hidden, the notes of an error whose own part has
    recorded no anchor are skipped by the severity filter, each of them
    like a top-level warning. *)
Lemma unanchored_error_skips_notes (info : Info) (st st1 : Run) :
  hide_warnings settings = true ->
  filtered settings info st = false ->
  own_part info st = Done st1 ->
  parent_info st1 = None ->
  Forall (fun c => (level c =? "error") = false) (children info) ->
  add_error_phantoms' info st = Done st1.
Proof.
  intros Hh Hf Hown Hp Hall.
  rewrite add_error_phantoms_unfold, Hf, Hown. cbn [and_then].
  induction Hall as [|c cs Hc _ IH]; [reflexivity|].
  cbn [recurse_children]. rewrite (top_level_warning_hidden c st1 Hh Hc Hp). exact IH.
Qed.

End TreeWalk.

Definition primary_in_main : Span :=
  mkSpan "/p/src/main.rs" 5 5 1 10 true (Some "expected u32") None None.

(** C2, on the code: the comment at the head of the severity filter
    reads [Include "notes" tied to errors, even if warnings are
    disabled], yet the filter lets a note pass only once the dictionary
    [parent_info] holds an anchor.  Here, with warnings hidden, the
    primary span of a top-level error lies in a file that is not open,
    so the error is printed and records no anchor; its note, whose span
    lies in the open file, is then skipped by the filter and leaves no
    trace.  With warnings shown the same note gets its two phantoms. *)
Lemma C2_note_of_unanchored_error_skipped :
  let child :=
    mkInfo "note" "previous definition of the value here" None
      [mkSpan "/p/src/main.rs" 2 2 1 8 true (Some "defined here") None None] [] None in
  let span := mkSpan "/p/src/other.rs" 5 5 1 10 true (Some "redefined here") None None in
  let info := mkInfo "error" "the name is defined multiple times" None [span] [child] None in
  hide_warnings hide_warnings_settings = true /\
  exists st',
    add_error_phantoms main_editor hide_warnings_settings main_view "/p/src/main.rs"
      info initial_run = Done st' /\
    filtered hide_warnings_settings child st' = true /\
    phantoms st' = [] /\
    regions_by_view st' = [] /\
    console st' = [SilentPath "/p/src/other.rs";
                   SilentMessage "error" "the name is defined multiple times";
                   SilentPath "/p/src/other.rs";
                   SilentMessage "error" "redefined here"] /\
    exists st'',
      add_error_phantoms main_editor default_settings main_view "/p/src/main.rs"
        info initial_run = Done st'' /\
      phantoms st''
      = [message_phantom main_editor default_settings child main_view (mkRegion 80 87)
           "defined here" EmptyString;
         primary_phantom main_editor default_settings child main_view (mkRegion 80 87)].
Proof.
  split; [reflexivity|]. eexists. split; [vm_compute; reflexivity|].
  repeat split. eexists. split; vm_compute; reflexivity.
Qed.

(** ** The check run: one target after the other *)

(** The command line of the cargo process for a target invocation. *)
Definition cargo_command (settings : Settings) (inv : Invocation) : string :=
  String.concat " " ("cargo" :: rustc_args settings (snd inv)).

Section RunLoop.

Variable json_loads : string -> option Info.
Variable ed : Editor.
Variable settings : Settings.
Variable view : View.

Local Abbreviation check_targets' := (check_targets json_loads ed settings view).
Local Abbreviation add_infos' := (add_infos ed settings view).

Lemma run_cargo_effect (args : list string) (st : Run) :
  let st' := snd (run_cargo json_loads ed args st) in
  spawned st' = (spawned st ++ [String.concat " " ("cargo" :: args)])%list /\
  this_view_found st' = this_view_found st /\
  phantoms st' = phantoms st.
Proof.
  unfold run_cargo. cbv zeta.
  destruct (cargo ed _ _) as [output returncode].
  unfold decode_utf8. destruct (utf8_valid output); [|simpl; auto].
  destruct (parse_lines json_loads (split output) []) as [[|j records]|e]; simpl;
    [destruct (negb (returncode =? 0)%Z)|..]; simpl; auto.
Qed.

Lemma add_infos_spawned (target_src : string) (infos : list Info) (st : Run) :
  spawned (final (add_infos' target_src infos st)) = spawned st.
Proof.
  revert st. induction infos as [|info rest IH]; intros st; [reflexivity|].
  simpl. apply (final_and_then (fun st' => spawned st' = spawned st)); [|intros st1 <-; apply IH].
  apply (add_error_phantoms_extends ed settings view target_src info (fresh_parent st)).
Qed.

Lemma add_infos_flag (target_src : string) (infos : list Info) (st : Run) :
  flag_sound view st -> on_done (add_infos' target_src infos st) (flag_sound view).
Proof.
  revert st. induction infos as [|info rest IH]; intros st H; [exact H|].
  simpl. apply on_done_and_then; [|exact IH].
  now apply add_error_phantoms_flag.
Qed.

(** The processes spawned by the loop are those of a prefix of the
    targets, in their order. *)
Lemma check_targets_spawned (targets : list Invocation) (st : Run) :
  exists k, k <= List.length targets /\
    spawned (final (check_targets' targets st))
    = (spawned st ++ map (cargo_command settings) (firstn k targets))%list.
Proof.
  revert st. induction targets as [|[target_src target_args] rest IH]; intros st.
  - exists 0. simpl. now rewrite app_nil_r.
  - simpl check_targets.
    pose proof (run_cargo_effect (rustc_args settings target_args) st) as [Hs _].
    cbv zeta in Hs.
    destruct (run_cargo json_loads ed (rustc_args settings target_args) st) as [[infos|e] st1];
      simpl snd in Hs.
    + pose proof (add_infos_spawned target_src infos st1) as Ha.
      destruct (add_infos' target_src infos st1) as [st2|e st2]; simpl in Ha |- *.
      * destruct (this_view_found st2).
        -- exists 1. simpl. split; [lia|]. now rewrite Ha, Hs.
        -- destruct (IH st2) as [k [Hk Hr]]. exists (S k). split; [simpl; lia|].
           rewrite Hr, Ha, Hs, <- app_assoc. reflexivity.
      * exists 1. simpl. split; [lia|]. now rewrite Ha, Hs.
    + exists 1. simpl. split; [lia|]. exact Hs.
Qed.

Lemma check_targets_flag (targets : list Invocation) (st : Run) :
  flag_sound view st -> on_done (check_targets' targets st) (flag_sound view).
Proof.
  revert st. induction targets as [|[target_src target_args] rest IH]; intros st H; [exact H|].
  simpl check_targets.
  pose proof (run_cargo_effect (rustc_args settings target_args) st) as [_ [Hf Hp]].
  cbv zeta in Hf, Hp.
  destruct (run_cargo json_loads ed (rustc_args settings target_args) st) as [[infos|e] st1];
    simpl snd in Hf, Hp; [|exact I].
  apply on_done_and_then.
  - apply add_infos_flag. unfold flag_sound in *. now rewrite Hf, Hp.
  - intros st2 H2. destruct (this_view_found st2); [exact H2|now apply IH].
Qed.

(** Once the flag is set at the end of a target, the targets that follow
    change nothing. *)
Lemma check_targets_stop (before after : list Invocation) (t : Invocation) (st st' : Run) :
  check_targets' (before ++ [t]) st = Done st' ->
  this_view_found st' = true ->
  check_targets' (before ++ t :: after) st = Done st'.
Proof.
  revert st. induction before as [|[src args] before IH]; intros st.
  - destruct t as [target_src target_args]. simpl.
    destruct (run_cargo json_loads ed (rustc_args settings target_args) st) as [[infos|e] st1];
      [|discriminate].
    destruct (add_infos' target_src infos st1) as [st2|e st2]; simpl; [|discriminate].
    destruct (this_view_found st2) eqn:Ef; intros [= <-] Hf; [reflexivity|congruence].
  - simpl.
    destruct (run_cargo json_loads ed (rustc_args settings args) st) as [[infos|e] st1];
      [|discriminate].
    destruct (add_infos' src infos st1) as [st2|e st2]; simpl; [|discriminate].
    destruct (this_view_found st2); [auto|apply IH].
Qed.

(** C7: the targets are run in order, and once a target has left an
    annotation on the view that triggered the check, so that the flag is
    set, the run ends there: with further targets after it the loop ends
    in the very same state, and the cargo processes spawned are those of
    the targets up to that one at most. *)
Theorem C7_stop_after_annotated_target
  (before after : list Invocation) (t : Invocation) (st' : Run) :
  check_targets' (before ++ [t]) initial_run = Done st' ->
  (exists p, In p (phantoms st') /\ ph_view p = view) ->
  this_view_found st' = true /\
  check_targets' (before ++ t :: after) initial_run = Done st' /\
  fst (on_post_save_async json_loads ed settings view (before ++ t :: after)) = Done st' /\
  exists k, k <= List.length (before ++ [t]) /\
    spawned st' = map (cargo_command settings) (firstn k (before ++ t :: after)).
Proof.
  intros Hrun [p [Hin Hview]].
  assert (this_view_found st' = true) as Hflag.
  { pose proof (check_targets_flag (before ++ [t]) initial_run eq_refl) as Hf.
    rewrite Hrun in Hf. simpl in Hf. rewrite Hf. apply existsb_exists.
    exists p. split; [exact Hin|]. now apply Z.eqb_eq. }
  pose proof (check_targets_stop before after t initial_run st' Hrun Hflag) as Hstop.
  split; [exact Hflag|]. split; [exact Hstop|]. split.
  - unfold on_post_save_async. now rewrite Hstop.
  - destruct (check_targets_spawned (before ++ [t]) initial_run) as [k [Hk Hs]].
    rewrite Hrun in Hs. simpl in Hs. exists k. split; [exact Hk|].
    rewrite Hs. f_equal.
    replace (before ++ t :: after)%list with ((before ++ [t]) ++ after)%list
      by (rewrite <- app_assoc; reflexivity).
    rewrite (firstn_app k (before ++ [t]) after).
    replace (k - List.length (before ++ [t])) with 0 by lia.
    simpl. now rewrite app_nil_r.
Qed.

End RunLoop.

(** One diagnostic of rustc, as printed with [--error-format=json]. *)
Definition diagnostic_line : string :=
  json_text ("{'message':'mismatched types','code':{'code':'E0308','explanation':'Expected type did not match.'},"
    ++ "'level':'error','spans':[{'file_name':'/p/src/main.rs','byte_start':61,'byte_end':70,"
    ++ "'line_start':5,'line_end':5,'column_start':1,'column_end':10,'is_primary':true,"
    ++ "'text':[],'label':'expected u32','suggested_replacement':null,'expansion':null}],"
    ++ "'children':[{'message':'expected type `u32`','code':null,'level':'note','spans':[],"
    ++ "'children':[],'rendered':null}],'rendered':null}").

(** A cargo whose first process reports one error in [/p/src/main.rs]
    and fails, and whose later processes print nothing. *)
Definition one_error_cargo : nat -> string -> string * Z :=
  fun n _ =>
    match n with
    | O => ("   Compiling p v0.1.0 (file:///p)" ++ newline ++ diagnostic_line ++ newline
            ++ "error: aborting due to previous error" ++ newline, 101%Z)
    | S _ => (EmptyString, 0%Z)
    end.

Definition one_error_editor : Editor :=
  grid_editor [("/p/src/main.rs", main_view)] one_error_cargo.

Definition lib_state : Run :=
  Eval vm_compute in
    final (check_targets loads_info one_error_editor default_settings main_view
             [("/p/src/lib.rs", "--lib")] initial_run).

Lemma C7_stop_after_annotated_target_witness :
  let lib := ("/p/src/lib.rs", "--lib") in
  let bin := ("/p/src/main.rs", "--bin main") in
  check_targets loads_info one_error_editor default_settings main_view ([] ++ [lib]) initial_run
  = Done lib_state /\
  (exists p, In p (phantoms lib_state) /\ ph_view p = main_view) /\
  check_targets loads_info one_error_editor default_settings main_view [lib; bin] initial_run
  = Done lib_state /\
  spawned lib_state
  = ["cargo rustc --lib -- -Zno-trans -Zunstable-options --error-format=json --test"] /\
  map (fun p => (ph_view p, ph_region p)) (phantoms lib_state)
  = [(main_view, mkRegion 320 329); (main_view, mkRegion 320 329);
     (main_view, mkRegion 320 329)].
Proof.
  intros lib bin.
  assert (check_targets loads_info one_error_editor default_settings main_view ([] ++ [lib])
            initial_run = Done lib_state) as Hrun by (vm_compute; reflexivity).
  assert (exists p, In p (phantoms lib_state) /\ ph_view p = main_view) as Hp.
  { eexists. split; [left; reflexivity|reflexivity]. }
  split; [exact Hrun|]. split; [exact Hp|]. split.
  - exact (proj1 (proj2 (C7_stop_after_annotated_target loads_info one_error_editor
                           default_settings main_view [] [bin] lib lib_state Hrun Hp))).
  - split; reflexivity.
Defined.

(** ** The output parser of [run_cargo] *)

Section OutputParser.

Context {J : Type}.
Variable json_loads : string -> option J.
Variable ed : Editor.

Lemma parse_lines_records (lines : list string) (acc records : list J) :
  all_some json_loads (filter is_record_line lines) = Some records ->
  parse_lines json_loads lines acc = Ok (acc ++ records)%list.
Proof.
  revert acc records. induction lines as [|line rest IH]; intros acc records; simpl.
  - intros [= <-]. now rewrite app_nil_r.
  - destruct (is_record_line line); simpl; [|apply IH].
    destruct (json_loads line) as [j|]; simpl; [|discriminate].
    destruct (all_some json_loads (filter is_record_line rest)) as [rs|] eqn:E; simpl;
      [|discriminate].
    intros [= <-]. rewrite (IH (acc ++ [j])%list rs eq_refl), <- app_assoc. reflexivity.
Qed.

Lemma parse_lines_raises (lines : list string) (acc : list J) :
  all_some json_loads (filter is_record_line lines) = None ->
  exists line,
    In line (filter is_record_line lines) /\ json_loads line = None /\
    parse_lines json_loads lines acc = Raise (JSONDecodeError line).
Proof.
  revert acc. induction lines as [|line rest IH]; intros acc; simpl; [discriminate|].
  destruct (is_record_line line); simpl; [|apply IH].
  destruct (json_loads line) as [j|] eqn:Ej; simpl.
  - destruct (all_some json_loads (filter is_record_line rest)) as [rs|] eqn:E; simpl;
      [discriminate|].
    intros _. destruct (IH (acc ++ [j])%list eq_refl) as [l [Hin [Hl Hp]]].
    exists l. auto.
  - intros _. exists line. auto.
Qed.

(** The state after the process was spawned: the command is printed and
    recorded. *)
Definition spawn (cmd : string) (st : Run) : Run :=
  mkRun (this_view_found st) (regions_by_view st) (parent_info st) (phantoms st)
        (console st ++ [Running cmd])%list (spawned st ++ [cmd])%list.

(** C8, as the code has it: the bytes of the output are decoded as
    UTF-8 first, and bytes that are not valid UTF-8 raise
    [UnicodeDecodeError] before any line is read.  The decoded output is
    read line by line; a line that is empty or does not begin with an
    opening brace is ignored, whatever it holds, and every other line is
    handed to [json.loads].  When [json.loads] accepts all of these, the
    fetch returns their records, in order; when it rejects one, its
    error leaves the fetch. *)
Theorem C8_record_lines (args : list string) (st : Run) :
  let cmd := String.concat " " ("cargo" :: args) in
  let output := fst (cargo ed (List.length (spawned st)) cmd) in
  let record_lines := filter is_record_line (split output) in
  (forall line, In line record_lines <-> In line (split output) /\ is_record_line line = true) /\
  (utf8_valid output = false ->
   run_cargo json_loads ed args st = (Raise UnicodeDecodeError, spawn cmd st)) /\
  (utf8_valid output = true ->
   (forall records,
      all_some json_loads record_lines = Some records ->
      fst (run_cargo json_loads ed args st) = Ok records) /\
   (all_some json_loads record_lines = None ->
    exists line, In line record_lines /\ json_loads line = None /\
      run_cargo json_loads ed args st = (Raise (JSONDecodeError line), spawn cmd st))).
Proof.
  intros cmd output record_lines. split; [intros line; apply filter_In|].
  unfold run_cargo. fold cmd. simpl spawned. subst record_lines output.
  destruct (cargo ed (List.length (spawned st)) cmd) as [output returncode]. simpl fst.
  unfold decode_utf8. split; [intros ->; reflexivity|]. intros ->.
  split.
  - intros records H. now rewrite (parse_lines_records _ [] _ H).
  - intros H. destruct (parse_lines_raises _ [] H) as [line [Hin [Hl Hp]]].
    exists line. rewrite Hp. auto.
Qed.

(** C9, as the code has it, for output that is valid UTF-8: when the
    process ends with a non-zero status and no line of its output begins
    with an opening brace, the fetch prints the failure and the output
    and returns the empty list; when the decoder accepts every line that
    begins with an opening brace and there is at least one, the fetch
    returns the records, whatever the status, and prints no failure.
    For output that is not valid UTF-8, [UnicodeDecodeError] leaves the
    fetch, whatever the status, and no failure is printed. *)
Theorem C9_exit_status (args : list string) (st : Run) :
  let cmd := String.concat " " ("cargo" :: args) in
  let output := fst (cargo ed (List.length (spawned st)) cmd) in
  let returncode := snd (cargo ed (List.length (spawned st)) cmd) in
  let record_lines := filter is_record_line (split output) in
  (utf8_valid output = true ->
   (returncode <> 0%Z -> record_lines = [] ->
    run_cargo json_loads ed args st
    = (Ok [], print (Output output) (print (FailedToRun cmd) (spawn cmd st)))) /\
   (forall records,
      all_some json_loads record_lines = Some records -> records <> [] ->
      run_cargo json_loads ed args st = (Ok records, spawn cmd st))) /\
  (utf8_valid output = false ->
   run_cargo json_loads ed args st = (Raise UnicodeDecodeError, spawn cmd st)).
Proof.
  intros cmd output returncode record_lines.
  unfold run_cargo. fold cmd. simpl spawned. subst record_lines output returncode.
  destruct (cargo ed (List.length (spawned st)) cmd) as [output returncode].
  simpl fst. simpl snd. unfold decode_utf8.
  split; [|intros ->; reflexivity]. intros ->. split.
  - intros Hrc Hnone.
    rewrite (parse_lines_records (split output) [] []) by now rewrite Hnone.
    simpl. apply Z.eqb_neq in Hrc. now rewrite Hrc.
  - intros records H Hne. rewrite (parse_lines_records _ [] _ H). simpl.
    destruct records; [now elim Hne|reflexivity].
Qed.

End OutputParser.

(** A cargo that prints one progress line and one line that begins with
    an opening brace but is not JSON, and fails. *)
Definition broken_cargo : nat -> string -> string * Z :=
  fun _ _ => ("   Compiling p v0.1.0 (file:///p)" ++ newline ++ "{unknown start of token}", 101%Z).

Definition broken_editor : Editor := grid_editor [] broken_cargo.

(** A cargo that prints a byte that is not UTF-8, and fails. *)
Definition undecodable_cargo : nat -> string -> string * Z :=
  fun _ _ => ("warn " ++ String "255" EmptyString, 101%Z).

Definition one_error_records : list Info :=
  Eval vm_compute in
    match loads_info diagnostic_line with
    | Some info => [info]
    | None => []
    end.

Lemma C8_record_lines_witness :
  let args := rustc_args default_settings "--lib" in
  let cmd := String.concat " " ("cargo" :: args) in
  let output := fst (cargo one_error_editor 0 cmd) in
  let undecodable := grid_editor [] undecodable_cargo in
  List.length (split output) = 4 /\
  utf8_valid output = true /\
  all_some loads_info (filter is_record_line (split output)) = Some one_error_records /\
  List.length one_error_records = 1 /\
  fst (run_cargo loads_info one_error_editor args initial_run) = Ok one_error_records /\
  utf8_valid (fst (cargo undecodable 0 cmd)) = false /\
  run_cargo loads_info undecodable args initial_run
  = (Raise UnicodeDecodeError, spawn cmd initial_run).
Proof.
  intros args cmd output undecodable.
  assert (utf8_valid output = true) as Hu by (vm_compute; reflexivity).
  assert (all_some loads_info (filter is_record_line (split output)) = Some one_error_records)
    as H by (vm_compute; reflexivity).
  assert (utf8_valid (fst (cargo undecodable 0 cmd)) = false) as Hn by reflexivity.
  split; [reflexivity|]. split; [exact Hu|]. split; [exact H|]. split; [reflexivity|].
  split; [|split; [exact Hn|]].
  - exact (proj1 (proj2 (proj2 (C8_record_lines loads_info one_error_editor args initial_run))
                   Hu) one_error_records H).
  - exact (proj1 (proj2 (C8_record_lines loads_info undecodable args initial_run)) Hn).
Defined.

(** C8, as stated, fails: a line that begins with an opening brace and
    is not a structured record is not ignored; the decoder's error
    leaves the fetch. *)
Lemma C8_counterexample :
  let args := rustc_args default_settings "--lib" in
  loads_json "{unknown start of token}" = None /\
  fst (run_cargo loads_json broken_editor args initial_run)
  = Raise (JSONDecodeError "{unknown start of token}").
Proof. split; vm_compute; reflexivity. Qed.

(** A cargo that finds no such target: it prints an error and fails. *)
Definition no_target_cargo : nat -> string -> string * Z :=
  fun _ _ => ("error: no bin target named `main`" ++ newline, 101%Z).

Lemma C9_exit_status_witness :
  let args := rustc_args default_settings "--lib" in
  let cmd := String.concat " " ("cargo" :: args) in
  let failing := grid_editor [] no_target_cargo in
  let undecodable := grid_editor [] undecodable_cargo in
  (utf8_valid (fst (cargo failing 0 cmd)) = true /\
   snd (cargo failing 0 cmd) <> 0%Z /\
   filter is_record_line (split (fst (cargo failing 0 cmd))) = [] /\
   run_cargo loads_info failing args initial_run
   = (Ok [], print (Output (fst (cargo failing 0 cmd)))
               (print (FailedToRun cmd) (spawn cmd initial_run)))) /\
  (utf8_valid (fst (cargo one_error_editor 0 cmd)) = true /\
   all_some loads_info (filter is_record_line (split (fst (cargo one_error_editor 0 cmd))))
   = Some one_error_records /\
   one_error_records <> [] /\
   run_cargo loads_info one_error_editor args initial_run
   = (Ok one_error_records, spawn cmd initial_run)) /\
  (utf8_valid (fst (cargo undecodable 0 cmd)) = false /\
   snd (cargo undecodable 0 cmd) = 101%Z /\
   run_cargo loads_info undecodable args initial_run
   = (Raise UnicodeDecodeError, spawn cmd initial_run) /\
   console (spawn cmd initial_run) = [Running cmd]).
Proof.
  intros args cmd failing undecodable. split; [|split].
  - assert (utf8_valid (fst (cargo failing 0 cmd)) = true) as Hu by reflexivity.
    assert (snd (cargo failing 0 cmd) <> 0%Z) as Hrc by discriminate.
    assert (filter is_record_line (split (fst (cargo failing 0 cmd))) = []) as Hnone
      by reflexivity.
    split; [exact Hu|]. split; [exact Hrc|]. split; [exact Hnone|].
    exact (proj1 (proj1 (C9_exit_status loads_info failing args initial_run) Hu) Hrc Hnone).
  - assert (utf8_valid (fst (cargo one_error_editor 0 cmd)) = true) as Hu
      by (vm_compute; reflexivity).
    assert (all_some loads_info
              (filter is_record_line (split (fst (cargo one_error_editor 0 cmd))))
            = Some one_error_records) as H by (vm_compute; reflexivity).
    assert (one_error_records <> []) as Hne by discriminate.
    split; [exact Hu|]. split; [exact H|]. split; [exact Hne|].
    exact (proj2 (proj1 (C9_exit_status loads_info one_error_editor args initial_run) Hu)
             one_error_records H Hne).
  - assert (utf8_valid (fst (cargo undecodable 0 cmd)) = false) as Hn by reflexivity.
    split; [exact Hn|]. split; [reflexivity|]. split; [|reflexivity].
    exact (proj2 (C9_exit_status loads_info undecodable args initial_run) Hn).
Defined.

(** C9, as stated, fails: the process ends with a non-zero status and
    no line of its output is a parseable record, yet the fetch does not
    return the empty list: the decoder's error leaves it, and no failure
    is printed. *)
Lemma C9_counterexample :
  let args := rustc_args default_settings "--lib" in
  let cmd := String.concat " " ("cargo" :: args) in
  snd (cargo broken_editor 0 cmd) = 101%Z /\
  forallb (fun line => match loads_json line with Some _ => false | None => true end)
          (split (fst (cargo broken_editor 0 cmd))) = true /\
  run_cargo loads_json broken_editor args initial_run
  = (Raise (JSONDecodeError "{unknown start of token}"), spawn cmd initial_run) /\
  console (spawn cmd initial_run) = [Running cmd].
Proof. repeat split; vm_compute; reflexivity. Qed.

(** * Further properties of the plugin *)

(** ** Conversion of targets to cargo arguments *)

Lemma str_in_In (x : string) (l : list string) : str_in x l = true -> In x l.
Proof.
  unfold str_in. intros H. apply existsb_exists in H as [y [Hy E]].
  apply String.eqb_eq in E. now subst.
Qed.

Lemma target_to_args_src (t : Target) (inv : Invocation) :
  _target_to_args t = Ok (Some inv) -> fst inv = src_path t.
Proof.
  unfold _target_to_args. destruct (kind t) as [|k ks]; [discriminate|].
  destruct (str_in k ["lib"; "rlib"; "dylib"; "staticlib"; "proc-macro"]);
    [now intros [= <-]|].
  destruct (str_in k ["bin"; "test"; "example"; "bench"]); [now intros [= <-]|].
  destruct (str_in k ["custom-build"]); discriminate.
Qed.

(** X1.  The invocation of a target carries the target's own source path, and
    its arguments begin with two dashes; the arguments begin with
    [--lib] exactly for the library kinds, and with [--bin] exactly for
    the kind [bin]: [bench], which shares its first letter, is never
    taken for a binary.  Only the first kind of the target counts. *)
Theorem target_to_args_shape (t : Target) (inv : Invocation) :
  _target_to_args t = Ok (Some inv) ->
  fst inv = src_path t /\
  startswith (snd inv) "--" = true /\
  (is_lib inv = true <->
   exists k ks, kind t = k :: ks /\
     In k ["lib"; "rlib"; "dylib"; "staticlib"; "proc-macro"]) /\
  (is_bin inv = true <-> exists ks, kind t = "bin" :: ks).
Proof.
  unfold _target_to_args. destruct (kind t) as [|k ks] eqn:Ek; [discriminate|].
  destruct (str_in k ["lib"; "rlib"; "dylib"; "staticlib"; "proc-macro"]) eqn:Elib.
  - intros [= <-]. split; [reflexivity|]. split; [reflexivity|]. split.
    + split; [|reflexivity]. intros _. exists k, ks. split; [reflexivity|now apply str_in_In].
    + split; [discriminate|]. intros [ks' [= -> _]]. discriminate.
  - destruct (str_in k ["bin"; "test"; "example"; "bench"]) eqn:Enamed.
    + intros [= <-]. split; [reflexivity|].
      split; [simpl; now destruct (k ++ String " " (name t))|].
      apply str_in_In in Enamed.
      assert (forall k', In k' ["lib"; "rlib"; "dylib"; "staticlib"; "proc-macro"] ->
                         str_in k' ["lib"; "rlib"; "dylib"; "staticlib"; "proc-macro"] = true)
        as Hlibs.
      { intros k' Hk'. repeat (destruct Hk' as [<-|Hk']; [reflexivity|]). destruct Hk'. }
      split.
      * split.
        -- intros H. exfalso.
           destruct Enamed as [<-|[<-|[<-|[<-|[]]]]]; discriminate.
        -- intros [k' [ks' [[= <- _] Hin]]]. apply Hlibs in Hin. congruence.
      * split.
        -- intros H. exists ks.
           destruct Enamed as [<-|[<-|[<-|[<-|[]]]]]; [reflexivity|discriminate..].
        -- intros [ks' [= -> _]]. reflexivity.
    + destruct (str_in k ["custom-build"]); discriminate.
Qed.

Lemma target_to_args_shape_witness :
  let t := mkTarget ["bench"; "lib"] "speed" "/p/benches/speed.rs" in
  let inv := ("/p/benches/speed.rs", "--bench speed") in
  _target_to_args t = Ok (Some inv) /\
  fst inv = src_path t /\
  startswith (snd inv) "--" = true /\
  (is_lib inv = true <->
   exists k ks, kind t = k :: ks /\
     In k ["lib"; "rlib"; "dylib"; "staticlib"; "proc-macro"]) /\
  (is_bin inv = true <-> exists ks, kind t = "bin" :: ks).
Proof.
  intros t inv. split; [reflexivity|].
  exact (target_to_args_shape t inv eq_refl).
Defined.

(** ** Exact match *)

Lemma exact_match_origin (targets : list Target) (file_name : string)
  (r : list Invocation) :
  _targets_exact_match targets file_name = Ok (Some r) ->
  exists args t, r = [(file_name, args)] /\ In t targets /\ src_path t = file_name /\
    _target_to_args t = Ok (Some (file_name, args)).
Proof.
  revert r. induction targets as [|t ts IH]; intros r; simpl; [discriminate|].
  destruct (src_path t =? file_name) eqn:E.
  - apply String.eqb_eq in E.
    destruct (_target_to_args t) as [[a|]|e] eqn:Ea; simpl; [| |discriminate].
    + intros [= <-]. pose proof (target_to_args_src t a Ea) as Hsrc.
      destruct a as [src args]. simpl in Hsrc. subst src.
      exists args, t. rewrite E in *. auto.
    + intros H. destruct (IH r H) as [args [t' [Hr [Hin Ht']]]].
      exists args, t'. auto.
  - intros H. destruct (IH r H) as [args [t' [Hr [Hin Ht']]]].
    exists args, t'. auto.
Qed.

(** X2.  An exact match is a single invocation, its source path is the file
    itself, and it comes from a target declared with that path.  Only
    the targets whose source path is the file are looked at: a target of
    unknown kind elsewhere in the package does not make the exact match
    fail. *)
Theorem exact_match_sound (targets : list Target) (file_name : string) :
  _targets_exact_match targets file_name
  = _targets_exact_match (filter (fun t => src_path t =? file_name) targets) file_name /\
  forall r, _targets_exact_match targets file_name = Ok (Some r) ->
    exists args t, r = [(file_name, args)] /\ In t targets /\ src_path t = file_name /\
      _target_to_args t = Ok (Some (file_name, args)).
Proof.
  split; [|intros r; apply exact_match_origin].
  induction targets as [|t ts IH]; [reflexivity|]. simpl.
  destruct (src_path t =? file_name) eqn:E; [|exact IH].
  simpl. rewrite E.
  destruct (_target_to_args t) as [[a|]|e]; simpl; [reflexivity|exact IH|reflexivity].
Qed.

Lemma exact_match_sound_witness :
  let targets := [mkTarget ["cdylib"] "ffi" "/p/ffi/lib.rs";
                  mkTarget ["custom-build"] "build-script-build" "/p/build.rs";
                  mkTarget ["bin"] "tool" "/p/src/bin/tool.rs"] in
  _targets_exact_match targets "/p/src/bin/tool.rs"
  = Ok (Some [("/p/src/bin/tool.rs", "--bin tool")]) /\
  _targets_exact_match targets "/p/build.rs" = Ok None /\
  exists args t, [("/p/src/bin/tool.rs", "--bin tool")] = [("/p/src/bin/tool.rs", args)] /\
    In t targets /\ src_path t = "/p/src/bin/tool.rs" /\
    _target_to_args t = Ok (Some ("/p/src/bin/tool.rs", args)).
Proof.
  intros targets. split; [reflexivity|]. split; [reflexivity|].
  exact (proj2 (exact_match_sound targets "/p/src/bin/tool.rs") _ eq_refl).
Defined.

(** ** Nearest-directory match, for targets of any kind *)

Lemma scan_level_ok (d : string) (targets : list Target) (m m' : Matches) :
  scan_level d targets m = Ok m' ->
  m' = (let l := invocations_at targets d in
        mkMatches (m_result m ++ l)
                  (found m || negb (match l with [] => true | _ => false end))
                  (found_lib m || existsb is_lib l)
                  (found_bin m || existsb is_bin l)).
Proof.
  revert m m'. induction targets as [|t ts IH]; intros m m'; simpl.
  - intros [= <-]. rewrite app_nil_r, !orb_false_r. now destruct m.
  - destruct (dirname (src_path t) =? d); [|apply IH].
    destruct (_target_to_args t) as [[a|]|e]; simpl; [|apply IH|discriminate].
    intros H. apply IH in H. rewrite H. simpl. rewrite <- app_assoc. simpl.
    unfold is_lib, is_bin.
    destruct (startswith (snd a) "--lib"), (startswith (snd a) "--bin"),
      (found m), (found_lib m), (found_bin m); simpl; rewrite ?orb_true_r; reflexivity.
Qed.

Lemma scan_level_raise (d : string) (targets : list Target) (m : Matches) (e : exn) :
  scan_level d targets m = Raise e ->
  exists t, In t targets /\ dirname (src_path t) = d /\ _target_to_args t = Raise e.
Proof.
  revert m. induction targets as [|t ts IH]; intros m; simpl; [discriminate|].
  destruct (dirname (src_path t) =? d) eqn:Ed.
  - apply String.eqb_eq in Ed.
    destruct (_target_to_args t) as [[a|]|e'] eqn:Ea; simpl.
    + intros H. destruct (IH _ H) as [t' [Hin Ht']]. exists t'. auto.
    + intros H. destruct (IH _ H) as [t' [Hin Ht']]. exists t'. auto.
    + intros [= <-]. exists t. auto.
  - intros H. destruct (IH _ H) as [t' [Hin Ht']]. exists t'. auto.
Qed.

Lemma walk_up_outcome (targets : list Target) :
  forall (k : nat) (d : string), String.length d < k ->
  match walk_up targets d no_matches with
  | Ok m =>
      m = no_matches \/
      exists n, invocations_at targets (Nat.iter n dirname d) <> [] /\
                m = matches_of (invocations_at targets (Nat.iter n dirname d))
  | Raise e =>
      exists n t, In t targets /\ dirname (src_path t) = Nat.iter n dirname d /\
                  _target_to_args t = Raise e
  end.
Proof.
  induction k as [|k IH]; intros d Hd; [lia|].
  rewrite walk_up_body. simpl found. cbv iota.
  destruct (scan_level d targets no_matches) as [m'|e] eqn:Es.
  - apply scan_level_ok in Es. simpl in Es.
    destruct (invocations_at targets d) as [|a l] eqn:El.
    + simpl in Es. subst m'. fold no_matches.
      destruct (dirname d =? d) eqn:Ed; [now left|].
      apply String.eqb_neq in Ed. pose proof (dirname_shrinks d Ed) as Hlt.
      specialize (IH (dirname d) ltac:(lia)).
      destruct (walk_up targets (dirname d) no_matches) as [m|e].
      * destruct IH as [->|[n [Hn Hm]]]; [now left|].
        right. exists (S n). now rewrite Nat.iter_succ_r.
      * destruct IH as [n [t Ht]]. exists (S n), t. now rewrite Nat.iter_succ_r.
    + assert (walk_up targets (dirname d) m' = Ok m') as Hw
        by (rewrite walk_up_body; subst m'; reflexivity).
      assert (m' = matches_of (a :: l)) as Hm by (subst m'; reflexivity).
      assert (Ok m' = if dirname d =? d then Ok m' else walk_up targets (dirname d) m') as <-
        by (rewrite Hw; now destruct (dirname d =? d)).
      right. exists 0. simpl. rewrite El. split; [discriminate|exact Hm].
  - apply scan_level_raise in Es as [t Ht]. exists 0, t. exact Ht.
Qed.

Lemma in_invocations_at (targets : list Target) (d : string) (inv : Invocation) :
  In inv (invocations_at targets d) ->
  exists t, In t targets /\ dirname (src_path t) = d /\ _target_to_args t = Ok (Some inv).
Proof.
  unfold invocations_at. intros H. apply in_flat_map in H as [t [Hin H]].
  destruct (dirname (src_path t) =? d) eqn:Ed; [|destruct H].
  apply String.eqb_eq in Ed.
  destruct (_target_to_args t) as [[a|]|e] eqn:Ea; simpl in H;
    [destruct H as [<-|[]]|destruct H|destruct H].
  exists t. auto.
Qed.

Lemma lib_over_bin_exclusive (l : list Invocation) :
  existsb is_bin (lib_over_bin l) && existsb is_lib (lib_over_bin l) = false.
Proof.
  unfold lib_over_bin.
  destruct (existsb is_bin l && existsb is_lib l) eqn:E; [|exact E].
  replace (existsb is_bin (filter (fun x => negb (is_bin x)) l)) with false; [reflexivity|].
  symmetry. apply not_true_is_false. intros H.
  apply existsb_exists in H as [x [Hin Hx]]. apply filter_In in Hin as [_ Hn].
  rewrite Hx in Hn. discriminate.
Qed.

Lemma longest_matches_form (targets : list Target) (file_name : string)
  (r : list Invocation) :
  _targets_longest_matches targets file_name = Ok r ->
  exists n l, (l = [] \/ l = invocations_at targets (ancestor file_name n)) /\
              r = lib_over_bin l.
Proof.
  unfold _targets_longest_matches. fold no_matches.
  pose proof (walk_up_outcome targets (S (String.length (dirname file_name)))
                (dirname file_name) (Nat.lt_succ_diag_r _)) as Hw.
  destruct (walk_up targets (dirname file_name) no_matches) as [m|e]; [|discriminate].
  simpl bind. intros Hr.
  destruct Hw as [->|[n [Hne ->]]].
  - exists 0, []. split; [now left|]. simpl in Hr. now injection Hr as <-.
  - exists n, (invocations_at targets (ancestor file_name n)). split; [now right|].
    unfold ancestor. destruct (invocations_at targets _) as [|a l] eqn:El; [congruence|].
    unfold matches_of in Hr. cbn [found_bin found_lib m_result] in Hr.
    unfold lib_over_bin.
    destruct (existsb is_bin (a :: l) && existsb is_lib (a :: l));
      now injection Hr as <-.
Qed.

Lemma in_lib_over_bin (l : list Invocation) (inv : Invocation) :
  In inv (lib_over_bin l) -> In inv l.
Proof.
  unfold lib_over_bin. destruct (existsb is_bin l && existsb is_lib l); [|auto].
  intros H. now apply filter_In in H.
Qed.

(** X3.  Whatever the kinds of the targets, a result of the nearest-directory
    match is sound: its invocations all come from declared targets that
    live in one and the same directory, a directory level above the
    file, and it never holds a binary invocation together with a library
    invocation. *)
Theorem longest_matches_sound (targets : list Target) (file_name : string)
  (r : list Invocation) :
  _targets_longest_matches targets file_name = Ok r ->
  (exists n, forall inv, In inv r ->
     dirname (fst inv) = ancestor file_name n /\
     exists t, In t targets /\ _target_to_args t = Ok (Some inv)) /\
  existsb is_bin r && existsb is_lib r = false.
Proof.
  intros Hr. destruct (longest_matches_form targets file_name r Hr) as [n [l [Hl ->]]].
  split; [|apply lib_over_bin_exclusive].
  exists n. intros inv Hin. apply in_lib_over_bin in Hin.
  destruct Hl as [->| ->]; [destruct Hin|].
  apply in_invocations_at in Hin as [t [Ht [Hd Ha]]].
  pose proof (target_to_args_src t inv Ha) as Hsrc.
  split; [now rewrite Hsrc|]. exists t. auto.
Qed.

Lemma longest_matches_sound_witness :
  let targets := [mkTarget ["cdylib"] "ffi" "/q/ffi/lib.rs";
                  mkTarget ["bin"] "main" "/p/src/main.rs";
                  mkTarget ["lib"] "p" "/p/src/lib.rs";
                  mkTarget ["test"] "it" "/p/tests/it.rs"] in
  let r := [("/p/src/lib.rs", "--lib")] in
  _targets_longest_matches targets "/p/src/deep/mod.rs" = Ok r /\
  (exists n, forall inv, In inv r ->
     dirname (fst inv) = ancestor "/p/src/deep/mod.rs" n /\
     exists t, In t targets /\ _target_to_args t = Ok (Some inv)) /\
  existsb is_bin r && existsb is_lib r = false.
Proof.
  intros targets r.
  assert (_targets_longest_matches targets "/p/src/deep/mod.rs" = Ok r) as H by reflexivity.
  split; [exact H|]. exact (longest_matches_sound targets "/p/src/deep/mod.rs" r H).
Defined.

(** X4.  The nearest-directory match fails only on a target that lives in a
    directory level above the file: the error is the one
    [_target_to_args] raises for that target.  A target of unknown kind
    in any other directory is passed over in silence. *)
Theorem longest_matches_raise (targets : list Target) (file_name : string) (e : exn) :
  _targets_longest_matches targets file_name = Raise e ->
  exists n t, In t targets /\ dirname (src_path t) = ancestor file_name n /\
              _target_to_args t = Raise e.
Proof.
  unfold _targets_longest_matches. fold no_matches.
  pose proof (walk_up_outcome targets (S (String.length (dirname file_name)))
                (dirname file_name) (Nat.lt_succ_diag_r _)) as Hw.
  destruct (walk_up targets (dirname file_name) no_matches) as [m|e'].
  - simpl. destruct (found_bin m && found_lib m); discriminate.
  - simpl. intros [= <-]. exact Hw.
Qed.

Lemma longest_matches_raise_witness :
  let targets := [mkTarget ["cdylib"] "ffi" "/p/lib.rs";
                  mkTarget [] "odd" "/q/src/odd.rs"] in
  _targets_longest_matches targets "/p/src/deep/mod.rs" = Raise (ValueError "cdylib") /\
  _targets_longest_matches targets "/r/src/main.rs" = Ok [] /\
  exists n t, In t targets /\ dirname (src_path t) = ancestor "/p/src/deep/mod.rs" n /\
              _target_to_args t = Raise (ValueError "cdylib").
Proof.
  intros targets. split; [reflexivity|]. split; [reflexivity|].
  exact (longest_matches_raise targets "/p/src/deep/mod.rs" (ValueError "cdylib") eq_refl).
Defined.

(** ** Manual configuration, in general *)

Lemma manual_target_sound (src_root file_name : string) (items : list (string * string))
  (inv : Invocation) :
  manual_target src_root file_name items = Some inv ->
  In inv items /\ file_name = join src_root (fst inv).
Proof.
  induction items as [|[tfile tcmd] rest IH]; simpl; [discriminate|].
  destruct (file_name =? join src_root tfile) eqn:E.
  - intros [= <-]. apply String.eqb_eq in E. auto.
  - intros H. destruct (IH H). auto.
Qed.

Lemma manual_config_singleton (settings : Settings) (file_name : string)
  (r : list Invocation) :
  _targets_manual_config settings file_name = Some r -> exists inv, r = [inv].
Proof.
  unfold _targets_manual_config.
  induction (get (projects settings) []) as [|project rest IH]; simpl; [discriminate|].
  destruct (negb (startswith file_name (join (get (root project) EmptyString) "src")));
    [exact IH|].
  destruct (manual_target _ file_name (get (targets project) [])) as [inv|].
  - intros [= <-]. now exists inv.
  - destruct (negb (dict_get (get (targets project) []) "_default" EmptyString =? EmptyString));
      [|exact IH].
    intros [= <-]. now eexists.
Qed.

(** X5.  A result of the manual configuration is always a single invocation,
    taken from a project whose source root is a prefix of the file name:
    either an entry of the project whose key, joined to the source root,
    is the file name, or, when the project has no such entry, its
    non-empty [_default] entry with an empty source path. *)
Theorem manual_config_sound (settings : Settings) (file_name : string)
  (r : list Invocation) :
  _targets_manual_config settings file_name = Some r ->
  exists project inv,
    In project (get (projects settings) []) /\
    startswith file_name (join (get (root project) EmptyString) "src") = true /\
    r = [inv] /\
    ((In inv (get (targets project) []) /\
      file_name = join (join (get (root project) EmptyString) "src") (fst inv)) \/
     (manual_target (join (get (root project) EmptyString) "src") file_name
        (get (targets project) []) = None /\
      fst inv = EmptyString /\
      snd inv = dict_get (get (targets project) []) "_default" EmptyString /\
      snd inv <> EmptyString)).
Proof.
  unfold _targets_manual_config.
  induction (get (projects settings) []) as [|project rest IH]; simpl; [discriminate|].
  destruct (startswith file_name (join (get (root project) EmptyString) "src")) eqn:Es; simpl.
  - destruct (manual_target _ file_name (get (targets project) [])) as [inv|] eqn:Em.
    + intros [= <-]. exists project, inv. apply manual_target_sound in Em. intuition.
    + destruct (dict_get (get (targets project) []) "_default" EmptyString =? EmptyString) eqn:Ed;
        simpl.
      * intros H. destruct (IH H) as [p [inv Hp]]. exists p, inv. intuition.
      * intros [= <-]. apply String.eqb_neq in Ed.
        exists project, (EmptyString, dict_get (get (targets project) []) "_default" EmptyString).
        intuition.
  - intros H. destruct (IH H) as [p [inv Hp]]. exists p, inv. intuition.
Qed.

Lemma manual_config_sound_witness :
  let project := mkProject (Some "/p") (Some [("main.rs", "--bin main"); ("_default", "--lib")]) in
  let settings := mkSettings None None None None None (Some [mkProject None None; project]) in
  _targets_manual_config settings "/p/src/main.rs" = Some [("main.rs", "--bin main")] /\
  exists project inv,
    In project (get (projects settings) []) /\
    startswith "/p/src/main.rs" (join (get (root project) EmptyString) "src") = true /\
    [("main.rs", "--bin main")] = [inv] /\
    ((In inv (get (targets project) []) /\
      "/p/src/main.rs" = join (join (get (root project) EmptyString) "src") (fst inv)) \/
     (manual_target (join (get (root project) EmptyString) "src") "/p/src/main.rs"
        (get (targets project) []) = None /\
      fst inv = EmptyString /\
      snd inv = dict_get (get (targets project) []) "_default" EmptyString /\
      snd inv <> EmptyString)).
Proof.
  intros project settings. split; [reflexivity|].
  exact (manual_config_sound settings "/p/src/main.rs" _ eq_refl).
Defined.

(** X6.  A project of the manual configuration that gives no root, or an
    empty one, has the relative source root [src]: for an absolute file
    name it is passed over, whatever its targets and its [_default]. *)
Theorem manual_config_rootless (settings : Settings) (file_name : string) :
  startswith file_name "/" = true ->
  _targets_manual_config settings file_name
  = manual_projects
      (filter (fun p => negb (get (root p) EmptyString =? EmptyString))
              (get (projects settings) []))
      file_name.
Proof.
  intros Habs. unfold _targets_manual_config.
  induction (get (projects settings) []) as [|project rest IH]; [reflexivity|].
  simpl. destruct (get (root project) EmptyString =? EmptyString) eqn:Er; simpl.
  - apply String.eqb_eq in Er. rewrite Er.
    assert (startswith file_name (join EmptyString "src") = false) as ->.
    { destruct file_name as [|c rest']; unfold startswith, join in *;
        cbn [String.prefix startswith orb String.eqb append] in *; [discriminate|].
      destruct (ascii_dec "/" c) as [<-|]; [reflexivity|discriminate]. }
    exact IH.
  - now rewrite IH.
Qed.

Lemma manual_config_rootless_witness :
  let settings :=
    mkSettings None None None None None
      (Some [mkProject None (Some [("_default", "--lib")]);
             mkProject (Some EmptyString) (Some [("main.rs", "--bin main")])]) in
  startswith "/src/main.rs" "/" = true /\
  _targets_manual_config settings "/src/main.rs" = None /\
  _targets_manual_config settings "src/main.rs" = Some [(EmptyString, "--lib")].
Proof.
  intros settings. split; [reflexivity|]. split; [|reflexivity].
  rewrite (manual_config_rootless settings "/src/main.rs" eq_refl). reflexivity.
Defined.

(** ** Invariants of a check run *)

(** [holds_after strict o P]: [P] holds of the state in which the
    statement ends when it completes and, if [strict], also when it
    raises. *)
Definition holds_after (strict : bool) (o : Outcome) (P : Run -> Prop) : Prop :=
  match o with
  | Done st => P st
  | Raised _ st => if strict then P st else True
  end.

Lemma holds_after_and_then (strict : bool) (P : Run -> Prop) (o : Outcome)
  (k : Run -> Outcome) :
  holds_after strict o P -> (forall st, P st -> holds_after strict (k st) P) ->
  holds_after strict (and_then o k) P.
Proof. destruct o; simpl; auto. Qed.

Definition is_running (p : Printed) : bool :=
  match p with
  | Running _ => true
  | _ => false
  end.

Section RunInvariant.

Variable json_loads : string -> option Info.
Variable ed : Editor.
Variable settings : Settings.
Variable view_of_interest : View.
Variable strict : bool.
Variable P : Run -> Prop.
Variable Q : View -> Prop.

(** [Q] holds of the views the walk can reach: the open files and the
    anchor.  What the invariant [P] has to survive: a message added to
    such a view, an anchor set to such a view or reset, a line printed
    by the walk or by a failed fetch, a process spawned. *)
Hypothesis Q_open : forall path view, find_open_file ed path = Some view -> Q view.
Hypothesis P_anchored :
  forall st view region, P st -> parent_info st = Some (view, region) -> Q view.
Hypothesis P_add_message :
  forall info view region message extra st,
    Q view -> P st ->
    holds_after strict
      (add_message ed settings view_of_interest info view region message extra st) P.
Hypothesis P_anchor :
  forall st a,
    (forall view region, a = Some (view, region) -> Q view) ->
    P st ->
    P (mkRun (this_view_found st) (regions_by_view st) a (phantoms st) (console st) (spawned st)).
Hypothesis P_print :
  forall p st, is_running p = false -> P st -> P (print p st).
Hypothesis P_spawn : forall cmd st, P st -> P (spawn cmd st).

Lemma add_primary_message_invariant (info : Info) (view : View) (region : Region)
  (message : string) (st : Run) :
  Q view -> P st ->
  holds_after strict
    (add_primary_message ed settings view_of_interest info view region message st) P.
Proof.
  intros Hq H. unfold add_primary_message. apply P_add_message; [exact Hq|].
  apply P_anchor; [|exact H]. now intros v r [= <- _].
Qed.

Lemma spanless_invariant (target_src_path : string) (info : Info) (st : Run) :
  P st ->
  holds_after strict (spanless ed settings view_of_interest target_src_path info st) P.
Proof.
  intros H. unfold spanless. destruct (parent_info st) as [[view region]|] eqn:Ep.
  - apply add_primary_message_invariant; [|exact H]. exact (P_anchored st view region H Ep).
  - destruct (negb _); [|exact H].
    destruct (find_open_file ed _) as [view|] eqn:Ev.
    + apply add_primary_message_invariant; [|exact H]. exact (Q_open _ _ Ev).
    + simpl. unfold report_silent_message. now repeat apply P_print.
Qed.

Lemma anchor_span_invariant (info : Info) (is_primary : bool) (span : Span) (st : Run) :
  P st ->
  holds_after strict (anchor_span ed settings view_of_interest info is_primary span st) P.
Proof.
  intros H. unfold anchor_span. destruct (find_open_file ed _) as [view|] eqn:Ev.
  - pose proof (Q_open _ _ Ev) as Hq. apply holds_after_and_then.
    + destruct (truthy (label span)); [now apply P_add_message|].
      destruct (negb is_primary); simpl; [|exact H].
      destruct strict; [now apply P_print|exact I].
    + intros st1 H1. apply holds_after_and_then.
      * destruct is_primary; [now apply add_primary_message_invariant|exact H1].
      * intros st2 H2. destruct (truthy (suggested_replacement span));
          [now apply P_add_message|exact H2].
  - simpl. unfold report_silent_message.
    destruct is_primary, (truthy (label span)); now repeat apply P_print.
Qed.

Lemma process_spans_invariant (info : Info) (l : list Span) (st : Run) :
  P st -> holds_after strict (process_spans ed settings view_of_interest info l st) P.
Proof.
  revert st. induction l as [|span rest IH]; intros st H; [exact H|].
  simpl. apply holds_after_and_then; [|exact IH].
  unfold process_span. destruct (resolve_span span); [now apply anchor_span_invariant|exact H].
Qed.

Lemma add_error_phantoms_invariant (target_src_path : string) (info : Info) (st : Run) :
  P st ->
  holds_after strict
    (add_error_phantoms ed settings view_of_interest target_src_path info st) P.
Proof.
  revert st. induction info as [info IH] using Info_children_ind. intros st H.
  rewrite add_error_phantoms_unfold.
  destruct (filtered settings info st); [exact H|].
  apply holds_after_and_then.
  - unfold own_part. apply holds_after_and_then.
    + destruct (spans info); [now apply spanless_invariant|exact H].
    + intros st1 H1. now apply process_spans_invariant.
  - clear H st. induction IH as [|c cs Hc _ IHcs]; intros st H; [exact H|].
    simpl. apply holds_after_and_then; [now apply Hc|exact IHcs].
Qed.

Lemma add_infos_invariant (target_src : string) (infos : list Info) (st : Run) :
  P st ->
  holds_after strict (add_infos ed settings view_of_interest target_src infos st) P.
Proof.
  revert st. induction infos as [|info rest IH]; intros st H; [exact H|].
  simpl. apply holds_after_and_then; [|exact IH].
  apply add_error_phantoms_invariant. apply P_anchor; [discriminate|exact H].
Qed.

Lemma run_cargo_invariant (args : list string) (st : Run) :
  P st -> P (snd (run_cargo json_loads ed args st)).
Proof.
  intros H. unfold run_cargo.
  destruct (cargo ed _ _) as [output returncode].
  match goal with |- context [parse_lines _ _ _] =>
    change (mkRun _ _ _ _ _ _) with (spawn (String.concat " " ("cargo" :: args)) st)
  end.
  pose proof (P_spawn (String.concat " " ("cargo" :: args)) st H) as Hs.
  unfold decode_utf8. destruct (utf8_valid output); [|exact Hs].
  destruct (parse_lines json_loads (split output) []) as [[|j records]|e]; simpl;
    [|exact Hs|exact Hs].
  destruct (negb (returncode =? 0)%Z); [|exact Hs].
  now repeat apply P_print.
Qed.

Lemma check_targets_invariant (targets : list Invocation) (st : Run) :
  P st ->
  holds_after strict (check_targets json_loads ed settings view_of_interest targets st) P.
Proof.
  revert st.
  induction targets as [|[target_src target_args] rest IH]; intros st H; [exact H|].
  simpl check_targets.
  pose proof (run_cargo_invariant (rustc_args settings target_args) st H) as Hr.
  destruct (run_cargo json_loads ed (rustc_args settings target_args) st) as [[infos|e] st1];
    simpl snd in Hr.
  - apply holds_after_and_then; [now apply add_infos_invariant|].
    intros st2 H2. destruct (this_view_found st2); [exact H2|now apply IH].
  - simpl. destruct strict; [exact Hr|exact I].
Qed.

End RunInvariant.

(** ** The highlight regions of a run *)

(** The scopes recorded for a view are distinct and are [invalid] or
    [info]. *)
Definition wf_scopes (d : list (string * list Region)) : Prop :=
  NoDup (map fst d) /\ forall s, In s (map fst d) -> s = "invalid" \/ s = "info".

(** The views recorded are distinct, each with well-formed scopes. *)
Definition wf_regions (st : Run) : Prop :=
  NoDup (map fst (regions_by_view st)) /\
  Forall (fun e => wf_scopes (snd e)) (regions_by_view st).

Lemma setdefault_append_keys (scope : string) (r : Region) (d : list (string * list Region)) :
  map fst (setdefault_append scope r d)
  = if existsb (String.eqb scope) (map fst d) then map fst d else (map fst d ++ [scope])%list.
Proof.
  induction d as [|[k rs] d IH]; [reflexivity|]. simpl.
  rewrite (String.eqb_sym scope k). destruct (k =? scope); [reflexivity|].
  simpl. rewrite IH. now destruct (existsb (String.eqb scope) (map fst d)).
Qed.

Lemma NoDup_snoc {A : Type} (l : list A) (x : A) :
  NoDup l -> ~ In x l -> NoDup (l ++ [x]).
Proof.
  intros Hl Hx. induction Hl as [|y l Hy _ IH]; simpl.
  - constructor; [intros []|constructor].
  - constructor.
    + rewrite in_app_iff. intros [H|[H|[]]]; [contradiction|].
      apply Hx. now left.
    + apply IH. intros H. apply Hx. now right.
Qed.

Lemma setdefault_append_wf (scope : string) (r : Region) (d : list (string * list Region)) :
  scope = "invalid" \/ scope = "info" ->
  wf_scopes d -> wf_scopes (setdefault_append scope r d).
Proof.
  intros Hs [Hn Hk]. unfold wf_scopes. rewrite setdefault_append_keys.
  destruct (existsb (String.eqb scope) (map fst d)) eqn:E; [now split|].
  split.
  - apply NoDup_snoc; [exact Hn|]. intros Hin.
    assert (existsb (String.eqb scope) (map fst d) = true) as E'.
    { apply existsb_exists. exists scope. split; [exact Hin|apply String.eqb_refl]. }
    congruence.
  - intros s Hin. apply in_app_iff in Hin as [Hin|[<-|[]]]; [now apply Hk|exact Hs].
Qed.

Lemma add_region_keys (v : View) (scope : string) (r : Region)
  (d : list (View * list (string * list Region))) :
  map fst (add_region v scope r d)
  = if existsb (Z.eqb v) (map fst d) then map fst d else (map fst d ++ [v])%list.
Proof.
  induction d as [|[k regions] d IH]; [reflexivity|]. simpl.
  rewrite (Z.eqb_sym v k). destruct (k =? v)%Z; [reflexivity|].
  simpl. rewrite IH. now destruct (existsb (Z.eqb v) (map fst d)).
Qed.

Lemma add_region_wf (v : View) (scope : string) (r : Region)
  (d : list (View * list (string * list Region))) :
  scope = "invalid" \/ scope = "info" ->
  NoDup (map fst d) /\ Forall (fun e => wf_scopes (snd e)) d ->
  NoDup (map fst (add_region v scope r d)) /\
  Forall (fun e => wf_scopes (snd e)) (add_region v scope r d).
Proof.
  intros Hs [Hn Hf]. split.
  - rewrite add_region_keys.
    destruct (existsb (Z.eqb v) (map fst d)) eqn:E; [exact Hn|].
    apply NoDup_snoc; [exact Hn|]. intros Hin.
    assert (existsb (Z.eqb v) (map fst d) = true) as E'.
    { apply existsb_exists. exists v. split; [exact Hin|apply Z.eqb_refl]. }
    congruence.
  - clear Hn. induction Hf as [|[k regions] d Hk Hd IH]; simpl.
    + constructor; [|constructor]. simpl. split.
      * constructor; [intros []|constructor].
      * intros s [<-|[]]. exact Hs.
    + destruct (k =? v)%Z; constructor; try assumption.
      simpl in *. now apply setdefault_append_wf.
Qed.

Lemma length_setdefault_append (scope : string) (r : Region) (d : list (string * list Region)) :
  List.length (flat_map snd (setdefault_append scope r d)) = S (List.length (flat_map snd d)).
Proof.
  induction d as [|[k rs] d IH]; [reflexivity|]. simpl.
  destruct (k =? scope); simpl; rewrite !length_app; [simpl; lia|rewrite IH; lia].
Qed.

Lemma length_add_region (v : View) (scope : string) (r : Region)
  (d : list (View * list (string * list Region))) :
  List.length (flat_map (fun e => flat_map snd (snd e)) (add_region v scope r d))
  = S (List.length (flat_map (fun e => flat_map snd (snd e)) d)).
Proof.
  induction d as [|[k regions] d IH]; [reflexivity|]. simpl.
  destruct (k =? v)%Z; simpl; rewrite !length_app;
    [rewrite length_setdefault_append|rewrite IH]; lia.
Qed.

(** The view and the key of a call of [add_regions]. *)
Definition call_key (c : View * string * list Region * string) : View * string :=
  (fst (fst (fst c)), snd (fst (fst c))).

Lemma draw_keys_scopes (v : View) (d : list (string * list Region)) :
  wf_scopes d ->
  NoDup (map (fun sr => (v, "rust-" ++ fst sr)) d) /\
  forall sr, In sr d -> "rust-" ++ fst sr = "rust-invalid" \/ "rust-" ++ fst sr = "rust-info".
Proof.
  intros [Hn Hk]. split.
  - induction d as [|[k rs] d IH]; simpl; [constructor|].
    inversion Hn as [|? ? Hnot Hn']; subst. constructor.
    + intros Hin. apply in_map_iff in Hin as [[k' rs'] [E Hin]]. simpl in E.
      injection E as E. apply Hnot. apply in_map_iff. exists (k', rs'). split; [|exact Hin].
      exact E.
    + apply IH; [exact Hn'|]. intros s Hs. apply Hk. now right.
  - intros sr Hin. destruct (Hk (fst sr)) as [-> | ->]; [now apply in_map|now left|now right].
Qed.

Lemma draw_region_highlights_keys (d : list (View * list (string * list Region))) :
  NoDup (map fst d) -> Forall (fun e => wf_scopes (snd e)) d ->
  NoDup (map call_key (draw_region_highlights d)) /\
  forall c, In c (draw_region_highlights d) ->
    In (fst (call_key c)) (map fst d) /\
    (snd (call_key c) = "rust-invalid" \/ snd (call_key c) = "rust-info").
Proof.
  unfold draw_region_highlights. intros Hn Hf.
  induction Hf as [|[v scopes] d Hv _ IH]; simpl; [split; [constructor|intros ? []]|].
  inversion Hn as [|? ? Hnot Hn']; subst. destruct (IH Hn') as [IHn IHk].
  simpl in Hv. destruct (draw_keys_scopes v scopes Hv) as [Hd Hs]. split.
  - rewrite map_app, map_map. unfold call_key at 1. simpl.
    apply NoDup_app; [exact Hd|exact IHn|].
    intros [v' key] Hin1 Hin2.
    apply in_map_iff in Hin1 as [sr [E _]]. injection E as <- _.
    apply in_map_iff in Hin2 as [c [E Hc]]. destruct (IHk c Hc) as [Hview _].
    rewrite E in Hview. simpl in Hview. contradiction.
  - intros c Hin. apply in_app_iff in Hin as [Hin|Hin].
    + apply in_map_iff in Hin as [sr [<- Hsr]]. unfold call_key. simpl.
      split; [now left|now apply Hs].
    + destruct (IHk c Hin). split; [now right|assumption].
Qed.

(** The regions recorded for a view, and the phantoms added to it. *)
Definition regions_of (v : View) (st : Run) : list Region :=
  flat_map (fun e => if (fst e =? v)%Z then flat_map snd (snd e) else []) (regions_by_view st).

Definition phantoms_of (v : View) (st : Run) : list Phantom :=
  filter (fun p => (ph_view p =? v)%Z) (phantoms st).

Lemma length_regions_of_add_region (v w : View) (scope : string) (r : Region)
  (d : list (View * list (string * list Region))) :
  List.length (flat_map (fun e => if (fst e =? w)%Z then flat_map snd (snd e) else [])
                 (add_region v scope r d))
  = (if (v =? w)%Z then 1 else 0)
    + List.length (flat_map (fun e => if (fst e =? w)%Z then flat_map snd (snd e) else []) d).
Proof.
  induction d as [|[k regions] d IH]; simpl.
  - destruct (v =? w)%Z; reflexivity.
  - destruct (k =? v)%Z eqn:Ekv; simpl.
    + apply Z.eqb_eq in Ekv. subst k. destruct (v =? w)%Z; rewrite !length_app; [|lia].
      rewrite length_setdefault_append. lia.
    + rewrite !length_app, IH. lia.
Qed.

Lemma draw_region_highlights_regions (d : list (View * list (string * list Region))) :
  flat_map (fun c => snd (fst c)) (draw_region_highlights d)
  = flat_map (fun e => flat_map snd (snd e)) d.
Proof.
  unfold draw_region_highlights.
  induction d as [|[v scopes] d IH]; [reflexivity|]. cbn [flat_map fst snd].
  rewrite flat_map_app, IH. f_equal.
  induction scopes as [|[k rs] scopes IHs]; [reflexivity|].
  cbn [flat_map map fst snd]. now rewrite IHs.
Qed.

Definition commands_of (l : list Printed) : list string :=
  flat_map (fun p => match p with Running cmd => [cmd] | _ => [] end) l.

Lemma commands_of_print (p : Printed) (st : Run) :
  is_running p = false -> commands_of (console (print p st)) = commands_of (console st).
Proof.
  intros H. unfold commands_of. simpl. rewrite flat_map_app. simpl.
  destruct p; try discriminate; now rewrite app_nil_r.
Qed.

Section RunFacts.

Variable json_loads : string -> option Info.
Variable ed : Editor.
Variable settings : Settings.
Variable view : View.

(** X15.  The highlights of a run are drawn without loss and without
    collision: however the run ends, the views recorded in
    [regions_by_view] are distinct and each holds the scopes [invalid]
    and [info] at most once; so [draw_region_highlights] never calls
    [add_regions] twice for the same view and key, which would replace
    the regions of the first call, its keys are [rust-invalid] and
    [rust-info] only, and the regions it draws are all the regions
    recorded, each once. *)
Theorem highlights_drawn_once (targets : list Invocation) :
  let st := final (check_targets json_loads ed settings view targets initial_run) in
  let calls := draw_region_highlights (regions_by_view st) in
  wf_regions st /\
  NoDup (map call_key calls) /\
  (forall c, In c calls ->
     snd (call_key c) = "rust-invalid" \/ snd (call_key c) = "rust-info") /\
  flat_map (fun c => snd (fst c)) calls = recorded_regions st.
Proof.
  intros st calls.
  assert (wf_regions st) as Hwf.
  { pose proof (check_targets_invariant json_loads ed settings view true wf_regions
                  (fun _ => True)) as H.
    assert (holds_after true (check_targets json_loads ed settings view targets initial_run)
              wf_regions) as Hh.
    { apply H.
      - exact (fun _ _ _ => I).
      - exact (fun _ _ _ _ _ => I).
      - intros info v region message extra s _ Hs.
        assert (wf_regions (recorded view info v region s)) as Hw.
        { apply add_region_wf; [|exact Hs]. destruct (level info =? "error"); auto. }
        destruct (add_message_cases ed settings view info v region message extra s)
          as [[c ->]|[e ->]]; exact Hw.
      - intros s a _ Hs. exact Hs.
      - intros p s _ Hs. exact Hs.
      - intros cmd s Hs. exact Hs.
      - split; constructor. }
    subst st. destruct (check_targets _ _ _ _ _ _); exact Hh. }
  destruct Hwf as [Hn Hf].
  destruct (draw_region_highlights_keys (regions_by_view st) Hn Hf) as [Hd Hk].
  split; [now split|]. split; [exact Hd|]. split.
  - intros c Hc. now destruct (Hk c Hc).
  - apply draw_region_highlights_regions.
Qed.

(** X16.  When a run completes, every view has as many phantoms as regions
    recorded for it: each message added is both shown and highlighted. *)
Theorem phantom_for_each_region (targets : list Invocation) (st : Run) :
  check_targets json_loads ed settings view targets initial_run = Done st ->
  forall v, List.length (phantoms_of v st) = List.length (regions_of v st).
Proof.
  intros Hrun v.
  pose proof (check_targets_invariant json_loads ed settings view false
                (fun s => List.length (phantoms_of v s) = List.length (regions_of v s))
                (fun _ => True)) as H.
  assert (holds_after false (check_targets json_loads ed settings view targets initial_run)
            (fun s => List.length (phantoms_of v s) = List.length (regions_of v s))) as Hh.
  { apply H.
    - exact (fun _ _ _ => I).
    - exact (fun _ _ _ _ _ => I).
    - intros info w region message extra s _ Hs.
      destruct (add_message_cases ed settings view info w region message extra s)
        as [[c ->]|[e ->]]; [|exact I].
      unfold holds_after, phantoms_of, regions_of in *. simpl.
      rewrite filter_app, length_app, length_regions_of_add_region, Hs. simpl.
      destruct (w =? v)%Z; simpl; lia.
    - intros s a _ Hs. exact Hs.
    - intros p s _ Hs. exact Hs.
    - intros cmd s Hs. exact Hs.
    - reflexivity. }
  rewrite Hrun in Hh. exact Hh.
Qed.

(** X17.  However a run ends, the cargo processes it spawned are those it
    announced on the console with [Running], in the same order. *)
Theorem spawns_announced (targets : list Invocation) :
  let st := final (check_targets json_loads ed settings view targets initial_run) in
  spawned st = commands_of (console st).
Proof.
  intros st.
  pose proof (check_targets_invariant json_loads ed settings view true
                (fun s => spawned s = commands_of (console s)) (fun _ => True)) as H.
  assert (holds_after true (check_targets json_loads ed settings view targets initial_run)
            (fun s => spawned s = commands_of (console s))) as Hh.
  { apply H.
    - exact (fun _ _ _ => I).
    - exact (fun _ _ _ _ _ => I).
    - intros info w region message extra s _ Hs.
      destruct (add_message_cases ed settings view info w region message extra s)
        as [[c ->]|[e ->]]; exact Hs.
    - intros s a _ Hs. exact Hs.
    - intros p s Hp Hs. rewrite commands_of_print by exact Hp. exact Hs.
    - intros cmd s Hs. unfold spawn, commands_of. simpl.
      rewrite flat_map_app. simpl. unfold commands_of in Hs. now rewrite Hs.
    - reflexivity. }
  subst st. destruct (check_targets _ _ _ _ _ _); exact Hh.
Qed.

End RunFacts.

Lemma phantom_for_each_region_witness :
  check_targets loads_info one_error_editor default_settings main_view
    [("/p/src/lib.rs", "--lib")] initial_run = Done lib_state /\
  List.length (phantoms_of main_view lib_state) = 3 /\
  List.length (regions_of main_view lib_state) = 3 /\
  draw_region_highlights (regions_by_view lib_state)
  = [(main_view, "rust-invalid", [mkRegion 320 329; mkRegion 320 329], "invalid");
     (main_view, "rust-info", [mkRegion 320 329], "info")].
Proof.
  assert (check_targets loads_info one_error_editor default_settings main_view
            [("/p/src/lib.rs", "--lib")] initial_run = Done lib_state) as H
    by (vm_compute; reflexivity).
  pose proof (phantom_for_each_region loads_info one_error_editor default_settings main_view
                _ _ H main_view) as Hc.
  split; [exact H|]. split; [reflexivity|]. split; [rewrite <- Hc; reflexivity|reflexivity].
Defined.

(** ** Rendering of messages *)

Lemma occurs_append (c : ascii) (s t : string) :
  occurs c (s ++ t) = occurs c s || occurs c t.
Proof. induction s as [|x s IH]; simpl; [reflexivity|]. now rewrite IH, orb_assoc. Qed.

Lemma occurs_replace (x c : ascii) (by_ s : string) :
  occurs x (replace c by_ s)
  = (occurs c s && occurs x by_) || (negb (x =? c)%char && occurs x s).
Proof.
  induction s as [|y s IH]; simpl; [now rewrite andb_false_r|].
  destruct (y =? c)%char eqn:Eyc; simpl.
  - apply Ascii.eqb_eq in Eyc. subst y. rewrite occurs_append, IH.
    rewrite (Ascii.eqb_sym c x).
    destruct (x =? c)%char, (occurs x by_), (occurs c s), (occurs x s); reflexivity.
  - rewrite IH. destruct (y =? x)%char eqn:Eyx; simpl.
    + apply Ascii.eqb_eq in Eyx. subst y. rewrite Eyc. simpl.
      now rewrite orb_true_r.
    + reflexivity.
Qed.

Lemma replace_absent (c : ascii) (by_ s : string) :
  occurs c s = false -> replace c by_ s = s.
Proof.
  induction s as [|y s IH]; simpl; [reflexivity|].
  destruct (y =? c)%char; simpl; [discriminate|]. intros H. now rewrite IH.
Qed.

(** X14.  The text of a phantom is safe markup that keeps its layout: the
    escaped message holds no angle bracket, the rendered message holds
    no space and no newline (they have become [&nbsp;] and [<br>]), and
    a message without ampersand, angle bracket, space or newline is
    rendered as it is. *)
Theorem render_safe (message : string) :
  occurs "<" (html_escape message) = false /\
  occurs ">" (html_escape message) = false /\
  occurs " " (render message) = false /\
  occurs "010" (render message) = false /\
  (occurs "&" message = false -> occurs "<" message = false ->
   occurs ">" message = false -> occurs " " message = false ->
   occurs "010" message = false -> render message = message).
Proof.
  unfold render, html_escape.
  split; [|split; [|split; [|split]]];
    try (rewrite !occurs_replace; simpl;
         repeat match goal with
                | |- context [occurs ?c message] => destruct (occurs c message)
                end; reflexivity).
  - intros Ha Hl Hg Hs Hn.
    rewrite (replace_absent "&" "&amp;" message Ha).
    rewrite (replace_absent "<" "&lt;" message Hl).
    rewrite (replace_absent ">" "&gt;" message Hg).
    rewrite (replace_absent "010" "<br>" message Hn).
    now rewrite (replace_absent " " "&nbsp;" message Hs).
Qed.

Lemma render_safe_witness :
  occurs "&" "E0308" = false /\ render "E0308" = "E0308" /\
  render ("a < b" ++ newline ++ "  ^") = "a&nbsp;&lt;&nbsp;b<br>&nbsp;&nbsp;^".
Proof.
  split; [reflexivity|]. split; [|reflexivity].
  exact (proj2 (proj2 (proj2 (proj2 (render_safe "E0308"))))
           eq_refl eq_refl eq_refl eq_refl eq_refl).
Defined.

(** ** Records without spans, primary spans *)

(** The two session messages that are not worth showing. *)
Definition noise (imsg : string) : bool :=
  startswith imsg "aborting due to" || startswith imsg "cannot continue".

Section Messages.

Variable ed : Editor.
Variable settings : Settings.
Variable view_of_interest : View.
Variable target_src_path : string.

Local Abbreviation walk := (add_error_phantoms ed settings view_of_interest target_src_path).
Local Abbreviation walk_children :=
  (recurse_children ed settings view_of_interest target_src_path).
Local Abbreviation own := (own_part ed settings view_of_interest target_src_path).

(** X11.  A record without spans whose message begins with [aborting due to]
    or [cannot continue] is noise only at top level: met without an
    anchor it has no effect of its own, so with no children nothing at
    all happens, not even a line on the console; met under an anchor,
    and with a colour for its level that holds no brace, it is shown
    like any other note: its phantom is added to the view of the anchor,
    placed for the region of the anchor, and the anchor stays. *)
Theorem noise_suppressed_at_top_level (info : Info) (st : Run) :
  spans info = [] ->
  noise (message info) = true ->
  (parent_info st = None ->
   (children info = [] -> walk info st = Done st) /\
   (filtered settings info st = false -> walk info st = walk_children (children info) st)) /\
  (forall view region,
     parent_info st = Some (view, region) ->
     brace_free (base_color settings info) = true ->
     exists st1,
       own info st = Done st1 /\
       parent_info st1 = Some (view, region) /\
       phantoms st1 = (phantoms st ++ [note_phantom ed settings view region info])%list).
Proof.
  intros Hs Hn. split.
  - intros Hp.
    assert (own info st = Done st) as Hown.
    { unfold own_part, spanless. rewrite Hs, Hp. unfold noise in Hn. now rewrite Hn. }
    split.
    + intros Hc. rewrite add_error_phantoms_unfold, Hown, Hc.
      now destruct (filtered settings info st).
    + intros Hf. now rewrite add_error_phantoms_unfold, Hf, Hown.
  - intros view region Hp Hb. unfold own_part, spanless. rewrite Hs, Hp.
    destruct (add_primary_message_shown ed settings view_of_interest info view region st Hb)
      as [st1 [E1 [Hp1 Hs1]]].
    exists st1. rewrite E1. now split.
Qed.

(** X12.  A session message, that is a top-level record without spans that
    is not noise, goes to the end of the target's source file when that
    file is open and the colour for its level holds no brace: its
    phantom is added to that view, placed for the empty region at the
    end of the buffer, which becomes the anchor, whatever the children
    of the record.  When moreover no descendant of the record has a span
    and neither colour holds a brace, the whole tree is shown there, one
    phantom per record, in the order of the walk. *)
Theorem session_messages_shown (info : Info) (st : Run) (view : View) :
  parent_info st = None ->
  filtered settings info st = false ->
  spans info = [] ->
  noise (message info) = false ->
  find_open_file ed (realpath ed target_src_path) = Some view ->
  let bottom := mkRegion (size ed view) (size ed view) in
  (brace_free (base_color settings info) = true ->
   exists st1,
     own info st = Done st1 /\
     parent_info st1 = Some (view, bottom) /\
     phantoms st1 = (phantoms st ++ [note_phantom ed settings view bottom info])%list) /\
  (plain_colours settings = true ->
   spanless_tree info = true ->
   exists st',
     walk info st = Done st' /\
     parent_info st' = Some (view, bottom) /\
     phantoms st'
     = (phantoms st ++ map (note_phantom ed settings view bottom) (preorder info))%list).
Proof.
  intros Hp Hf Hs Hn Hv bottom.
  assert (brace_free (base_color settings info) = true ->
          exists st1,
            own info st = Done st1 /\
            parent_info st1 = Some (view, bottom) /\
            phantoms st1 = (phantoms st ++ [note_phantom ed settings view bottom info])%list)
    as Hown.
  { intros Hb. unfold own_part, spanless. rewrite Hs, Hp.
    unfold noise in Hn. rewrite Hn, Hv. cbn [negb]. fold bottom.
    destruct (add_primary_message_shown ed settings view_of_interest info view bottom st Hb)
      as [st1 [E1 [Hp1 Hs1]]].
    exists st1. rewrite E1. now split. }
  split; [exact Hown|]. intros Hc Ht.
  destruct (Hown (plain_base_color settings info Hc)) as [st1 [E1 [Hp1 Hs1]]].
  rewrite spanless_tree_unfold, Hs in Ht. rewrite preorder_unfold.
  rewrite add_error_phantoms_unfold, Hf, E1. cbn [and_then].
  assert (Forall (fun c => forall st0,
            parent_info st0 = Some (view, bottom) -> spanless_tree c = true ->
            exists st', walk c st0 = Done st' /\
              parent_info st' = Some (view, bottom) /\
              phantoms st'
              = (phantoms st0 ++ map (note_phantom ed settings view bottom) (preorder c))%list)
            (children info)) as Hall.
  { apply Forall_forall. intros c _ st0.
    exact (spanless_tree_shown ed settings view_of_interest target_src_path c view bottom
             Hc st0). }
  destruct (recurse_children_shown ed settings view_of_interest target_src_path
              (children info) view bottom Hall Ht st1 Hp1) as [st2 [E2 [Hp2 Hs2]]].
  exists st2. split; [exact E2|]. split; [exact Hp2|].
  rewrite Hs2, Hs1. simpl. now rewrite <- app_assoc.
Qed.

(** X10.  The message of a record is not lost for a primary span that
    resolves.  When the file of the span is not open, the message is
    printed to the console.  When it is open and the colour for the
    level of the record holds no brace, the message is shown in the view
    of that file by a phantom placed for the region of the span; this
    holds however the processing of the span ends afterwards. *)
Theorem primary_message_not_dropped (info : Info) (span0 span : Span) (st : Run) :
  resolve_span span0 = Some span ->
  is_primary span0 = true ->
  let st' := final (process_span ed settings view_of_interest info span0 st) in
  match find_open_file ed (realpath ed (file_name span)) with
  | Some view =>
      brace_free (base_color settings info) = true ->
      In (primary_phantom ed settings info view (span_region ed view span)) (phantoms st')
  | None => In (SilentMessage (level info) (message info)) (console st')
  end.
Proof.
  intros Hr Hp st'. subst st'. unfold process_span. rewrite Hr, Hp.
  unfold anchor_span.
  destruct (find_open_file ed (realpath ed (file_name span))) as [view|].
  - intros Hb. set (region := span_region ed view span).
    set (p := primary_phantom ed settings info view region).
    assert (exists st1,
              (if truthy (label span)
               then add_message ed settings view_of_interest info view region (label span)
                      EmptyString st
               else if negb true
                    then Raised (ValueError "Unexpected span with no label")
                           (print (PPrint info) st)
                    else Done st) = Done st1) as [st1 ->].
    { destruct (truthy (label span)) eqn:El; [|now exists st].
      destruct (label span) as [lab|]; [|discriminate].
      rewrite add_message_plain by exact Hb. now eexists. }
    cbn [and_then].
    destruct (add_primary_message_shown ed settings view_of_interest info view region st1 Hb)
      as [st2 [E2 [_ Hs2]]].
    rewrite E2. cbn [and_then].
    assert (In p (phantoms st2)) as Hin
      by (rewrite Hs2; apply in_app_iff; right; now left).
    destruct (truthy (suggested_replacement span)); [|exact Hin].
    destruct (add_message_phantoms ed settings view_of_interest info view region
                (rendered info) EmptyString st2) as [l [E _]].
    rewrite E. apply in_app_iff. now left.
  - simpl. unfold report_silent_message.
    destruct (truthy (label span)); simpl; rewrite ?in_app_iff; simpl; intuition.
Qed.

End Messages.

Lemma noise_suppressed_at_top_level_witness :
  let info := mkInfo "error" "aborting due to previous error" None [] [] None in
  let st := mkRun false [] (Some (main_view, mkRegion 320 329)) [] [] [] in
  spans info = [] /\ noise (message info) = true /\
  add_error_phantoms main_editor default_settings main_view "/p/src/main.rs" info initial_run
  = Done initial_run /\
  brace_free (base_color default_settings info) = true /\
  exists st1,
    own_part main_editor default_settings main_view "/p/src/main.rs" info st = Done st1 /\
    parent_info st1 = Some (main_view, mkRegion 320 329) /\
    phantoms st1
    = [note_phantom main_editor default_settings main_view (mkRegion 320 329) info].
Proof.
  intros info st. split; [reflexivity|]. split; [reflexivity|]. split.
  - exact (proj1 (proj1 (noise_suppressed_at_top_level main_editor default_settings main_view
                           "/p/src/main.rs" info initial_run eq_refl eq_refl) eq_refl)
             eq_refl).
  - split; [reflexivity|].
    exact (proj2 (noise_suppressed_at_top_level main_editor default_settings main_view
                    "/p/src/main.rs" info st eq_refl eq_refl)
             main_view (mkRegion 320 329) eq_refl eq_refl).
Defined.

Lemma session_messages_shown_witness :
  let info := mkInfo "error" "main function not found" None []
                [mkInfo "note" "the main function must be defined at the crate level" None
                   [] [] None] None in
  plain_colours default_settings = true /\
  exists st',
    add_error_phantoms main_editor default_settings main_view "/p/src/main.rs" info
      initial_run = Done st' /\
    parent_info st' = Some (main_view, mkRegion 800 800) /\
    phantoms st'
    = map (note_phantom main_editor default_settings main_view (mkRegion 800 800))
          (preorder info).
Proof.
  intros info. split; [reflexivity|].
  exact (proj2 (session_messages_shown main_editor default_settings main_view "/p/src/main.rs"
                  info initial_run main_view eq_refl eq_refl eq_refl eq_refl eq_refl)
           eq_refl eq_refl).
Defined.

Lemma primary_message_not_dropped_witness :
  let span := mkSpan "/p/src/other.rs" 2 2 1 8 true None None None in
  let open := mkSpan "/p/src/main.rs" 2 2 1 8 true None (Some "_x") None in
  let info := mkInfo "warning" "unused variable" None [span] [] None in
  resolve_span span = Some span /\ is_primary span = true /\
  In (SilentMessage "warning" "unused variable")
     (console (final (process_span main_editor default_settings main_view info span
                        initial_run))) /\
  brace_free (base_color default_settings info) = true /\
  (exists st', process_span main_editor default_settings main_view info open initial_run
               = Raised AttributeError st') /\
  In (primary_phantom main_editor default_settings info main_view (mkRegion 80 87))
     (phantoms (final (process_span main_editor default_settings main_view info open
                         initial_run))).
Proof.
  intros span open info. split; [reflexivity|]. split; [reflexivity|]. split.
  - exact (primary_message_not_dropped main_editor default_settings main_view info span span
             initial_run eq_refl eq_refl).
  - split; [reflexivity|]. split; [eexists; vm_compute; reflexivity|].
    exact (primary_message_not_dropped main_editor default_settings main_view info open open
             initial_run eq_refl eq_refl eq_refl).
Defined.

(** ** The target loop, further *)

Section LoopFacts.

Variable json_loads : string -> option Info.
Variable ed : Editor.
Variable settings : Settings.
Variable view : View.

Lemma add_infos_hidden (target_src : string) (infos : list Info) (st : Run) :
  hide_warnings settings = true ->
  Forall (fun info => (level info =? "error") = false) infos ->
  add_infos ed settings view target_src infos st
  = Done (match infos with [] => st | _ :: _ => fresh_parent st end).
Proof.
  intros Hh Hall. revert st. induction Hall as [|info rest Hl _ IH]; intros st; [reflexivity|].
  simpl. rewrite add_error_phantoms_unfold.
  unfold filtered at 1. rewrite Hl, Hh. simpl. rewrite IH.
  now destruct rest.
Qed.

(** X19.  With warnings hidden, a target whose diagnostics are all below the
    level of an error leaves no phantom and no region, does not set the
    flag, and so does not end the run: the loop goes on to the next
    target. *)
Theorem hidden_warnings_do_not_stop (target : Invocation) (rest : list Invocation)
  (infos : list Info) (st st1 : Run) :
  hide_warnings settings = true ->
  this_view_found st = false ->
  run_cargo json_loads ed (rustc_args settings (snd target)) st = (Ok infos, st1) ->
  Forall (fun info => (level info =? "error") = false) infos ->
  exists st2,
    check_targets json_loads ed settings view (target :: rest) st
    = check_targets json_loads ed settings view rest st2 /\
    phantoms st2 = phantoms st /\
    regions_by_view st2 = regions_by_view st /\
    this_view_found st2 = false /\
    spawned st2 = (spawned st ++ [cargo_command settings target])%list.
Proof.
  intros Hh Hflag Hrun Hall. destruct target as [target_src target_args].
  pose proof (run_cargo_effect json_loads ed (rustc_args settings target_args) st)
    as [Hs [Hf Hp]].
  cbv zeta in Hs, Hf, Hp.
  assert (regions_by_view (snd (run_cargo json_loads ed (rustc_args settings target_args) st))
          = regions_by_view st) as Hreg.
  { unfold run_cargo. destruct (cargo ed _ _) as [output returncode].
    unfold decode_utf8. destruct (utf8_valid output); [|reflexivity].
    destruct (parse_lines json_loads (split output) []) as [[|j records]|e]; simpl;
      [destruct (negb (returncode =? 0)%Z)|..]; reflexivity. }
  simpl snd in Hrun. simpl check_targets. rewrite Hrun in *. simpl snd in *.
  rewrite (add_infos_hidden target_src infos st1 Hh Hall). simpl and_then.
  exists (match infos with [] => st1 | _ :: _ => fresh_parent st1 end).
  assert (this_view_found (match infos with [] => st1 | _ :: _ => fresh_parent st1 end)
          = false) as Hf2 by (destruct infos; simpl; congruence).
  rewrite Hf2. split; [reflexivity|].
  destruct infos; simpl; auto.
Qed.

(** X18.  At the end of a run that completed, the flag [this_view_found] is
    set if and only if some phantom was added to the view that triggered
    the check. *)
Theorem flag_iff_phantom (targets : list Invocation) (st : Run) :
  check_targets json_loads ed settings view targets initial_run = Done st ->
  (this_view_found st = true <-> exists p, In p (phantoms st) /\ ph_view p = view).
Proof.
  intros Hrun.
  pose proof (check_targets_flag json_loads ed settings view targets initial_run eq_refl) as Hf.
  rewrite Hrun in Hf. simpl in Hf. rewrite Hf. rewrite existsb_exists.
  split; intros [p [Hin Hv]]; exists p; (split; [exact Hin|]); now apply Z.eqb_eq.
Qed.

End LoopFacts.

(** A cargo that reports one warning for the first target, and the error
    of [diagnostic_line] for the second. *)
Definition warning_line : string :=
  json_text ("{'message':'unused variable: `x`','code':null,'level':'warning',"
    ++ "'spans':[{'file_name':'/p/src/main.rs','line_start':2,'line_end':2,"
    ++ "'column_start':9,'column_end':10,'is_primary':true,'label':null,"
    ++ "'suggested_replacement':null,'expansion':null}],'children':[],'rendered':null}").

Definition warning_then_error_cargo : nat -> string -> string * Z :=
  fun n _ =>
    match n with
    | O => (warning_line ++ newline, 0%Z)
    | S _ => (diagnostic_line ++ newline, 101%Z)
    end.

Definition two_target_editor : Editor :=
  grid_editor [("/p/src/main.rs", main_view)] warning_then_error_cargo.

Definition warning_records : list Info :=
  Eval vm_compute in
    match loads_info warning_line with
    | Some info => [info]
    | None => []
    end.

Lemma hidden_warnings_do_not_stop_witness :
  let lib := ("/p/src/lib.rs", "--lib") in
  let bin := ("/p/src/main.rs", "--bin main") in
  List.length warning_records = 1 /\
  exists st1 st2,
    run_cargo loads_info two_target_editor (rustc_args hide_warnings_settings (snd lib))
      initial_run = (Ok warning_records, st1) /\
    check_targets loads_info two_target_editor hide_warnings_settings main_view [lib; bin]
      initial_run
    = check_targets loads_info two_target_editor hide_warnings_settings main_view [bin] st2 /\
    phantoms st2 = [] /\
    spawned (final (check_targets loads_info two_target_editor hide_warnings_settings
                      main_view [lib; bin] initial_run))
    = [cargo_command hide_warnings_settings lib; cargo_command hide_warnings_settings bin].
Proof.
  intros lib bin. split; [reflexivity|].
  eexists.
  assert (run_cargo loads_info two_target_editor (rustc_args hide_warnings_settings (snd lib))
            initial_run
          = (Ok warning_records,
             snd (run_cargo loads_info two_target_editor
                    (rustc_args hide_warnings_settings (snd lib)) initial_run))) as Hrun
    by (vm_compute; reflexivity).
  destruct (hidden_warnings_do_not_stop loads_info two_target_editor hide_warnings_settings
              main_view lib [bin] warning_records initial_run _ eq_refl eq_refl Hrun
              ltac:(repeat constructor)) as [st2 [Hc [Hp _]]].
  exists st2. split; [exact Hrun|]. split; [exact Hc|]. split; [exact Hp|].
  vm_compute. reflexivity.
Defined.

Lemma flag_iff_phantom_witness :
  check_targets loads_info one_error_editor default_settings main_view
    [("/p/src/lib.rs", "--lib")] initial_run = Done lib_state /\
  (this_view_found lib_state = true <->
   exists p, In p (phantoms lib_state) /\ ph_view p = main_view).
Proof.
  assert (check_targets loads_info one_error_editor default_settings main_view
            [("/p/src/lib.rs", "--lib")] initial_run = Done lib_state) as H
    by (vm_compute; reflexivity).
  split; [exact H|].
  exact (flag_iff_phantom loads_info one_error_editor default_settings main_view _ _ H).
Defined.

(** ** The command line of a check *)

Lemma prefix_append_l (n a b : string) :
  String.prefix n a = true -> String.prefix n (a ++ b) = true.
Proof.
  revert a. induction n as [|c n IH]; intros a; [now destruct (a ++ b)|].
  destruct a as [|x a]; cbn [String.prefix append]; [discriminate|].
  destruct (ascii_dec c x); [apply IH|discriminate].
Qed.

Lemma contains_append_l (n a b : string) :
  contains n a = true -> contains n (a ++ b) = true.
Proof.
  induction a as [|x a IH]; cbn [contains append].
  - rewrite orb_false_r. intros H.
    destruct n; [now destruct b|]. destruct b; discriminate.
  - intros H. apply orb_true_iff in H as [H|H].
    + change (String x (a ++ b)) with (String x a ++ b).
      now rewrite (prefix_append_l n (String x a) b H).
    + rewrite (IH H). apply orb_true_r.
Qed.

Lemma contains_append_r (n a b : string) :
  contains n b = true -> contains n (a ++ b) = true.
Proof.
  intros H. induction a as [|x a IH]; [exact H|].
  cbn [contains append]. rewrite IH. apply orb_true_r.
Qed.

(** X8.  Unless the setting [rust_syntax_checking_include_tests] is switched
    off, the command line of a check always asks for the tests: it
    mentions [--test]; and when the arguments of the target mention
    [--test] themselves, the flag is not passed a second time. *)
Theorem test_flag_requested (settings : Settings) (inv : Invocation) :
  get (rust_syntax_checking_include_tests settings) true = true ->
  contains "--test" (cargo_command settings inv) = true /\
  (contains "--test" (snd inv) = true ->
   rustc_args settings (snd inv)
   = ["rustc"; snd inv; "--"; "-Zno-trans"; "-Zunstable-options"; "--error-format=json"]).
Proof.
  intros Hs. unfold cargo_command, rustc_args. rewrite Hs. simpl andb.
  destruct (contains "--test" (snd inv)) eqn:Ec; simpl negb; cbv iota.
  - split; [|reflexivity].
    cbn [String.concat app]. apply (contains_append_r _ "cargo rustc ").
    now apply contains_append_l.
  - split; [|discriminate].
    cbn [String.concat app].
    apply (contains_append_r _ "cargo rustc "). apply contains_append_r. reflexivity.
Qed.

Lemma test_flag_requested_witness :
  get (rust_syntax_checking_include_tests default_settings) true = true /\
  cargo_command default_settings ("/p/tests/it.rs", "--test it")
  = "cargo rustc --test it -- -Zno-trans -Zunstable-options --error-format=json" /\
  contains "--test" (cargo_command default_settings ("/p/src/lib.rs", "--lib")) = true.
Proof.
  split; [reflexivity|]. split; [reflexivity|].
  exact (proj1 (test_flag_requested default_settings ("/p/src/lib.rs", "--lib") eq_refl)).
Defined.

(** ** The whole resolver: [determine_targets] *)

(** [path.split('/')] *)
Fixpoint split_sep (path : string) : list string :=
  match path with
  | EmptyString => [EmptyString]
  | String c rest =>
      if is_sep c then EmptyString :: split_sep rest
      else match split_sep rest with
           | [] => [String c EmptyString]
           | comp :: comps => String c comp :: comps
           end
  end.

(** [os.path.isabs] *)
Definition isabs (path : string) : bool := startswith path "/".

(** One step of the loop [for comp in comps] of [os.path.normpath]. *)
Definition normpath_step (initial_slashes : nat) (new_comps : list string) (comp : string)
  : list string :=
  if (comp =? EmptyString) || (comp =? ".") then new_comps
  else if negb (comp =? "..")
          || ((initial_slashes =? 0)%nat && match new_comps with [] => true | _ => false end)
          || match new_comps with [] => false | _ => last new_comps EmptyString =? ".." end
       then (new_comps ++ [comp])%list
       else match new_comps with
            | [] => new_comps
            | _ :: _ => removelast new_comps
            end.

(** [os.path.normpath] *)
Definition normpath (path : string) : string :=
  if path =? EmptyString then "."
  else
    let initial_slashes :=
      if startswith path "/" then
        if startswith path "//" && negb (startswith path "///") then 2 else 1
      else 0 in
    let comps := fold_left (normpath_step initial_slashes) (split_sep path) [] in
    let joined := String.concat "/" comps in
    let result := String.concat EmptyString (repeat "/" initial_slashes) ++ joined in
    if result =? EmptyString then "." else result.

(** A package of [cargo metadata]:
    [{'manifest_path': ..., 'targets': [...], ...}]. *)
Record Package : Type := mkPackage {
  manifest_path : string;
  package_targets : list Target
}.

(** What [determine_targets] prints itself. *)
Inductive Notice : Type :=
| FailedToFindTarget (file_name : string).

(** The loop [for target in targets] that makes the source paths
    absolute and normal. *)
Definition fix_src_path (root_path : string) (target : Target) : Target :=
  mkTarget (kind target) (name target)
    (normpath (if negb (isabs (src_path target))
               then join root_path (src_path target)
               else src_path target)).

(** The loop [for package in output[0]['packages']]. *)
Fixpoint packages_targets (packages : list Package) (file_name : string)
  : result (option (list Invocation)) :=
  match packages with
  | [] => Ok None
  | package :: rest =>
      let root_path := dirname (manifest_path package) in
      let targets := map (fix_src_path root_path) (package_targets package) in
      exact <- _targets_exact_match targets file_name ;;
      match exact with
      | Some r => Ok (Some r)
      | None =>
          longest <- _targets_longest_matches targets file_name ;;
          match longest with
          | [] => packages_targets rest file_name
          | _ :: _ => Ok (Some longest)
          end
      end
  end.

Section Resolver.

(** [json.loads] followed by the reading of the packages of the record
    in the wire format of [cargo metadata]. *)
Variable metadata_loads : string -> option (list Package).
Variable ed : Editor.

Definition determine_targets (settings : Settings) (file_name : string) (st : Run)
  : result (list Invocation) * Run * list Notice :=
  match _targets_manual_config settings file_name with
  | Some r => (Ok r, st, [])
  | None =>
      match run_cargo metadata_loads ed ["metadata"; "--no-deps"] st with
      | (Raise e, st1) => (Raise e, st1, [])
      | (Ok [], st1) => (Ok [], st1, [])
      | (Ok (packages :: _), st1) =>
          match packages_targets packages file_name with
          | Raise e => (Raise e, st1, [])
          | Ok (Some r) => (Ok r, st1, [])
          | Ok None => (Ok [], st1, [FailedToFindTarget file_name])
          end
      end
  end.

End Resolver.

(** ** The save handler *)

(** The calls the plugin makes on views. *)
Inductive Call : Type :=
| SetStatus (view : View) (key value : string)
| EraseStatus (view : View) (key : string)
| ErasePhantoms (view : View) (key : string)
| EraseRegions (view : View) (key : string)
| AddPhantom (key : string) (phantom : Phantom)
| AddRegions (call : View * string * list Region * string).

(** [hide_phantoms(window)], for the views of the window. *)
Definition hide_phantoms (views : list View) : list Call :=
  flat_map (fun view => [ErasePhantoms view "rust-syntax-phantom";
                         EraseRegions view "rust-invalid";
                         EraseRegions view "rust-info"]) views.

Section Handler.

Variable metadata_loads : string -> option (list Package).
Variable json_loads : string -> option Info.
Variable ed : Editor.
Variable settings : Settings.

(** [on_post_save_async] as a whole, for the view [view] of the file
    [file_name] in a window with the views [views]: the calls made on
    views, in order, the outcome of the check when one was started, and
    what the resolver printed.  [version] is [int(sublime.version())] and
    [scope_name] is [view.scope_name(0)]. *)
Definition on_post_save (version : Z) (scope_name : string) (views : list View)
  (view : View) (file_name : string)
  : list Call * option Outcome * list Notice :=
  if (version <? 3118)%Z then ([], None, [])
  else
    let enabled := get (rust_syntax_checking settings) false in
    if enabled && contains "source.rust" scope_name then
      let status := SetStatus view "rust-check" "Rust syntax check running..." in
      let erase := EraseStatus view "rust-check" in
      match determine_targets metadata_loads ed settings file_name initial_run with
      | (Raise e, st, notices) =>
          ((status :: hide_phantoms views ++ [erase])%list, Some (Raised e st), notices)
      | (Ok targets, st, notices) =>
          match check_targets json_loads ed settings view targets st with
          | Done st' =>
              ((status :: hide_phantoms views
                  ++ map (AddPhantom "rust-syntax-phantom") (phantoms st')
                  ++ map AddRegions (draw_region_highlights (regions_by_view st'))
                  ++ [erase])%list,
               Some (Done st'), notices)
          | Raised e st' =>
              ((status :: hide_phantoms views
                  ++ map (AddPhantom "rust-syntax-phantom") (phantoms st')
                  ++ [erase])%list,
               Some (Raised e st'), notices)
          end
      end
    else if negb enabled then (hide_phantoms views, None, [])
    else ([], None, []).

End Handler.

Example normpath_examples :
  map normpath ["/p/./src//lib.rs"; "/p/src/../build.rs"; "//p/x"; "///p/x"; "../a/.."; "a/..";
                EmptyString; "/.."]
  = ["/p/src/lib.rs"; "/p/build.rs"; "//p/x"; "/p/x"; ".."; "."; "."; "/"].
Proof. reflexivity. Qed.

(** ** Properties of the resolver and of the save handler *)

Lemma run_cargo_frame {J : Type} (loads : string -> option J) (ed : Editor)
  (args : list string) (st : Run) :
  let st' := snd (run_cargo loads ed args st) in
  this_view_found st' = this_view_found st /\
  regions_by_view st' = regions_by_view st /\
  parent_info st' = parent_info st /\
  phantoms st' = phantoms st /\
  spawned st' = (spawned st ++ [String.concat " " ("cargo" :: args)])%list.
Proof.
  unfold run_cargo. cbv zeta.
  destruct (cargo ed _ _) as [output returncode].
  unfold decode_utf8. destruct (utf8_valid output); [|simpl; auto].
  destruct (parse_lines loads (split output) []) as [[|j records]|e]; simpl;
    [destruct (negb (returncode =? 0)%Z)|..]; simpl; auto.
Qed.

Lemma packages_targets_origin (packages : list Package) (file_name : string)
  (r : list Invocation) :
  packages_targets packages file_name = Ok (Some r) ->
  r <> [] /\
  exists package, In package packages /\
    forall inv, In inv r ->
      exists t, In t (package_targets package) /\
        _target_to_args (fix_src_path (dirname (manifest_path package)) t) = Ok (Some inv).
Proof.
  induction packages as [|package rest IH]; simpl; [discriminate|].
  set (targets := map (fix_src_path (dirname (manifest_path package)))
                      (package_targets package)).
  assert (forall inv t', In t' targets -> _target_to_args t' = Ok (Some inv) ->
            exists t, In t (package_targets package) /\
              _target_to_args (fix_src_path (dirname (manifest_path package)) t)
              = Ok (Some inv)) as Hback.
  { intros inv t' Hin Ha. apply in_map_iff in Hin as [t [<- Hin]]. exists t. auto. }
  destruct (_targets_exact_match targets file_name) as [[e|]|ex] eqn:Ee; simpl;
    [| |discriminate].
  - intros [= <-]. apply exact_match_origin in Ee as [args [t' [-> [Hin [_ Ha]]]]].
    split; [discriminate|]. exists package. split; [now left|].
    intros inv [<-|[]]. now apply (Hback _ t').
  - destruct (_targets_longest_matches targets file_name) as [[|a l]|ex] eqn:El; simpl;
      [| |discriminate].
    + intros H. destruct (IH H) as [Hne [p [Hp Hall]]].
      split; [exact Hne|]. exists p. split; [now right|exact Hall].
    + intros [= <-]. split; [discriminate|]. exists package. split; [now left|].
      intros inv Hin.
      destruct (longest_matches_form targets file_name _ El) as [n [l' [Hl' Hr]]].
      rewrite Hr in Hin. apply in_lib_over_bin in Hin.
      destruct Hl' as [->| ->]; [destruct Hin|].
      apply in_invocations_at in Hin as [t' [Ht' [_ Ha]]]. now apply (Hback _ t').
Qed.

Section ResolverFacts.

Variable metadata_loads : string -> option (list Package).
Variable json_loads : string -> option Info.
Variable ed : Editor.
Variable settings : Settings.

(** X7.  What [determine_targets] returns is sound.  With a matching manual
    configuration it is that configuration's single invocation, and no
    process is spawned.  Otherwise exactly one process is spawned,
    [cargo metadata --no-deps]; the invocations returned all come from
    the targets of one package of its first record, with their source
    paths made absolute and normal; and the failure to find a target is
    printed only together with an empty result. *)
Theorem determine_targets_sound (file_name : string) (st st' : Run)
  (r : list Invocation) (notices : list Notice) :
  determine_targets metadata_loads ed settings file_name st = (Ok r, st', notices) ->
  match _targets_manual_config settings file_name with
  | Some m => r = m /\ (exists inv, r = [inv]) /\ st' = st /\ notices = []
  | None =>
      spawned st' = (spawned st ++ ["cargo metadata --no-deps"])%list /\
      (notices <> [] -> r = []) /\
      (r <> [] ->
       exists packages more package,
         fst (run_cargo metadata_loads ed ["metadata"; "--no-deps"] st)
         = Ok (packages :: more) /\
         In package packages /\
         forall inv, In inv r ->
           exists t, In t (package_targets package) /\
             _target_to_args (fix_src_path (dirname (manifest_path package)) t)
             = Ok (Some inv))
  end.
Proof.
  unfold determine_targets.
  destruct (_targets_manual_config settings file_name) as [m|] eqn:Em.
  - intros [= <- <- <-]. split; [reflexivity|]. split; [|now split].
    exact (manual_config_singleton settings file_name m Em).
  - pose proof (run_cargo_frame metadata_loads ed ["metadata"; "--no-deps"] st)
      as [_ [_ [_ [_ Hs]]]]. cbv zeta in Hs.
    destruct (run_cargo metadata_loads ed ["metadata"; "--no-deps"] st)
      as [[[|packages more]|e] st1]; simpl snd in Hs; simpl fst.
    + intros [= <- <- <-]. split; [exact Hs|]. split; [reflexivity|]. intros H. now elim H.
    + destruct (packages_targets packages file_name) as [[found_|]|e] eqn:Ep.
      * intros [= <- <- <-]. split; [exact Hs|]. split; [intros H; now elim H|].
        intros _. apply packages_targets_origin in Ep as [_ [package [Hin Hall]]].
        exists packages, more, package. auto.
      * intros [= <- <- <-]. split; [exact Hs|]. split; [reflexivity|]. intros H. now elim H.
      * discriminate.
    + discriminate.
Qed.

Lemma check_targets_one (view : View) (t : Invocation) (st : Run) :
  spawned (final (check_targets json_loads ed settings view [t] st))
  = (spawned st ++ [cargo_command settings t])%list.
Proof.
  destruct t as [target_src target_args]. simpl check_targets.
  unfold cargo_command. simpl snd.
  pose proof (run_cargo_frame json_loads ed (rustc_args settings target_args) st)
    as [_ [_ [_ [_ Hs]]]]. cbv zeta in Hs.
  destruct (run_cargo json_loads ed (rustc_args settings target_args) st) as [[infos|e] st1];
    simpl snd in Hs; [|exact Hs].
  pose proof (add_infos_spawned ed settings view target_src infos st1) as Ha.
  destruct (add_infos ed settings view target_src infos st1) as [st2|e st2];
    cbn [final and_then] in Ha |- *; [|now rewrite Ha, Hs].
  destruct (this_view_found st2); cbn [final check_targets]; now rewrite Ha, Hs.
Qed.

(** X20.  With a manual configuration for the file, a save of a Rust file with
    checking enabled spawns exactly one process, the check of the
    configured invocation; [cargo metadata] is never run and nothing is
    printed by the resolver. *)
Theorem manual_check_spawns_one (version : Z) (scope_name : string) (views : list View)
  (view : View) (file_name : string) (r : list Invocation) :
  (3118 <= version)%Z ->
  get (rust_syntax_checking settings) false = true ->
  contains "source.rust" scope_name = true ->
  _targets_manual_config settings file_name = Some r ->
  exists inv o,
    r = [inv] /\
    snd (fst (on_post_save metadata_loads json_loads ed settings version scope_name views
                view file_name)) = Some o /\
    spawned (final o) = [cargo_command settings inv] /\
    snd (on_post_save metadata_loads json_loads ed settings version scope_name views
           view file_name) = [].
Proof.
  intros Hv He Hs Hm.
  destruct (manual_config_singleton settings file_name r Hm) as [inv ->].
  unfold on_post_save, determine_targets.
  apply Z.ltb_ge in Hv. rewrite Hv, He, Hs, Hm. simpl andb. cbv iota.
  pose proof (check_targets_one view inv initial_run) as Hone.
  destruct (check_targets json_loads ed settings view [inv] initial_run) as [st'|e st'];
    simpl in Hone |- *; eexists inv, _; (split; [reflexivity|]);
    (split; [reflexivity|]); (split; [exact Hone|reflexivity]).
Qed.

(** X21.  When the resolver finds no target, a save draws nothing: between
    setting and erasing the status the handler only clears the views of
    the window; no phantom and no region exist, and the only process
    spawned is [cargo metadata --no-deps]. *)
Theorem no_target_no_check (version : Z) (scope_name : string) (views : list View)
  (view : View) (file_name : string) (st : Run) (notices : list Notice) :
  (3118 <= version)%Z ->
  get (rust_syntax_checking settings) false = true ->
  contains "source.rust" scope_name = true ->
  determine_targets metadata_loads ed settings file_name initial_run = (Ok [], st, notices) ->
  on_post_save metadata_loads json_loads ed settings version scope_name views view file_name
  = ((SetStatus view "rust-check" "Rust syntax check running..."
        :: hide_phantoms views ++ [EraseStatus view "rust-check"])%list,
     Some (Done st), notices) /\
  phantoms st = [] /\ regions_by_view st = [] /\
  spawned st = ["cargo metadata --no-deps"].
Proof.
  intros Hv He Hs Hd. unfold on_post_save.
  apply Z.ltb_ge in Hv. rewrite Hv, He, Hs, Hd. simpl andb. cbv iota.
  assert (phantoms st = [] /\ regions_by_view st = [] /\
          spawned st = ["cargo metadata --no-deps"]) as [Hp [Hr Hsp]].
  { unfold determine_targets in Hd.
    destruct (_targets_manual_config settings file_name) as [m|] eqn:Em.
    - destruct (manual_config_singleton settings file_name m Em) as [inv ->]. discriminate.
    - pose proof (run_cargo_frame metadata_loads ed ["metadata"; "--no-deps"] initial_run)
        as [_ [Hr [_ [Hp Hsp]]]]. cbv zeta in Hr, Hp, Hsp.
      destruct (run_cargo metadata_loads ed ["metadata"; "--no-deps"] initial_run)
        as [[[|packages more]|e] st1]; simpl snd in *; [| |discriminate].
      + injection Hd as <- _. auto.
      + destruct (packages_targets packages file_name) as [[found_|]|e];
          [|injection Hd as <- _; auto|discriminate].
        injection Hd as _ <- _. auto. }
  split; [|now repeat split].
  cbn [check_targets]. rewrite Hp, Hr. reflexivity.
Qed.

(** The guards of the handler.  In an editor older than build 3118 a
    save does nothing.  With checking disabled, a save of any file only
    clears the views of the window.  With checking enabled, a save of a
    file that is not Rust does nothing at all: it does not even clear
    the views.  In all three cases no process is spawned. *)
Lemma handler_guards (version : Z) (scope_name : string) (views : list View)
  (view : View) (file_name : string) :
  ((version < 3118)%Z ->
   on_post_save metadata_loads json_loads ed settings version scope_name views view file_name
   = ([], None, [])) /\
  ((3118 <= version)%Z -> get (rust_syntax_checking settings) false = false ->
   on_post_save metadata_loads json_loads ed settings version scope_name views view file_name
   = (hide_phantoms views, None, [])) /\
  ((3118 <= version)%Z -> get (rust_syntax_checking settings) false = true ->
   contains "source.rust" scope_name = false ->
   on_post_save metadata_loads json_loads ed settings version scope_name views view file_name
   = ([], None, [])).
Proof.
  unfold on_post_save. split; [|split].
  - intros H. apply Z.ltb_lt in H. now rewrite H.
  - intros H He. apply Z.ltb_ge in H. now rewrite H, He.
  - intros H He Hs. apply Z.ltb_ge in H. now rewrite H, He, Hs.
Qed.

End ResolverFacts.

(** ** What a save draws can be dismissed *)

(** A call that draws, and for which [hide_phantoms] on the views
    [views] has the matching call that erases. *)
Definition dismissable (views : list View) (c : Call) : Prop :=
  match c with
  | AddPhantom key p => In (ErasePhantoms (ph_view p) key) (hide_phantoms views)
  | AddRegions call =>
      In (EraseRegions (fst (call_key call)) (snd (call_key call))) (hide_phantoms views)
  | _ => False
  end.

(** The views that hold annotations or the anchor all belong to
    [views]. *)
Definition within (views : list View) (st : Run) : Prop :=
  (forall p, In p (phantoms st) -> In (ph_view p) views) /\
  (forall v, In v (map fst (regions_by_view st)) -> In v views) /\
  (forall v r, parent_info st = Some (v, r) -> In v views).

Lemma add_message_wf_regions (ed : Editor) (settings : Settings) (view_of_interest : View)
  (info : Info) (view : View) (region : Region) (message : option string) (extra : string)
  (st : Run) :
  wf_regions st ->
  wf_regions (final (add_message ed settings view_of_interest info view region message extra st)).
Proof.
  intros Hs.
  assert (wf_regions (recorded view_of_interest info view region st)) as Hw.
  { apply add_region_wf; [|exact Hs]. destruct (level info =? "error"); auto. }
  destruct (add_message_cases ed settings view_of_interest info view region message extra st)
    as [[c ->]|[e ->]]; exact Hw.
Qed.

Lemma add_message_within (ed : Editor) (settings : Settings) (view_of_interest : View)
  (views : list View) (info : Info) (view : View) (region : Region)
  (message : option string) (extra : string) (st : Run) :
  In view views -> within views st ->
  within views
    (final (add_message ed settings view_of_interest info view region message extra st)).
Proof.
  intros Hv [Hp [Hr Ha]]. unfold within.
  assert (forall v, In v (map fst (add_region view
                       (if level info =? "error" then "invalid" else "info")
                       region (regions_by_view st))) -> In v views) as Hr'.
  { intros v. rewrite add_region_keys.
    destruct (existsb (Z.eqb view) (map fst (regions_by_view st))); [apply Hr|].
    rewrite in_app_iff. intros [H|[<-|[]]]; [now apply Hr|exact Hv]. }
  destruct (add_message_cases ed settings view_of_interest info view region message extra st)
    as [[c ->]|[e ->]]; simpl; (split; [|split; [exact Hr'|exact Ha]]); [|exact Hp].
  intros p Hin. apply in_app_iff in Hin as [Hin|[<-|[]]]; [now apply Hp|exact Hv].
Qed.

Lemma hide_phantoms_covers (views : list View) (v : View) :
  In v views ->
  In (ErasePhantoms v "rust-syntax-phantom") (hide_phantoms views) /\
  In (EraseRegions v "rust-invalid") (hide_phantoms views) /\
  In (EraseRegions v "rust-info") (hide_phantoms views).
Proof.
  intros H. unfold hide_phantoms. repeat split; apply in_flat_map; exists v;
    (split; [exact H|simpl; auto]).
Qed.

Section Dismiss.

Variable metadata_loads : string -> option (list Package).
Variable json_loads : string -> option Info.
Variable ed : Editor.
Variable settings : Settings.

Lemma determine_targets_frame (file_name : string) (st : Run) :
  let st' := snd (fst (determine_targets metadata_loads ed settings file_name st)) in
  phantoms st' = phantoms st /\ regions_by_view st' = regions_by_view st /\
  parent_info st' = parent_info st.
Proof.
  unfold determine_targets.
  destruct (_targets_manual_config settings file_name); [simpl; auto|].
  pose proof (run_cargo_frame metadata_loads ed ["metadata"; "--no-deps"] st)
    as [_ [Hr [Ha [Hp _]]]]. cbv zeta in Hr, Ha, Hp.
  destruct (run_cargo metadata_loads ed ["metadata"; "--no-deps"] st)
    as [[[|packages more]|e] st1]; simpl snd in *; [simpl; auto| |simpl; auto].
  destruct (packages_targets packages file_name) as [[r|]|e]; simpl; auto.
Qed.

(** X22.  When the window's open files all belong to the views of the window,
    whatever a save draws can be dismissed.  The handler sets the
    status, clears the views of the window, draws, and erases the status
    last, also when the check raises; and for every phantom and every
    group of regions it draws, [hide_phantoms] on the same window makes
    the call that erases it: same view, same key. *)
Theorem drawn_is_dismissable (version : Z) (scope_name : string) (views : list View)
  (view : View) (file_name : string) :
  (forall path v, find_open_file ed path = Some v -> In v views) ->
  (3118 <= version)%Z ->
  get (rust_syntax_checking settings) false = true ->
  contains "source.rust" scope_name = true ->
  exists drawn,
    fst (fst (on_post_save metadata_loads json_loads ed settings version scope_name views
                view file_name))
    = (SetStatus view "rust-check" "Rust syntax check running..."
         :: hide_phantoms views ++ drawn ++ [EraseStatus view "rust-check"])%list /\
    Forall (dismissable views) drawn.
Proof.
  intros Hopen Hv He Hs. unfold on_post_save.
  apply Z.ltb_ge in Hv. rewrite Hv, He, Hs. simpl andb. cbv iota.
  pose proof (determine_targets_frame file_name initial_run) as [Hp0 [Hr0 Ha0]].
  cbv zeta in Hp0, Hr0, Ha0.
  destruct (determine_targets metadata_loads ed settings file_name initial_run)
    as [[[targets|e] st] notices]; simpl in Hp0, Hr0, Ha0.
  2:{ exists []. split; [reflexivity|constructor]. }
  set (P := fun s => within views s /\ wf_regions s).
  assert (P (final (check_targets json_loads ed settings view targets st))) as [Hw Hwf].
  { pose proof (check_targets_invariant json_loads ed settings view true P
                  (fun v => In v views)) as H.
    assert (holds_after true (check_targets json_loads ed settings view targets st) P) as Hh.
    { apply H.
      - exact Hopen.
      - intros s v r [[_ [_ Ha]] _] E. exact (Ha v r E).
      - intros info v region message extra s Hq [Hin Hwf]. 
        assert (P (final (add_message ed settings view info v region message extra s))) as HP
          by (split; [now apply add_message_within|now apply add_message_wf_regions]).
        destruct (add_message ed settings view info v region message extra s); exact HP.
      - intros s a Ha [[Hp [Hr _]] Hwf]. split; [|exact Hwf].
        split; [exact Hp|]. split; [exact Hr|]. intros v r E. exact (Ha v r E).
      - intros p s _ HP. exact HP.
      - intros cmd s HP. exact HP.
      - split.
        + split; [rewrite Hp0; intros p []|]. split; [rewrite Hr0; intros v []|].
          rewrite Ha0. discriminate.
        + unfold wf_regions. rewrite Hr0. split; constructor. }
    destruct (check_targets json_loads ed settings view targets st); exact Hh. }
  destruct Hw as [Hph [Hreg _]].
  assert (forall s, (forall p, In p (phantoms s) -> In (ph_view p) views) ->
            Forall (dismissable views) (map (AddPhantom "rust-syntax-phantom") (phantoms s)))
    as Hphantoms.
  { intros s Hs'. apply Forall_forall. intros c Hc.
    apply in_map_iff in Hc as [p [<- Hin]]. simpl.
    now apply hide_phantoms_covers, Hs'. }
  destruct (check_targets json_loads ed settings view targets st) as [st'|e st'];
    simpl final in *.
  - exists (map (AddPhantom "rust-syntax-phantom") (phantoms st')
            ++ map AddRegions (draw_region_highlights (regions_by_view st')))%list.
    split; [now rewrite <- app_assoc|].
    apply Forall_app. split; [now apply Hphantoms|].
    apply Forall_forall. intros c Hc. apply in_map_iff in Hc as [call [<- Hin]].
    cbn [dismissable]. destruct Hwf as [Hn Hf].
    destruct (draw_region_highlights_keys (regions_by_view st') Hn Hf) as [_ Hk].
    destruct (Hk call Hin) as [Hview Hkey]. apply Hreg in Hview.
    destruct (hide_phantoms_covers views _ Hview) as [_ [Hi Hn']].
    destruct Hkey as [-> | ->]; assumption.
  - exists (map (AddPhantom "rust-syntax-phantom") (phantoms st')).
    split; [reflexivity|]. now apply Hphantoms.
Qed.

End Dismiss.

(** ** Resolution of spans, further *)

(** X9.  Resolution is idempotent: the span it returns resolves to itself
    and is not marked as macro expansion, so no annotation is ever
    placed in a pseudo file of macros; and that span is reached from the
    given one along its expansion chain. *)
Theorem resolve_span_idempotent (s t : Span) :
  resolve_span s = Some t ->
  resolve_span t = Some t /\
  contains "macros>" (file_name t) = false /\
  exists n, expansion_chain s n t.
Proof.
  rewrite resolve_span_find. intros H.
  pose proof (find_span_r_real s t H) as Hreal.
  split; [unfold resolve_span; now rewrite Hreal|]. split; [exact Hreal|].
  revert H. induction s as [s IH] using Span_expansion_ind.
  rewrite find_span_r_unfold.
  destruct (contains "macros>" (file_name s)) eqn:Em.
  - destruct (expansion s) as [e|] eqn:Ee; [|discriminate].
    intros H. destruct (IH e eq_refl H) as [n Hn].
    exists (S n). now apply chain_hop with (e := e).
  - intros [= <-]. exists 0. apply chain_end.
Qed.

Lemma resolve_span_idempotent_witness :
  let t := mkSpan "/p/src/main.rs" 7 7 5 20 true (Some "here") None None in
  resolve_span macro_outer = Some t /\
  resolve_span t = Some t /\
  contains "macros>" (file_name t) = false /\
  exists n, expansion_chain macro_outer n t.
Proof.
  intros t. split; [reflexivity|].
  exact (resolve_span_idempotent macro_outer t eq_refl).
Defined.

(** ** A concrete project for the examples *)

(** A target and a package in the wire format of [cargo metadata]. *)
Definition target_of_json (j : json) : option Target :=
  let? m := as_object j in
  let? ks := obind (obind (lookup "kind" m) as_array) (all_some as_string) in
  let? n := obind (lookup "name" m) as_string in
  let? s := obind (lookup "src_path" m) as_string in
  Some (mkTarget ks n s).

Definition package_of_json (j : json) : option Package :=
  let? m := as_object j in
  let? mp := obind (lookup "manifest_path" m) as_string in
  let? ts := obind (obind (lookup "targets" m) as_array) (all_some target_of_json) in
  Some (mkPackage mp ts).

(** The decoder of [cargo metadata] lines: [json.loads] and the reading
    of the packages of the record. *)
Definition loads_metadata (line : string) : option (list Package) :=
  let? j := loads_json line in
  let? m := as_object j in
  obind (obind (lookup "packages" m) as_array) (all_some package_of_json).

Definition metadata_line : string :=
  json_text ("{'packages':[{'name':'p','version':'0.1.0','manifest_path':'/p/Cargo.toml',"
    ++ "'targets':[{'kind':['lib'],'name':'p','src_path':'src/lib.rs'},"
    ++ "{'kind':['bin'],'name':'main','src_path':'/p/src/./main.rs'},"
    ++ "{'kind':['custom-build'],'name':'build-script-build','src_path':'build.rs'}]}],"
    ++ "'version':1}").

(** A cargo that answers [cargo metadata] with the package [p] and any
    other command with the error of [diagnostic_line]. *)
Definition project_cargo : nat -> string -> string * Z :=
  fun _ cmd =>
    if contains "metadata" cmd then (metadata_line ++ newline, 0%Z)
    else (diagnostic_line ++ newline, 101%Z).

Definition project_editor : Editor :=
  grid_editor [("/p/src/main.rs", main_view)] project_cargo.

Definition enabled_settings : Settings :=
  mkSettings (Some true) None None None None None.

Definition manual_settings : Settings :=
  mkSettings (Some true) None None None None
    (Some [mkProject (Some "/p") (Some [("main.rs", "--bin main")])]).

Definition util_resolution : result (list Invocation) * Run * list Notice :=
  Eval vm_compute in
    determine_targets loads_metadata project_editor enabled_settings "/p/src/util.rs"
      initial_run.

Definition lost_resolution : result (list Invocation) * Run * list Notice :=
  Eval vm_compute in
    determine_targets loads_metadata project_editor enabled_settings "/q/src/util.rs"
      initial_run.

Lemma determine_targets_sound_witness :
  let st' := snd (fst util_resolution) in
  determine_targets loads_metadata project_editor enabled_settings "/p/src/util.rs" initial_run
  = (Ok [("/p/src/lib.rs", "--lib")], st', []) /\
  _targets_manual_config enabled_settings "/p/src/util.rs" = None /\
  spawned st' = ["cargo metadata --no-deps"] /\
  exists packages more package,
    fst (run_cargo loads_metadata project_editor ["metadata"; "--no-deps"] initial_run)
    = Ok (packages :: more) /\
    In package packages /\
    forall inv, In inv [("/p/src/lib.rs", "--lib")] ->
      exists t, In t (package_targets package) /\
        _target_to_args (fix_src_path (dirname (manifest_path package)) t) = Ok (Some inv).
Proof.
  intros st'.
  assert (determine_targets loads_metadata project_editor enabled_settings "/p/src/util.rs"
            initial_run = (Ok [("/p/src/lib.rs", "--lib")], st', [])) as H
    by (vm_compute; reflexivity).
  pose proof (determine_targets_sound loads_metadata project_editor enabled_settings
                _ _ _ _ _ H) as Hs.
  change (_targets_manual_config enabled_settings "/p/src/util.rs") with (@None (list Invocation))
    in Hs.
  destruct Hs as [Hsp [_ Horigin]].
  split; [exact H|]. split; [reflexivity|]. split; [exact Hsp|].
  apply Horigin. discriminate.
Defined.

Lemma manual_check_spawns_one_witness :
  _targets_manual_config manual_settings "/p/src/main.rs" = Some [("main.rs", "--bin main")] /\
  exists inv o,
    [("main.rs", "--bin main")] = [inv] /\
    snd (fst (on_post_save loads_metadata loads_info project_editor manual_settings 3126
                "source.rust " [main_view] main_view "/p/src/main.rs")) = Some o /\
    spawned (final o) = [cargo_command manual_settings inv] /\
    snd (on_post_save loads_metadata loads_info project_editor manual_settings 3126
           "source.rust " [main_view] main_view "/p/src/main.rs") = [].
Proof.
  split; [reflexivity|].
  apply (manual_check_spawns_one loads_metadata loads_info project_editor manual_settings
           3126 "source.rust " [main_view] main_view "/p/src/main.rs");
    [discriminate|reflexivity|reflexivity|reflexivity].
Defined.

Lemma no_target_no_check_witness :
  let st := snd (fst lost_resolution) in
  determine_targets loads_metadata project_editor enabled_settings "/q/src/util.rs" initial_run
  = (Ok [], st, [FailedToFindTarget "/q/src/util.rs"]) /\
  on_post_save loads_metadata loads_info project_editor enabled_settings 3126
    "source.rust " [main_view; 2%Z] 2%Z "/q/src/util.rs"
  = ([SetStatus 2%Z "rust-check" "Rust syntax check running...";
      ErasePhantoms main_view "rust-syntax-phantom";
      EraseRegions main_view "rust-invalid"; EraseRegions main_view "rust-info";
      ErasePhantoms 2%Z "rust-syntax-phantom";
      EraseRegions 2%Z "rust-invalid"; EraseRegions 2%Z "rust-info";
      EraseStatus 2%Z "rust-check"],
     Some (Done st), [FailedToFindTarget "/q/src/util.rs"]) /\
  spawned st = ["cargo metadata --no-deps"].
Proof.
  intros st.
  assert (determine_targets loads_metadata project_editor enabled_settings "/q/src/util.rs"
            initial_run = (Ok [], st, [FailedToFindTarget "/q/src/util.rs"])) as H
    by (vm_compute; reflexivity).
  destruct (no_target_no_check loads_metadata loads_info project_editor enabled_settings
              3126 "source.rust " [main_view; 2%Z] 2%Z "/q/src/util.rs" st _
              ltac:(discriminate) eq_refl eq_refl H) as [Hcalls [_ [_ Hsp]]].
  split; [exact H|]. split; [exact Hcalls|exact Hsp].
Defined.

Lemma drawn_is_dismissable_witness :
  (forall path v, find_open_file project_editor path = Some v -> In v [main_view]) /\
  exists drawn,
    fst (fst (on_post_save loads_metadata loads_info project_editor enabled_settings 3126
                "source.rust " [main_view] main_view "/p/src/main.rs"))
    = (SetStatus main_view "rust-check" "Rust syntax check running..."
         :: hide_phantoms [main_view] ++ drawn ++ [EraseStatus main_view "rust-check"])%list /\
    Forall (dismissable [main_view]) drawn /\
    List.length drawn = 5.
Proof.
  assert (forall path v, find_open_file project_editor path = Some v -> In v [main_view])
    as Hopen.
  { intros path v. unfold project_editor, grid_editor. cbn [find_open_file assoc_view].
    destruct ("/p/src/main.rs" =? path); [|discriminate].
    intros [= <-]. now left. }
  split; [exact Hopen|].
  destruct (drawn_is_dismissable loads_metadata loads_info project_editor enabled_settings
              3126 "source.rust " [main_view] main_view "/p/src/main.rs" Hopen
              ltac:(discriminate) eq_refl eq_refl) as [drawn [Hc Hd]].
  exists drawn. split; [exact Hc|]. split; [exact Hd|].
  assert (List.length (fst (fst (on_post_save loads_metadata loads_info project_editor
                                   enabled_settings 3126 "source.rust " [main_view] main_view
                                   "/p/src/main.rs"))) = 10) as Hlen
    by (vm_compute; reflexivity).
  rewrite Hc in Hlen. simpl in Hlen. rewrite !length_app in Hlen. simpl in Hlen. lia.
Defined.

(** ** The anchor is shared by the whole tree *)

Section SharedAnchor.

Variable ed : Editor.
Variable settings : Settings.
Variable view_of_interest : View.
Variable target_src_path : string.

Local Abbreviation walk := (add_error_phantoms ed settings view_of_interest target_src_path).
Local Abbreviation walk_children :=
  (recurse_children ed settings view_of_interest target_src_path).
Local Abbreviation own := (own_part ed settings view_of_interest target_src_path).




End SharedAnchor.

